(** * salve_ipc: the client side of the IPC layer ([salve_ipc/ipc.py])

    A shallow embedding of the [IPC] class: its fields become a record, its
    methods become functions from a state to an outcome that carries the
    state back, whether the method returned or raised.  The worker process,
    the pipe and the two queues are outside the program: what the class does
    to them is kept as a log of effects, and what the worker does (answer,
    die) is a step of the environment. *)

From Stdlib Require Import ZArith List Lia.
From stdpp Require Import gmap strings list fin_maps relations.

Local Open Scope string_scope.
Local Open Scope list_scope.
Local Open Scope Z_scope.

(** ** Data *)

(** Modelled from the spec: [COMMANDS] is imported from [salve_ipc/misc.py];
    the class docstring of [IPC] and the spec's data model give its three
    members. *)
Definition COMMANDS : list string :=
  ["autocomplete"; "replacements"; "highlight"].

(** Modelled from the spec: the [Response] TypedDict is declared in
    [salve_ipc/misc.py]; [ipc.py] reads its ["id"] key and tests for its
    optional ["command"] key, the rest travels as a payload. *)
Record Response := mkResponse {
  res_id : Z;
  res_command : option string;
  res_result : string
}.

(** The three dictionaries [create_message] builds, lines 71, 76-85, 88-94. *)
Inductive Message :=
| Ping (id : Z)
| Request (id : Z) (command file : string) (expected_keywords : list string)
          (current_word language : string) (text_range : Z * Z)
| Notification (id : Z) (remove : bool) (file contents : string).

Definition msg_id (m : Message) : Z :=
  match m with
  | Ping id => id
  | Request id _ _ _ _ _ _ => id
  | Notification id _ _ _ => id
  end.

(** [**kwargs] of [create_message]: a key is present or not. *)
Record Kwargs := mkKwargs {
  kw_command : option string;
  kw_file : option string;
  kw_expected_keywords : option (list string);
  kw_current_word : option string;
  kw_language : option string;
  kw_text_range : option (Z * Z);
  kw_remove : option bool;
  kw_filename : option string;
  kw_contents : option string
}.

Definition no_kwargs : Kwargs :=
  mkKwargs None None None None None None None None None.

(** What the class does to the outside world, in program order:
    [Process(...).start()], [main_server.kill()], [requests_queue.put]. *)
Inductive Event :=
| EvSpawn
| EvKill
| EvSend (m : Message).

(** The instance.  [files] is a Python dict, kept as an association list in
    insertion order because [create_server] iterates over it;
    [server_alive] is what [main_server.is_alive()] answers; [draws] counts
    the calls to [randint] so far. *)
Record IPC := mkIPC {
  all_ids : list Z;
  id_max : Z;
  current_ids : gmap string Z;
  newest_responses : gmap string (option Response);
  files : list (string * string);
  response_queue : list Response;
  server_alive : bool;
  effects : list Event;
  draws : nat
}.

Definition set_all_ids (l : list Z) (st : IPC) : IPC :=
  mkIPC l (id_max st) (current_ids st) (newest_responses st) (files st)
        (response_queue st) (server_alive st) (effects st) (draws st).
Definition set_current_ids (m : gmap string Z) (st : IPC) : IPC :=
  mkIPC (all_ids st) (id_max st) m (newest_responses st) (files st)
        (response_queue st) (server_alive st) (effects st) (draws st).
Definition set_newest_responses (m : gmap string (option Response)) (st : IPC) : IPC :=
  mkIPC (all_ids st) (id_max st) (current_ids st) m (files st)
        (response_queue st) (server_alive st) (effects st) (draws st).
Definition set_files (d : list (string * string)) (st : IPC) : IPC :=
  mkIPC (all_ids st) (id_max st) (current_ids st) (newest_responses st) d
        (response_queue st) (server_alive st) (effects st) (draws st).
Definition set_response_queue (q : list Response) (st : IPC) : IPC :=
  mkIPC (all_ids st) (id_max st) (current_ids st) (newest_responses st) (files st)
        q (server_alive st) (effects st) (draws st).
Definition set_server_alive (b : bool) (st : IPC) : IPC :=
  mkIPC (all_ids st) (id_max st) (current_ids st) (newest_responses st) (files st)
        (response_queue st) b (effects st) (draws st).
Definition add_effect (e : Event) (st : IPC) : IPC :=
  mkIPC (all_ids st) (id_max st) (current_ids st) (newest_responses st) (files st)
        (response_queue st) (server_alive st) (effects st ++ [e]) (draws st).
Definition set_draws (n : nat) (st : IPC) : IPC :=
  mkIPC (all_ids st) (id_max st) (current_ids st) (newest_responses st) (files st)
        (response_queue st) (server_alive st) (effects st) n.

(** ** Exceptions and outcomes *)

(** The five [raise Exception(...)] of the class, told apart by their message,
    and the two exceptions the built-in containers raise. *)
Inductive exn :=
| CommandNotBuiltin (command : string)    (* request, line 116 *)
| FileDoesNotExist (file : string)        (* request, line 122 *)
| CannotCancel (command : string)         (* cancel_request, line 138 *)
| CannotGetResponse (command : string)    (* get_response, line 168 *)
| CannotRemoveFile (filename : string)    (* remove_file, line 190 *)
| ValueError                              (* list.remove(x): x not in list;
                                             randint(1, n): n < 1 *)
| KeyError (key : string).                (* d[key]: key not in d *)

(** The spec's taxonomy of the misuse errors. *)
Definition is_InvalidCommand (e : exn) : bool :=
  match e with
  | CommandNotBuiltin _ | CannotCancel _ | CannotGetResponse _ => true
  | _ => false
  end.

Definition is_UnknownFile (e : exn) : bool :=
  match e with
  | FileDoesNotExist _ | CannotRemoveFile _ => true
  | _ => false
  end.

(** A method returns, or raises leaving the instance as it is at that point,
    or is still in the identifier loop when the fuel is spent. *)
Inductive outcome (A : Type) :=
| Returns (a : A) (st : IPC)
| Raises (e : exn) (st : IPC)
| OutOfFuel.
Arguments Returns {A} a st.
Arguments Raises {A} e st.
Arguments OutOfFuel {A}.

Definition bind {A B} (m : IPC -> outcome A) (k : A -> IPC -> outcome B)
  : IPC -> outcome B :=
  fun st =>
    match m st with
    | Returns a st' => k a st'
    | Raises e st' => Raises e st'
    | OutOfFuel => OutOfFuel
    end.

Notation "'do' x <- m ; k" := (bind m (fun x => k))
  (at level 10, x name, m at level 100, k at level 200).
Notation "m ;; k" := (bind m (fun _ => k))
  (at level 100, k at level 200, right associativity).

Definition modify (f : IPC -> IPC) : IPC -> outcome unit :=
  fun st => Returns tt (f st).

Definition final_state {A} (o : outcome A) : option IPC :=
  match o with
  | Returns _ st => Some st
  | Raises _ st => Some st
  | OutOfFuel => None
  end.

(** ** Python containers *)

(** [l.remove(x)]: drops the first [x]; [None] stands for [ValueError]. *)
Fixpoint list_remove_first (x : Z) (l : list Z) : option (list Z) :=
  match l with
  | [] => None
  | y :: l' =>
      if decide (x = y) then Some l'
      else (y ::.) <$> list_remove_first x l'
  end.

(** [d[k] = v] on an insertion-ordered dict: a key already there keeps its
    place, a new key goes last. *)
Fixpoint dict_set (k v : string) (d : list (string * string)) : list (string * string) :=
  match d with
  | [] => [(k, v)]
  | (k', v') :: d' =>
      if decide (k = k') then (k, v) :: d' else (k', v') :: dict_set k v d'
  end.

(** [k in d]. *)
Definition dict_mem (k : string) (d : list (string * string)) : bool :=
  bool_decide (k ∈ d.*1).

(** ** The methods *)

Section Methods.

(** [randint n] is the value of the [n]-th call [randint(1, self.id_max)]
    of the run. *)
Variable randint : nat -> Z.

(** Lines 64-66: the first draw, then one more per turn of the [while];
    [fuel] bounds the turns.  The result is the identifier and the number
    of draws made. *)
Fixpoint draw_fresh (fuel : nat) (pos : nat) (ids : list Z) : option (Z * nat) :=
  let id := randint pos in
  if bool_decide (id ∈ ids) then
    match fuel with
    | O => None
    | S fuel' => draw_fresh fuel' (S pos) ids
    end
  else Some (id, S pos).

(** Lines 64-67: the loop and [self.all_ids.append(id)].  The first
    [randint(1, self.id_max)] raises [ValueError] when the range is empty. *)
Definition new_id (fuel : nat) : IPC -> outcome Z :=
  fun st =>
    if decide (id_max st < 1) then Raises ValueError st
    else
      match draw_fresh fuel (draws st) (all_ids st) with
      | None => OutOfFuel
      | Some (id, pos) =>
          Returns id (set_draws pos (set_all_ids (all_ids st ++ [id]) st))
      end.

(** Line 60. *)
Definition send_message (m : Message) : IPC -> outcome unit :=
  modify (add_effect (EvSend m)).

(** Lines 62-98. *)
Definition create_message (fuel : nat) (type : string) (kw : Kwargs)
  : IPC -> outcome unit :=
  do id <- new_id fuel;
  if decide (type = "ping") then
    send_message (Ping id)
  else if decide (type = "request") then
    let command := default "" (kw_command kw) in
    modify (fun st => set_current_ids (<[command := id]> (current_ids st)) st) ;;
    send_message
      (Request id command
               (default "" (kw_file kw))
               (default [] (kw_expected_keywords kw))
               (default "" (kw_current_word kw))
               (default "" (kw_language kw))
               (default (1, -1) (kw_text_range kw)))
  else if decide (type = "notification") then
    send_message
      (Notification id
                    (default false (kw_remove kw))
                    (default "" (kw_filename kw))
                    (default "" (kw_contents kw)))
  else
    send_message (Ping id).

(** Lines 177-184. *)
Definition update_file (fuel : nat) (filename current_state : string)
  : IPC -> outcome unit :=
  modify (fun st => set_files (dict_set filename current_state (files st)) st) ;;
  create_message fuel "notification"
    (mkKwargs None None None None None None None (Some filename) (Some current_state)).

(** Lines 49-50: the replay loop over [files_copy.items()]. *)
Fixpoint replay (fuel : nat) (items : list (string * string)) : IPC -> outcome unit :=
  match items with
  | [] => modify (fun st => st)
  | (filename, data) :: items' =>
      update_file fuel filename data ;; replay fuel items'
  end.

(** Lines 36-50. *)
Definition create_server (fuel : nat) : IPC -> outcome unit :=
  fun st =>
    let files_copy := files st in
    (modify (fun st => set_server_alive true (add_effect EvSpawn st)) ;;
     modify (set_files []) ;;
     replay fuel files_copy) st.

(** Lines 52-55. *)
Definition check_server (fuel : nat) : IPC -> outcome unit :=
  fun st =>
    if negb (server_alive st) then create_server fuel st
    else Returns tt st.

(** Lines 196-198.  [main_server.kill()] sends the kill signal and returns:
    what [is_alive()] answers does not change by the call, the death of the
    process is a later event (the step [Worker_dies] below). *)
Definition kill_IPC : IPC -> outcome unit :=
  modify (add_effect EvKill).

(** Lines 100-102. *)
Definition ping (fuel : nat) : IPC -> outcome unit :=
  create_message fuel "ping" no_kwargs.

(** Lines 104-132. *)
Definition request (fuel : nat) (command file : string)
    (expected_keywords : list string) (current_word language : string)
    (text_range : Z * Z) : IPC -> outcome unit :=
  fun st =>
    if negb (bool_decide (command ∈ COMMANDS)) then
      (kill_IPC ;; fun st => Raises (CommandNotBuiltin command) st) st
    else if negb (dict_mem file (files st)) then
      (kill_IPC ;; fun st => Raises (FileDoesNotExist file) st) st
    else
      create_message fuel "request"
        (mkKwargs (Some command) (Some file) (Some expected_keywords)
                  (Some current_word) (Some language) (Some text_range)
                  None None None) st.

(** Lines 134-142. *)
Definition cancel_request (command : string) : IPC -> outcome unit :=
  fun st =>
    if negb (bool_decide (command ∈ COMMANDS)) then
      (kill_IPC ;; fun st => Raises (CannotCancel command) st) st
    else
      modify (fun st => set_current_ids (<[command := 0]> (current_ids st)) st) st.

(** Lines 144-157. *)
Definition parse_response (res : Response) : IPC -> outcome unit :=
  fun st =>
    let id := res_id res in
    match list_remove_first id (all_ids st) with
    | None => Raises ValueError st
    | Some ids =>
        let st := set_all_ids ids st in
        match res_command res with
        | None => Returns tt st
        | Some command =>
            match current_ids st !! command with
            | None => Raises (KeyError command) st
            | Some cur =>
                if negb (bool_decide (id = cur)) then Returns tt st
                else
                  let st := set_current_ids (<[command := 0]> (current_ids st)) st in
                  Returns tt
                    (set_newest_responses
                       (<[command := Some res]> (newest_responses st)) st)
            end
        end
    end.

(** Lines 159-162: [get()] pops the head of the queue, then
    [parse_response] runs on it; the loop ends when the queue is empty. *)
Fixpoint check_responses_loop (q : list Response) : IPC -> outcome unit :=
  match q with
  | [] => modify (fun st => st)
  | res :: q' =>
      modify (set_response_queue q') ;;
      parse_response res ;;
      check_responses_loop q'
  end.

Definition check_responses : IPC -> outcome unit :=
  fun st => check_responses_loop (response_queue st) st.

(** Lines 164-175. *)
Definition get_response (command : string) : IPC -> outcome (option Response) :=
  fun st =>
    if negb (bool_decide (command ∈ COMMANDS)) then
      (kill_IPC ;; fun st => Raises (CannotGetResponse command) st) st
    else
      (check_responses ;;
       fun st =>
         match newest_responses st !! command with
         | None => Raises (KeyError command) st
         | Some response =>
             Returns response
               (set_newest_responses (<[command := None]> (newest_responses st)) st)
         end) st.

(** Lines 186-194. *)
Definition remove_file (fuel : nat) (filename : string) : IPC -> outcome unit :=
  fun st =>
    if negb (dict_mem filename (files st)) then
      (kill_IPC ;; fun st => Raises (CannotRemoveFile filename) st) st
    else
      create_message fuel "notification"
        (mkKwargs None None None None None None (Some true) (Some filename) None) st.

(** Lines 19-34: [__init__]. *)
Definition fresh (id_max : Z) : IPC :=
  mkIPC [] id_max
        (foldl (fun m command => <[command := 0]> m) ∅ COMMANDS)
        (foldl (fun m command => <[command := None]> m) ∅ COMMANDS)
        [] [] false [] 0.

Definition __init__ (id_max : Z) : outcome unit :=
  create_server 0 (fresh id_max).

(** ** What a message-sending method leaves behind

    [stamped st m cur fs pos] is [st] once message [m] has been given its
    identifier and sent: the identifier is outstanding, the message is on
    the queue, and [current_ids], [files] and the draw count are as given. *)
Definition stamped (st : IPC) (m : Message) (cur : gmap string Z)
    (fs : list (string * string)) (pos : nat) : IPC :=
  mkIPC (all_ids st ++ [msg_id m]) (id_max st) cur (newest_responses st) fs
        (response_queue st) (server_alive st) (effects st ++ [EvSend m]) pos.

(** The common shape of [ping], [update_file], [remove_file] and [request]
    past their checks ([ping_eq] and the like below): the identifier loop,
    then the message built from the identifier is sent. *)
Definition sends (fuel : nat) (st : IPC) (build : Z -> Message)
    (cur : Z -> gmap string Z) (fs : list (string * string)) : outcome unit :=
  if decide (id_max st < 1) then Raises ValueError (set_files fs st)
  else
    match draw_fresh fuel (draws st) (all_ids st) with
    | None => OutOfFuel
    | Some (id, pos) => Returns tt (stamped st (build id) (cur id) fs pos)
    end.

(** ** Runs of the instance

    What can happen to an instance between two observations of it: the
    caller invokes a method, the worker puts a response on
    [response_queue], or the worker process dies. *)
Inductive call :=
| Call_ping
| Call_request (command file : string) (expected_keywords : list string)
               (current_word language : string) (text_range : Z * Z)
| Call_cancel_request (command : string)
| Call_get_response (command : string)
| Call_update_file (filename current_state : string)
| Call_remove_file (filename : string)
| Call_kill_IPC
| Call_check_server.

(** The instance a call leaves behind, whether it returned or raised. *)
Definition after_call (fuel : nat) (c : call) (st : IPC) : option IPC :=
  match c with
  | Call_ping => final_state (ping fuel st)
  | Call_request command file kws word lang range =>
      final_state (request fuel command file kws word lang range st)
  | Call_cancel_request command => final_state (cancel_request command st)
  | Call_get_response command => final_state (get_response command st)
  | Call_update_file filename current_state =>
      final_state (update_file fuel filename current_state st)
  | Call_remove_file filename => final_state (remove_file fuel filename st)
  | Call_kill_IPC => final_state (kill_IPC st)
  | Call_check_server => final_state (check_server fuel st)
  end.

(** The worker puts [res] on [response_queue]. *)
Definition worker_answers (res : Response) (st : IPC) : IPC :=
  set_response_queue (response_queue st ++ [res]) st.

Inductive label :=
| Calls (c : call)
| Worker_answers (res : Response)
| Worker_dies.

Inductive step : label -> IPC -> IPC -> Prop :=
| step_call fuel c st st' :
    after_call fuel c st = Some st' -> step (Calls c) st st'
| step_answer res st :
    step (Worker_answers res) st (worker_answers res st)
| step_dies st :
    step Worker_dies st (set_server_alive false st).

(** Runs whose every step carries a label allowed by [allowed]. *)
Definition run (allowed : label -> Prop) : IPC -> IPC -> Prop :=
  rtc (fun st st' => exists l, allowed l /\ step l st st').

Definition any_label (l : label) : Prop := True.

(** No call of [request] for [command]. *)
Definition no_request (command : string) (l : label) : Prop :=
  forall file kws word lang range,
    l <> Calls (Call_request command file kws word lang range).

(** No call of [get_response], the only method that observes responses. *)
Definition no_observation (l : label) : Prop :=
  forall command, l <> Calls (Call_get_response command).

(** The worker never answers with identifier [id]. *)
Definition unanswered (id : Z) (l : label) : Prop :=
  forall res, l = Worker_answers res -> res_id res <> id.

(** The instances a program can hold: built by [IPC(id_max)], then run. *)
Definition reachable (M : Z) (st : IPC) : Prop :=
  exists st0, __init__ M = Returns tt st0 /\ run any_label st0 st.

(** ** Properties of instances *)

(** What holds of every instance a program can hold, for [id_max = M]. *)
Record wf (M : Z) (st : IPC) : Prop := {
  wf_id_max : id_max st = M;
  wf_nodup : NoDup (all_ids st);
  wf_range : forall id, id ∈ all_ids st -> 1 <= id <= M;
  wf_current : forall c, is_Some (current_ids st !! c) <-> c ∈ COMMANDS;
  wf_newest : forall c, is_Some (newest_responses st !! c) <-> c ∈ COMMANDS
}.

(** The slot of an idle command holds what it held at [st0], or nothing. *)
Definition idle (M : Z) (c : string) (slot0 : option (option Response))
    (st : IPC) : Prop :=
  wf M st /\ current_ids st !! c = Some 0 /\
  (newest_responses st !! c = slot0 \/ newest_responses st !! c = Some None).

(** The state updates the methods are made of.  A property closed under
    those of them that the allowed labels can trigger holds along every
    allowed run ([run_closed] below). *)
Record closed (allowed : label -> Prop) (I : IPC -> Prop) : Prop := {
  cl_send : forall st n m fs,
    I st -> randint n ∉ all_ids st -> msg_id m = randint n ->
    I (stamped st m (current_ids st) fs (S n));
  cl_request : forall st n c f kws w lang rg,
    allowed (Calls (Call_request c f kws w lang rg)) ->
    c ∈ COMMANDS -> I st -> randint n ∉ all_ids st ->
    I (stamped st (Request (randint n) c f kws w lang rg)
               (<[c := randint n]> (current_ids st)) (files st) (S n));
  cl_files : forall st fs, I st -> I (set_files fs st);
  cl_kill : forall st,
    I st -> I (add_effect EvKill st);
  cl_spawn : forall st,
    allowed (Calls Call_check_server) -> I st ->
    I (set_files [] (set_server_alive true (add_effect EvSpawn st)));
  cl_cancel : forall st c,
    allowed (Calls (Call_cancel_request c)) -> c ∈ COMMANDS -> I st ->
    I (set_current_ids (<[c := 0]> (current_ids st)) st);
  cl_get : forall st c st',
    allowed (Calls (Call_get_response c)) -> I st ->
    final_state (get_response c st) = Some st' -> I st';
  cl_answer : forall st res,
    allowed (Worker_answers res) -> I st -> I (worker_answers res st);
  cl_dies : forall st, I st -> I (set_server_alive false st)
}.

(** A response [parse_response] cannot take on [st]: its identifier is not
    outstanding, or its command tag is not one of [COMMANDS]. *)
Definition unexpected (st : IPC) (res : Response) : Prop :=
  res_id res ∉ all_ids st \/
  exists c, res_command res = Some c /\ c ∉ COMMANDS.

(** The exceptions of the built-in containers, which no method catches. *)
Definition uncaught (e : exn) : Prop :=
  e = ValueError \/ exists k, e = KeyError k.

(** [id] is outstanding and no response on the queue bears it. *)
Definition pending (id : Z) (st : IPC) : Prop :=
  id ∈ all_ids st /\ forall res, res ∈ response_queue st -> res_id res <> id.


(** [id] is outstanding and is the live identifier of [c], whose slot is
    empty. *)
Definition live (M : Z) (id : Z) (c : string) (st : IPC) : Prop :=
  wf M st /\ id ∈ all_ids st /\ current_ids st !! c = Some id /\
  newest_responses st !! c = Some None.

(** [id] is live for [c] and no response bearing it was put on the queue
    yet. *)
Definition awaited (M : Z) (id : Z) (c : string) (st : IPC) : Prop :=
  live M id c st /\ forall res, res ∈ response_queue st -> res_id res <> id.

(** No new request and no cancellation for [c], and no answer bearing
    [id]. *)
Definition quiet (c : string) (id : Z) (l : label) : Prop :=
  no_request c l /\ l <> Calls (Call_cancel_request c) /\ unanswered id l.

(** No call of [check_server], which the class keeps to itself. *)
Definition no_check_server (l : label) : Prop := l <> Calls Call_check_server.

(** How many times a worker process was started. *)
Definition spawns (es : list Event) : nat :=
  length (omap (fun e => match e with EvSpawn => Some tt | _ => None end) es).

(** The files the worker was told to store, in order. *)
Definition upserts (es : list Event) : list (string * string) :=
  omap (fun e => match e with
                 | EvSend (Notification _ false f d) => Some (f, d)
                 | _ => None
                 end) es.

(** The worker is dead and [n] workers were started so far. *)
Definition dead (n : nat) (st : IPC) : Prop :=
  server_alive st = false /\ spawns (effects st) = n.

(** The identifiers of the messages sent, in order. *)
Definition sent_ids (es : list Event) : list Z :=
  omap (fun e => match e with EvSend m => Some (msg_id m) | _ => None end) es.

(** Since [st0], identifiers were only added to [all_ids], and each
    message sent bears one of them, in the order they were added. *)
Definition grown_from (st0 st : IPC) : Prop :=
  exists ids, all_ids st = all_ids st0 ++ ids /\
              sent_ids (effects st) = sent_ids (effects st0) ++ ids.

End Methods.

(** ** Counting draws *)

(** All the ways [n] consecutive calls of [randint(1, M)] can come out. *)
Fixpoint draw_sequences (M : Z) (n : nat) : list (list Z) :=
  match n with
  | O => [[]]
  | S n' => d ← seqZ 1 M; (d ::.) <$> draw_sequences M n'
  end.

(** The run of [randint] that starts with the draws [ds]. *)
Definition draws_then (ds : list Z) (n : nat) : Z := default 1 (ds !! n).

(** ** Concrete runs used to exercise the theorems *)

(** A run of [randint(1, 5)] that yields 1, 4, 2, 5, 3, 1, ... *)
Definition demo_randint (n : nat) : Z := 1 + (Z.of_nat n * 3) mod 5.

Definition state_of {A} (o : outcome A) (dflt : IPC) : IPC :=
  match final_state o with
  | Some st => st
  | None => dflt
  end.

(** [IPC(5)]. *)
Definition demo_ipc : IPC := state_of (__init__ demo_randint 5) (fresh 5).

(** [IPC(5)] after [update_file("a.txt", "1")]. *)
Definition demo_one_file : IPC :=
  state_of (update_file demo_randint 5 "a.txt" "1" demo_ipc) demo_ipc.

(** [demo_one_file] after [request("autocomplete", "a.txt")]: identifier 4
    is live for ["autocomplete"], identifiers 1 and 4 are outstanding. *)
Definition demo_requested : IPC :=
  state_of (request demo_randint 5 "autocomplete" "a.txt" [] "" "Text" (1, -1)
                    demo_one_file) demo_one_file.

(** [demo_requested] after a second [request("autocomplete", "a.txt")]:
    identifier 2 is live, identifiers 1, 4 and 2 are outstanding. *)
Definition demo_requested_twice : IPC :=
  state_of (request demo_randint 5 "autocomplete" "a.txt" [] "" "Text" (1, -1)
                    demo_requested) demo_requested.


(** [IPC(5)] after [update_file("a.txt", "1")], [update_file("b.txt", "2")]. *)
Definition demo_two_files : IPC :=
  state_of (update_file demo_randint 5 "b.txt" "2" demo_one_file) demo_one_file.

(** [demo_two_files] after [remove_file("a.txt")]. *)
Definition demo_removed : IPC :=
  state_of (remove_file demo_randint 5 "a.txt" demo_two_files) demo_two_files.

(** [demo_one_file] once the worker process has died. *)
Definition demo_dead : IPC := set_server_alive false demo_one_file.

(** A run of [randint(1, 2)] that yields 1, 2, 1, 2, ... *)
Definition coin_randint (n : nat) : Z := 1 + Z.of_nat n mod 2.

(** [IPC(2)] after two calls of [ping]: identifiers 1 and 2 are
    outstanding, none is left. *)
Definition demo_full : IPC :=
  state_of ((ping coin_randint 5 ;; ping coin_randint 5)
              (state_of (__init__ coin_randint 2) (fresh 2)))
           (fresh 2).

(** [demo_one_file] after [ping()]. *)
Definition demo_pinged : IPC :=
  state_of (ping demo_randint 5 demo_one_file) demo_one_file.

(** The answer to the request of [demo_requested]. *)
Definition demo_answer : Response := mkResponse 4 (Some "autocomplete") "first".

(** [demo_requested] once the worker has sent a response bearing
    identifier 4 and no command tag, and [get_response("highlight")] has
    drained the queue: identifier 4 is no longer outstanding and is still the
    current identifier of ["autocomplete"]. *)
Definition demo_acknowledged : IPC :=
  state_of (get_response "highlight"
              (worker_answers (mkResponse 4 None "ack") demo_requested))
           demo_requested.

(** [demo_requested] once the worker has answered and
    [get_response("highlight")] has drained the queue: the answer is
    buffered for ["autocomplete"], not yet taken. *)
Definition demo_buffered : IPC :=
  state_of (get_response "highlight" (worker_answers demo_answer demo_requested))
           demo_requested.

(** [demo_buffered] after a new [request("autocomplete", "a.txt")]:
    identifier 2 is live, the answer to the first request is still
    buffered. *)
Definition demo_buffered_requested : IPC :=
  state_of (request demo_randint 5 "autocomplete" "a.txt" [] "" "Text" (1, -1)
                    demo_buffered) demo_buffered.

(** [demo_requested] after [request("highlight", "a.txt")]: identifier 4 is
    live for ["autocomplete"] and identifier 2 for ["highlight"]. *)
Definition demo_two_commands : IPC :=
  state_of (request demo_randint 5 "highlight" "a.txt" [] "" "Text" (1, -1)
                    demo_requested) demo_requested.

(** [IPC(2)] after [update_file("a.txt", "1")] and
    [update_file("b.txt", "2")]: two files in the mirror, both identifiers
    outstanding. *)
Definition demo_two_notes : IPC :=
  state_of ((update_file coin_randint 5 "a.txt" "1" ;;
             update_file coin_randint 5 "b.txt" "2")
              (state_of (__init__ coin_randint 2) (fresh 2)))
           (fresh 2).

(** [demo_two_notes] after the death of the worker. *)
Definition demo_crowded : IPC := set_server_alive false demo_two_notes.

(** [IPC(0)] after [update_file("a.txt", "1")] and
    [update_file("b.txt", "2")], which both raise [ValueError] having written
    the mirror, and the death of the worker. *)
Definition demo_no_ids : IPC :=
  set_server_alive false
    (state_of (update_file demo_randint 5 "b.txt" "2"
                 (state_of (update_file demo_randint 5 "a.txt" "1"
                              (state_of (__init__ demo_randint 0) (fresh 0)))
                           (fresh 0)))
              (fresh 0)).

(** ** Further properties of instances *)

(** [d.get(k)]: the value under [k], [None] when the key is missing. *)
Fixpoint dict_get (k : string) (d : list (string * string)) : option string :=
  match d with
  | [] => None
  | (k', v) :: d' => if decide (k = k') then Some v else dict_get k d'
  end.

(** A [Request] for command [c] stamped with [id] was sent. *)
Definition sent_request (id : Z) (c : string) (es : list Event) : Prop :=
  exists f kws w lang rg, EvSend (Request id c f kws w lang rg) ∈ es.

(** What the three correlator fields hold is backed by what was sent:
    sent messages bear identifiers of [1, M], outstanding identifiers are
    identifiers of sent messages, a current identifier is 0 or that of a
    sent [Request] for its command, and a buffered response is tagged with
    the command of its slot and bears the identifier of a sent [Request]
    for it. *)
Definition correlated (M : Z) (st : IPC) : Prop :=
  wf M st /\
  (forall id, id ∈ sent_ids (effects st) -> 1 <= id <= M) /\
  (forall id, id ∈ all_ids st -> id ∈ sent_ids (effects st)) /\
  (forall c id, current_ids st !! c = Some id ->
                id = 0 \/ sent_request id c (effects st)) /\
  (forall c r, newest_responses st !! c = Some (Some r) ->
               res_command r = Some c /\ sent_request (res_id r) c (effects st)).

(** No call of [update_file] for [filename]. *)
Definition no_update (filename : string) (l : label) : Prop :=
  forall current_state, l <> Calls (Call_update_file filename current_state).

(** A response [parse_response] takes on [st] without raising. *)
(** Consecutive calls of [create_message], one per entry of [calls], with
    nothing observed in between. *)
Fixpoint create_messages (randint : nat -> Z) (fuel : nat)
    (calls : list (string * Kwargs)) : IPC -> outcome unit :=
  match calls with
  | [] => modify (fun st => st)
  | (type, kw) :: calls' =>
      create_message randint fuel type kw ;; create_messages randint fuel calls'
  end.

(** A stream of draws in which every value of [1, M] comes up within any
    [fuel + 1] consecutive draws. *)
Definition recurring (randint : nat -> Z) (M : Z) (fuel : nat) : Prop :=
  forall pos v, 1 <= v <= M ->
    exists k, (k <= fuel)%nat /\ randint (pos + k)%nat = v.

(** [st'] is [st] after [kill()] was called on the worker and nothing
    else: the kill is the one effect added, every field of the instance is
    as it was and [is_alive()] answers as before. *)
Definition only_killed (st st' : IPC) : Prop :=
  effects st' = effects st ++ [EvKill] /\
  all_ids st' = all_ids st /\ id_max st' = id_max st /\
  current_ids st' = current_ids st /\
  newest_responses st' = newest_responses st /\
  files st' = files st /\ response_queue st' = response_queue st /\
  server_alive st' = server_alive st /\ draws st' = draws st.

Definition expected (st : IPC) (res : Response) : Prop :=
  res_id res ∈ all_ids st /\
  forall c, res_command res = Some c -> c ∈ COMMANDS.

(** ** Python containers: facts *)

Lemma list_remove_first_None x l :
  list_remove_first x l = None <-> x ∉ l.
Proof.
  induction l as [|y l IH]; simpl.
  - split; [intros _; apply not_elem_of_nil | done].
  - destruct (decide (x = y)) as [->|Hne].
    + split; [done | intros H; exfalso; apply H; left].
    + rewrite fmap_None, IH. rewrite not_elem_of_cons. tauto.
Qed.

Lemma list_remove_first_Some x l l' :
  list_remove_first x l = Some l' ->
  exists l1 l2, l = l1 ++ x :: l2 /\ l' = l1 ++ l2 /\ (x ∉ l1).
Proof.
  revert l'. induction l as [|y l IH]; simpl; intros l' H; [done|].
  destruct (decide (x = y)) as [->|Hne].
  - inversion H; subst. exists [], l'. split_and!; [done | done | apply not_elem_of_nil].
  - apply fmap_Some in H as (l0 & H0 & ->).
    destruct (IH _ H0) as (l1 & l2 & -> & -> & Hn).
    exists (y :: l1), l2. split_and!; [done | done |].
    rewrite not_elem_of_cons. done.
Qed.

Lemma list_remove_first_is_Some x l :
  x ∈ l -> is_Some (list_remove_first x l).
Proof.
  intros H. destruct (list_remove_first x l) eqn:E; [eauto|].
  apply list_remove_first_None in E. done.
Qed.

Lemma list_remove_first_sub x l l' y :
  list_remove_first x l = Some l' -> y ∈ l' -> y ∈ l.
Proof.
  intros H Hy. destruct (list_remove_first_Some _ _ _ H) as (l1 & l2 & -> & -> & _).
  rewrite elem_of_app in Hy. rewrite elem_of_app, elem_of_cons. tauto.
Qed.

Lemma list_remove_first_other x l l' y :
  list_remove_first x l = Some l' -> y ≠ x -> y ∈ l -> y ∈ l'.
Proof.
  intros H Hne Hy. destruct (list_remove_first_Some _ _ _ H) as (l1 & l2 & -> & -> & _).
  rewrite elem_of_app, elem_of_cons in Hy. rewrite elem_of_app. tauto.
Qed.

Lemma list_remove_first_NoDup x l l' :
  NoDup l -> list_remove_first x l = Some l' -> NoDup l' /\ (x ∉ l').
Proof.
  intros Hnd H. destruct (list_remove_first_Some _ _ _ H) as (l1 & l2 & -> & -> & Hn).
  apply NoDup_app in Hnd as (H1 & H12 & H2).
  apply NoDup_cons in H2 as (Hx2 & H2).
  split.
  - apply NoDup_app. split_and!; [done | | done].
    intros y Hy1 Hy2. apply (H12 y Hy1). by right.
  - rewrite elem_of_app. tauto.
Qed.

Lemma dict_set_keys k v d :
  (dict_set k v d).*1 = if bool_decide (k ∈ d.*1) then d.*1 else d.*1 ++ [k].
Proof.
  induction d as [|[k' v'] d IH]; csimpl; [done|].
  destruct (decide (k = k')) as [->|Hne]; csimpl.
  - rewrite bool_decide_eq_true_2; [done | left].
  - rewrite IH. destruct (bool_decide (k ∈ d.*1)) eqn:E.
    + rewrite bool_decide_eq_true_2; [done|].
      right. by apply bool_decide_eq_true in E.
    + rewrite bool_decide_eq_false_2; [done|].
      apply bool_decide_eq_false in E. rewrite not_elem_of_cons. done.
Qed.

(** Appending a pair whose key is new is what [dict_set] does. *)
Lemma dict_set_fresh k v d : k ∉ d.*1 -> dict_set k v d = d ++ [(k, v)].
Proof.
  induction d as [|[k' v'] d IH]; csimpl; intros H; [done|].
  apply not_elem_of_cons in H as [Hne H].
  destruct (decide (k = k')); [done|]. by rewrite IH.
Qed.

(** ** The identifier loop *)

Section Correlation.

Variable randint : nat -> Z.

Lemma draw_fresh_Some fuel pos ids id pos' :
  draw_fresh randint fuel pos ids = Some (id, pos') ->
  exists n, pos' = S n /\ id = randint n /\ (id ∉ ids) /\
            (pos <= n <= pos + fuel)%nat /\
            forall k, (pos <= k < n)%nat -> randint k ∈ ids.
Proof.
  revert pos. induction fuel as [|fuel IH]; intros pos; simpl.
  - case_bool_decide as E; [done|]. intros [= <- <-].
    exists pos. split_and!; try done; lia.
  - case_bool_decide as E.
    + intros H. destruct (IH _ H) as (n & -> & -> & Hn & Hle & Hbefore).
      exists n. split_and!; try done; try lia.
      intros k Hk. destruct (decide (k = pos)) as [->|]; [done|].
      apply Hbefore. lia.
    + intros [= <- <-]. exists pos. split_and!; try done; lia.
Qed.

Lemma draw_fresh_None fuel pos ids :
  draw_fresh randint fuel pos ids = None <->
  forall k, (k <= fuel)%nat -> randint (pos + k) ∈ ids.
Proof.
  revert pos. induction fuel as [|fuel IH]; intros pos; simpl.
  - case_bool_decide as E.
    + split; [|done]. intros _ k Hk. replace (pos + k)%nat with pos by lia. done.
    + split; [done|]. intros H. exfalso. apply E.
      specialize (H 0%nat). rewrite Nat.add_0_r in H. apply H. lia.
  - case_bool_decide as E.
    + rewrite IH. split.
      * intros H k Hk. destruct k as [|k].
        -- by rewrite Nat.add_0_r.
        -- replace (pos + S k)%nat with (S pos + k)%nat by lia. apply H. lia.
      * intros H k Hk. replace (S pos + k)%nat with (pos + S k)%nat by lia.
        apply H. lia.
    + split; [done|]. intros H. exfalso. apply E.
      specialize (H 0%nat). rewrite Nat.add_0_r in H. apply H. lia.
Qed.

(** The loop stops at the first draw that is not outstanding. *)
Lemma draw_fresh_first fuel pos ids k :
  (k <= fuel)%nat ->
  randint (pos + k) ∉ ids ->
  (forall j, (j < k)%nat -> randint (pos + j) ∈ ids) ->
  draw_fresh randint fuel pos ids = Some (randint (pos + k), S (pos + k)).
Proof.
  intros Hk Hfree Hbefore.
  destruct (draw_fresh randint fuel pos ids) as [[id pos']|] eqn:E.
  - destruct (draw_fresh_Some _ _ _ _ _ E) as (n & -> & -> & Hn & Hle & Hb).
    assert (n = (pos + k)%nat) as ->; [|done].
    destruct (Nat.lt_trichotomy n (pos + k)) as [Hlt|[Heq|Hgt]]; [|done|].
    + exfalso. apply Hn. replace n with (pos + (n - pos))%nat by lia.
      apply Hbefore. lia.
    + exfalso. apply Hfree. apply Hb. lia.
  - exfalso. apply Hfree. eapply draw_fresh_None; eauto.
Qed.

Lemma new_id_Returns fuel st id st' :
  new_id randint fuel st = Returns id st' ->
  exists n, id = randint n /\ (id ∉ all_ids st) /\
            st' = set_draws (S n) (set_all_ids (all_ids st ++ [id]) st) /\
            (draws st <= n <= draws st + fuel)%nat /\
            forall k, (draws st <= k < n)%nat -> randint k ∈ all_ids st.
Proof.
  unfold new_id. case_decide; [done|].
  destruct (draw_fresh _ _ _ _) as [[i pos]|] eqn:E; [|done].
  intros [= <- <-].
  destruct (draw_fresh_Some _ _ _ _ _ E) as (n & -> & -> & Hn & Hle & Hb).
  exists n. done.
Qed.

Lemma new_id_Raises fuel st e st' :
  new_id randint fuel st = Raises e st' ->
  e = ValueError /\ st' = st /\ id_max st < 1.
Proof.
  unfold new_id. case_decide; [by intros [= <- <-]|].
  by destruct (draw_fresh _ _ _ _) as [[i pos]|].
Qed.

Lemma set_files_id st : set_files (files st) st = st.
Proof. by destruct st. Qed.

Lemma ping_eq fuel st :
  ping randint fuel st =
  sends randint fuel st Ping (fun _ => current_ids st) (files st).
Proof.
  unfold ping, create_message, bind, new_id, sends.
  case_decide; [by rewrite set_files_id|].
  by destruct (draw_fresh _ _ _ _) as [[id pos]|].
Qed.

Lemma update_file_eq fuel filename data st :
  update_file randint fuel filename data st =
  sends randint fuel st (fun id => Notification id false filename data)
        (fun _ => current_ids st) (dict_set filename data (files st)).
Proof.
  unfold update_file, create_message, bind, new_id, sends, modify. simpl.
  case_decide; [done|].
  by destruct (draw_fresh _ _ _ _) as [[id pos]|].
Qed.

Lemma remove_file_eq fuel filename st :
  remove_file randint fuel filename st =
  if dict_mem filename (files st) then
    sends randint fuel st (fun id => Notification id true filename "")
          (fun _ => current_ids st) (files st)
  else
    Raises (CannotRemoveFile filename)
           (add_effect EvKill st).
Proof.
  unfold remove_file. destruct (dict_mem _ _); simpl; [|done].
  unfold create_message, bind, new_id, sends.
  case_decide; [by rewrite set_files_id|].
  by destruct (draw_fresh _ _ _ _) as [[id pos]|].
Qed.

Lemma request_eq fuel command file kws word lang range st :
  request randint fuel command file kws word lang range st =
  if bool_decide (command ∈ COMMANDS) then
    if dict_mem file (files st) then
      sends randint fuel st (fun id => Request id command file kws word lang range)
            (fun id => <[command := id]> (current_ids st)) (files st)
    else
      Raises (FileDoesNotExist file)
             (add_effect EvKill st)
  else
    Raises (CommandNotBuiltin command)
           (add_effect EvKill st).
Proof.
  unfold request. destruct (bool_decide _); simpl; [|done].
  destruct (dict_mem _ _); simpl; [|done].
  unfold create_message, bind, new_id, sends.
  case_decide; [by rewrite set_files_id|].
  by destruct (draw_fresh _ _ _ _) as [[id pos]|].
Qed.

Lemma sends_Returns fuel st build cur fs st' :
  sends randint fuel st build cur fs = Returns tt st' ->
  exists n, (randint n ∉ all_ids st) /\
            st' = stamped st (build (randint n)) (cur (randint n)) fs (S n) /\
            (draws st <= n <= draws st + fuel)%nat.
Proof.
  unfold sends. case_decide; [done|].
  destruct (draw_fresh _ _ _ _) as [[id pos]|] eqn:E; [|done].
  intros [= <-].
  destruct (draw_fresh_Some _ _ _ _ _ E) as (n & -> & -> & Hn & Hle & _).
  exists n. done.
Qed.

Lemma sends_enough_fuel fuel st build cur fs k :
  1 <= id_max st -> (k <= fuel)%nat ->
  randint (draws st + k) ∉ all_ids st ->
  exists st', sends randint fuel st build cur fs = Returns tt st'.
Proof.
  intros Hmax Hk Hfree. unfold sends. rewrite decide_False by lia.
  destruct (draw_fresh _ _ _ _) as [[id pos]|] eqn:E; [by eexists|].
  exfalso. apply Hfree. eapply draw_fresh_None; eauto.
Qed.

Lemma sends_Raises fuel st build cur fs e st' :
  sends randint fuel st build cur fs = Raises e st' ->
  e = ValueError /\ st' = set_files fs st /\ id_max st < 1.
Proof.
  unfold sends. case_decide; [by intros [= <- <-]|].
  by destruct (draw_fresh _ _ _ _) as [[id pos]|].
Qed.

Lemma sends_preserves (I : IPC -> Prop) fuel st build cur fs st' :
  I (set_files fs st) ->
  (forall n, randint n ∉ all_ids st ->
     I (stamped st (build (randint n)) (cur (randint n)) fs (S n))) ->
  final_state (sends randint fuel st build cur fs) = Some st' -> I st'.
Proof.
  intros Hraise Hsend H.
  destruct (sends randint fuel st build cur fs) as [[] s|e s|] eqn:E; simpl in H.
  - injection H as <-. apply sends_Returns in E as (n & Hn & -> & _). eauto.
  - injection H as <-. by apply sends_Raises in E as (_ & -> & _).
  - done.
Qed.

(** ** Observing responses *)

Lemma parse_response_final res st st' :
  final_state (parse_response res st) = Some st' ->
  ((res_id res ∉ all_ids st) /\ st' = st) \/
  exists ids, list_remove_first (res_id res) (all_ids st) = Some ids /\
    (st' = set_all_ids ids st \/
     exists c, res_command res = Some c /\
               current_ids st !! c = Some (res_id res) /\
               st' = set_newest_responses
                       (<[c := Some res]> (newest_responses st))
                       (set_current_ids (<[c := 0]> (current_ids st))
                                        (set_all_ids ids st))).
Proof.
  unfold parse_response.
  destruct (list_remove_first _ _) as [ids|] eqn:E; simpl.
  - intros H. right. exists ids. split; [done|].
    destruct (res_command res) as [c|]; simpl in H; [|left; congruence].
    destruct (current_ids st !! c) as [cur|] eqn:Ec; simpl in H; [|left; congruence].
    case_bool_decide as Eid; simpl in H; [|left; congruence].
    right. exists c. subst cur. split_and!; try done. congruence.
  - intros [= <-]. left. by apply list_remove_first_None in E.
Qed.

Lemma parse_response_total res st :
  is_Some (final_state (parse_response res st)).
Proof.
  unfold parse_response. repeat case_match; simpl; eauto.
Qed.

(** [parse_response] leaves the queue, the mirror, the process and the
    log alone. *)
Lemma parse_response_frame res st st' :
  final_state (parse_response res st) = Some st' ->
  id_max st' = id_max st /\ files st' = files st /\
  response_queue st' = response_queue st /\
  server_alive st' = server_alive st /\ effects st' = effects st /\
  draws st' = draws st.
Proof.
  intros H. apply parse_response_final in H
    as [[_ ->]|(ids & _ & [->|(c & _ & _ & ->)])]; done.
Qed.

(** A property that survives popping a response and parsing it survives
    the drain. *)
Lemma check_responses_loop_preserves (J : IPC -> Prop) q st st' :
  (forall res q st st', J st -> response_queue st = res :: q ->
     final_state (parse_response res (set_response_queue q st)) = Some st' ->
     J st') ->
  J st -> response_queue st = q ->
  final_state (check_responses_loop q st) = Some st' -> J st'.
Proof.
  intros Hbody. revert st. induction q as [|res q IH]; intros st HJ Hq; simpl.
  - unfold modify. simpl. by intros [= <-].
  - unfold bind, modify at 1.
    destruct (parse_response res (set_response_queue q st)) as [[] st1|e st1|] eqn:E;
      simpl.
    + apply IH.
      * eapply Hbody; eauto. by rewrite E.
      * assert (Hf : final_state (parse_response res (set_response_queue q st)) = Some st1)
          by (by rewrite E).
        apply parse_response_frame in Hf as (_ & _ & -> & _). done.
    + intros [= <-]. eapply Hbody; eauto. by rewrite E.
    + done.
Qed.

Lemma check_responses_preserves (J : IPC -> Prop) st st' :
  (forall res q st st', J st -> response_queue st = res :: q ->
     final_state (parse_response res (set_response_queue q st)) = Some st' ->
     J st') ->
  J st -> final_state (check_responses st) = Some st' -> J st'.
Proof.
  intros Hbody HJ. unfold check_responses.
  by apply check_responses_loop_preserves.
Qed.

Lemma check_responses_total st :
  is_Some (final_state (check_responses st)).
Proof.
  unfold check_responses. generalize (response_queue st) as q. intros q.
  revert st. induction q as [|res q IH]; intros st; simpl.
  - unfold modify. simpl. eauto.
  - unfold bind, modify at 1.
    pose proof (parse_response_total res (set_response_queue q st)) as [s Hs].
    destruct (parse_response res (set_response_queue q st)) as [[] st1|e st1|];
      simpl in *; try done; eauto.
Qed.

Lemma get_response_final c st st' :
  final_state (get_response c st) = Some st' ->
  ((c ∉ COMMANDS) /\ st' = add_effect EvKill st) \/
  ((c ∈ COMMANDS) /\
   exists st1, final_state (check_responses st) = Some st1 /\
     (st' = st1 \/
      st' = set_newest_responses (<[c := None]> (newest_responses st1)) st1)).
Proof.
  unfold get_response. case_bool_decide as Ec; simpl.
  - intros H. right. split; [done|]. unfold bind in H.
    destruct (check_responses st) as [[] st1|e st1|] eqn:E; simpl in *.
    + exists st1. split; [done|].
      destruct (newest_responses st1 !! c); simpl in H; [right|left]; congruence.
    + exists st1. split; [done|]. left. congruence.
    + done.
  - intros [= <-]. by left.
Qed.

(** ** Respawning *)

Lemma replay_preserves (I : IPC -> Prop) fuel items st st' :
  (forall st n m fs, I st -> randint n ∉ all_ids st -> msg_id m = randint n ->
     I (stamped st m (current_ids st) fs (S n))) ->
  (forall st fs, I st -> I (set_files fs st)) ->
  I st -> final_state (replay randint fuel items st) = Some st' -> I st'.
Proof.
  intros Hsend Hfiles. revert st.
  induction items as [|[f d] items IH]; intros st HI; simpl.
  - unfold modify. simpl. by intros [= <-].
  - unfold bind. rewrite update_file_eq.
    destruct (sends _ _ _ _ _ _) as [[] st1|e st1|] eqn:E; simpl.
    + apply IH. apply sends_Returns in E as (n & Hn & -> & _).
      by apply Hsend.
    + intros [= <-]. apply sends_Raises in E as (_ & -> & _). by apply Hfiles.
    + done.
Qed.

Lemma check_server_preserves (I : IPC -> Prop) fuel st st' :
  (forall st n m fs, I st -> randint n ∉ all_ids st -> msg_id m = randint n ->
     I (stamped st m (current_ids st) fs (S n))) ->
  (forall st fs, I st -> I (set_files fs st)) ->
  (forall st, I st ->
     I (set_files [] (set_server_alive true (add_effect EvSpawn st)))) ->
  I st -> final_state (check_server randint fuel st) = Some st' -> I st'.
Proof.
  intros Hsend Hfiles Hspawn HI. unfold check_server.
  destruct (server_alive st); simpl; [by intros [= <-]|].
  unfold create_server, bind, modify. simpl.
  apply replay_preserves; [done | done |]. by apply Hspawn.
Qed.

(** ** Runs *)

Lemma step_closed allowed I l st st' :
  closed randint allowed I -> allowed l -> step randint l st st' -> I st -> I st'.
Proof.
  intros HC Hl Hstep HI. destruct Hstep as [fuel c st st' Hc|res st|st].
  - destruct c; simpl in Hc.
    + rewrite ping_eq in Hc. revert Hc.
      apply sends_preserves; [by apply HC|]. intros n Hn. by apply HC.
    + rewrite request_eq in Hc. case_bool_decide as Ecmd.
      * destruct (dict_mem _ _).
        -- revert Hc. apply sends_preserves; [by apply HC|].
           intros n Hn. by eapply (cl_request _ _ _ HC).
        -- injection Hc as <-. by apply HC.
      * injection Hc as <-. by apply HC.
    + unfold cancel_request in Hc. case_bool_decide as Ecmd; simpl in Hc.
      * injection Hc as <-. by apply HC.
      * injection Hc as <-. by apply HC.
    + by eapply (cl_get _ _ _ HC).
    + rewrite update_file_eq in Hc. revert Hc.
      apply sends_preserves; [by apply HC|]. intros n Hn. by apply HC.
    + rewrite remove_file_eq in Hc. destruct (dict_mem _ _).
      * revert Hc. apply sends_preserves; [by apply HC|].
        intros n Hn. by apply HC.
      * injection Hc as <-. by apply HC.
    + injection Hc as <-. by apply HC.
    + eapply check_server_preserves; eauto; [apply HC | apply HC |].
      intros s. by apply (cl_spawn _ _ _ HC).
  - by apply HC.
  - by apply HC.
Qed.

Lemma run_closed allowed I st st' :
  closed randint allowed I -> run randint allowed st st' -> I st -> I st'.
Proof.
  intros HC Hrun. induction Hrun as [st|st st1 st2 (l & Hl & Hstep) _ IH]; [done|].
  intros HI. apply IH. by eapply step_closed.
Qed.

(** ** Well-formed instances *)

Lemma is_Some_insert_dom {V} (m : gmap string V) (c c' : string) (v : V) :
  c ∈ COMMANDS ->
  (is_Some (m !! c') <-> c' ∈ COMMANDS) ->
  (is_Some (<[c := v]> m !! c') <-> c' ∈ COMMANDS).
Proof.
  intros Hc Hm. rewrite lookup_insert_is_Some. split.
  - intros [<-|[_ H]]; [done | by apply Hm].
  - intros H. destruct (decide (c = c')); [by left | right].
    split; [done | by apply Hm].
Qed.

Lemma wf_parse_response M res st st' :
  wf M st -> final_state (parse_response res st) = Some st' -> wf M st'.
Proof.
  intros [Hm Hnd Hrg Hcur Hnew] H.
  apply parse_response_final in H
    as [[_ ->]|(ids & Hids & [->|(c & Hc & Hlive & ->)])]; [done| |].
  - destruct (list_remove_first_NoDup _ _ _ Hnd Hids) as [Hnd' _].
    split; simpl; try done.
    intros id Hid. apply Hrg. eapply list_remove_first_sub; eauto.
  - destruct (list_remove_first_NoDup _ _ _ Hnd Hids) as [Hnd' _].
    assert (c ∈ COMMANDS) as Hcmd by (apply Hcur; eauto).
    split; simpl; try done.
    + intros id Hid. apply Hrg. eapply list_remove_first_sub; eauto.
    + intros c'. by apply is_Some_insert_dom.
    + intros c'. by apply is_Some_insert_dom.
Qed.

Lemma wf_set_response_queue M q st : wf M st -> wf M (set_response_queue q st).
Proof. by intros []. Qed.

Lemma wf_get_response M c st st' :
  wf M st -> final_state (get_response c st) = Some st' -> wf M st'.
Proof.
  intros Hwf H. apply get_response_final in H
    as [[_ ->]|(Hc & st1 & H1 & Hst')].
  - by destruct Hwf.
  - assert (wf M st1) as Hwf1.
    { revert H1. apply check_responses_preserves; [|done].
      intros res q s s' Hs _. apply wf_parse_response.
      by apply wf_set_response_queue. }
    destruct Hst' as [->| ->]; [done|].
    destruct Hwf1 as [Hm Hnd Hrg Hcur Hnew]. split; simpl; try done.
    intros c'. by apply is_Some_insert_dom.
Qed.

Lemma wf_closed M :
  (forall n, 1 <= randint n <= M) -> closed randint any_label (wf M).
Proof.
  intros Hrand. split.
  - intros st n m fs [Hm Hnd Hrg Hcur Hnew] Hn Hid. split; simpl; try done.
    + rewrite Hid. apply NoDup_app. split_and!; [done | | apply NoDup_singleton].
      intros x Hx Hx'. apply list_elem_of_singleton in Hx' as ->. done.
    + intros id. rewrite elem_of_app, list_elem_of_singleton.
      intros [H| ->]; [by apply Hrg | rewrite Hid; apply Hrand].
  - intros st n c f kws w lang rg _ Hc [Hm Hnd Hrg Hcur Hnew] Hn.
    split; simpl; try done.
    + apply NoDup_app. split_and!; [done | | apply NoDup_singleton].
      intros x Hx Hx'. apply list_elem_of_singleton in Hx' as ->. done.
    + intros id. rewrite elem_of_app, list_elem_of_singleton.
      intros [H| ->]; [by apply Hrg | apply Hrand].
    + intros c'. by apply is_Some_insert_dom.
  - by intros st fs [].
  - by intros st [].
  - by intros st _ [].
  - intros st c _ Hc [Hm Hnd Hrg Hcur Hnew]. split; simpl; try done.
    intros c'. by apply is_Some_insert_dom.
  - intros st c st' _. apply wf_get_response.
  - by intros st res _ [].
  - by intros st [].
Qed.

Lemma init_eq M :
  __init__ randint M =
  Returns tt (set_files [] (set_server_alive true (add_effect EvSpawn (fresh M)))).
Proof. reflexivity. Qed.

Lemma wf_fresh M : wf M (fresh M).
Proof.
  split; simpl; try done.
  - apply NoDup_nil_2.
  - intros id Hid. by apply elem_of_nil in Hid.
  - intros c. unfold COMMANDS. rewrite !lookup_insert_is_Some, lookup_empty.
    rewrite !elem_of_cons, elem_of_nil. split.
    + intros [->|[_ [->|[_ [->|[_ H]]]]]]; eauto. by destruct H.
    + intros [->|[->|[->|[]]]].
      * destruct (decide ("highlight" = "autocomplete")); eauto 10.
      * destruct (decide ("highlight" = "replacements")); eauto 10.
      * eauto.
  - intros c. unfold COMMANDS. rewrite !lookup_insert_is_Some, lookup_empty.
    rewrite !elem_of_cons, elem_of_nil. split.
    + intros [->|[_ [->|[_ [->|[_ H]]]]]]; eauto. by destruct H.
    + intros [->|[->|[->|[]]]].
      * destruct (decide ("highlight" = "autocomplete")); eauto 10.
      * destruct (decide ("highlight" = "replacements")); eauto 10.
      * eauto.
Qed.

Lemma reachable_wf M st :
  (forall n, 1 <= randint n <= M) -> reachable randint M st -> wf M st.
Proof.
  intros Hrand (st0 & Hinit & Hrun).
  eapply run_closed; [by apply wf_closed | exact Hrun |].
  rewrite init_eq in Hinit. injection Hinit as <-.
  by destruct (wf_fresh M).
Qed.

(** ** A command with no live request *)

(** With [current_ids[c] = 0], no response is ever stored under [c]:
    an observed identifier is outstanding, hence at least 1. *)
Lemma parse_response_idle M c res st st' :
  wf M st -> current_ids st !! c = Some 0 ->
  final_state (parse_response res st) = Some st' ->
  current_ids st' !! c = Some 0 /\
  newest_responses st' !! c = newest_responses st !! c.
Proof.
  intros Hwf Hc H. apply parse_response_final in H
    as [[_ ->]|(ids & Hids & [->|(c0 & Hc0 & Hlive & ->)])]; try done.
  simpl. destruct (decide (c0 = c)) as [->|Hne].
  - exfalso. assert (res_id res = 0) as H0 by congruence.
    assert (res_id res ∈ all_ids st) as Hin.
    { destruct (list_remove_first_Some _ _ _ Hids) as (l1 & l2 & -> & _).
      rewrite elem_of_app, elem_of_cons. tauto. }
    apply (wf_range _ _ Hwf) in Hin. lia.
  - by rewrite !lookup_insert_ne.
Qed.

Lemma idle_get_response M c slot0 c' st st' :
  idle M c slot0 st -> final_state (get_response c' st) = Some st' ->
  idle M c slot0 st'.
Proof.
  intros HI H. pose proof H as H'.
  apply get_response_final in H as [[_ ->]|(Hc' & st1 & H1 & Hst')].
  - destruct HI as ([] & ? & ?). by split_and!.
  - assert (idle M c slot0 st1) as (Hwf1 & Hcur1 & Hslot1).
    { revert H1. apply check_responses_preserves; [|done].
      intros res q s s' (Hwf & Hcur & Hslot) _ Hs.
      pose proof (wf_parse_response M _ _ _ (wf_set_response_queue M q s Hwf) Hs).
      destruct (parse_response_idle M c _ _ _
                  (wf_set_response_queue M q s Hwf) Hcur Hs) as [? Heq].
      split_and!; try done. by rewrite Heq. }
    destruct Hst' as [->| ->]; [done|].
    split_and!.
    + eapply wf_get_response; [|exact H'].
      by destruct HI.
    + done.
    + simpl. destruct (decide (c' = c)) as [->|Hne].
      * right. by rewrite lookup_insert_eq.
      * by rewrite lookup_insert_ne.
Qed.

Lemma idle_closed M c slot0 :
  (forall n, 1 <= randint n <= M) ->
  closed randint (no_request c) (idle M c slot0).
Proof.
  intros Hrand. pose proof (wf_closed M Hrand) as HW. split.
  - intros st n m fs (Hwf & Hcur & Hslot) Hn Hid. split; [|done].
    by apply (cl_send _ _ _ HW).
  - intros st n c' f kws w lang rg Hallowed Hc' (Hwf & Hcur & Hslot) Hn.
    split_and!; [by apply (cl_request _ _ _ HW) | | done].
    simpl. rewrite lookup_insert_ne; [done|].
    intros ->. by eapply Hallowed.
  - intros st fs (Hwf & Hcur & Hslot). split; [|done]. by apply (cl_files _ _ _ HW).
  - intros st (Hwf & Hcur & Hslot). split; [|done]. by apply (cl_kill _ _ _ HW).
  - intros st _ (Hwf & Hcur & Hslot). split; [|done]. by apply (cl_spawn _ _ _ HW).
  - intros st c' _ Hc' (Hwf & Hcur & Hslot).
    split_and!; [by apply (cl_cancel _ _ _ HW) | | done].
    simpl. destruct (decide (c' = c)) as [->|Hne].
    + by rewrite lookup_insert_eq.
    + by rewrite lookup_insert_ne.
  - intros st c' st' _. apply idle_get_response.
  - intros st res _ (Hwf & Hcur & Hslot). split; [|done].
    by apply (cl_answer _ _ _ HW).
  - intros st (Hwf & Hcur & Hslot). split; [|done]. by apply (cl_dies _ _ _ HW).
Qed.

(** What [get_response] hands out for an idle command was in its slot
    already. *)
Lemma idle_get_response_value M c slot0 st v st' :
  idle M c slot0 st -> get_response c st = Returns v st' ->
  v = None \/ slot0 = Some v.
Proof.
  intros HI H. unfold get_response in H. case_bool_decide as Hc; simpl in H; [|done].
  unfold bind in H.
  destruct (check_responses st) as [[] st1|e st1|] eqn:E; try done.
  assert (idle M c slot0 st1) as (Hwf1 & Hcur1 & Hslot1).
  { assert (final_state (check_responses st) = Some st1) as H1 by (by rewrite E).
    revert H1. apply check_responses_preserves; [|done].
    intros res q s s' (Hwf & Hcur & Hslot) _ Hs.
    pose proof (wf_parse_response M _ _ _ (wf_set_response_queue M q s Hwf) Hs).
    destruct (parse_response_idle M c _ _ _
                (wf_set_response_queue M q s Hwf) Hcur Hs) as [? Heq].
    split_and!; try done. by rewrite Heq. }
  destruct (newest_responses st1 !! c) as [slot|] eqn:Es; [|done].
  injection H as <- <-.
  destruct Hslot1 as [<-|[= <-]]; [by right | by left].
Qed.

(** ** Taking a response *)

Lemma list_remove_first_app x l l' :
  x ∉ l -> list_remove_first x (l ++ x :: l') = Some (l ++ l').
Proof.
  induction l as [|y l IH]; simpl; intros H.
  - by rewrite decide_True.
  - apply not_elem_of_cons in H as [Hne H].
    rewrite decide_False by done. by rewrite IH.
Qed.

Lemma get_response_single c st res st1 v :
  c ∈ COMMANDS -> response_queue st = [res] ->
  parse_response res (set_response_queue [] st) = Returns tt st1 ->
  newest_responses st1 !! c = Some v ->
  get_response c st =
  Returns v (set_newest_responses (<[c := None]> (newest_responses st1)) st1).
Proof.
  intros Hc Hq Hparse Hv. unfold get_response.
  rewrite bool_decide_eq_true_2 by done. simpl.
  unfold bind, check_responses. rewrite Hq. simpl.
  unfold bind, modify. rewrite Hparse. by rewrite Hv.
Qed.

Lemma request_Returns fuel c f kws w lang rg st st' :
  request randint fuel c f kws w lang rg st = Returns tt st' ->
  c ∈ COMMANDS /\ dict_mem f (files st) = true /\
  exists n, (randint n ∉ all_ids st) /\
    st' = stamped st (Request (randint n) c f kws w lang rg)
                  (<[c := randint n]> (current_ids st)) (files st) (S n).
Proof.
  rewrite request_eq. case_bool_decide as Hc; [|done].
  destruct (dict_mem f (files st)); [|done].
  intros H. apply sends_Returns in H as (n & Hn & -> & _). eauto.
Qed.

(** ** The observe step *)

(** C1.  [parse_response] on a response whose identifier is not
    outstanding raises [ValueError] and changes nothing, whatever the
    current identifier of its command.  On a response whose identifier is
    outstanding, the first occurrence of the identifier leaves [all_ids]
    (hence every occurrence when [all_ids] has no duplicates), the other
    identifiers keep their order, and nothing outside the correlator
    changes; then: without a command tag, nothing else changes; with a tag
    that is no key of [current_ids], [KeyError] is raised, the identifier
    removed; with a tag whose current identifier is the response's, the
    response is stored in [newest_responses] under the tag and the current
    identifier of the tag is reset to 0, no other command touched; with a
    tag whose current identifier is another one, nothing else changes. *)
Theorem parse_response_observe res st :
  (res_id res ∉ all_ids st -> parse_response res st = Raises ValueError st) /\
  (res_id res ∈ all_ids st ->
   exists before after st',
     all_ids st = before ++ res_id res :: after /\ (res_id res ∉ before) /\
     final_state (parse_response res st) = Some st' /\
     all_ids st' = before ++ after /\
     (NoDup (all_ids st) -> res_id res ∉ all_ids st') /\
     id_max st' = id_max st /\ files st' = files st /\
     response_queue st' = response_queue st /\
     server_alive st' = server_alive st /\ effects st' = effects st /\
     draws st' = draws st /\
     match res_command res with
     | None =>
         parse_response res st = Returns tt st' /\
         current_ids st' = current_ids st /\
         newest_responses st' = newest_responses st
     | Some c =>
         match current_ids st !! c with
         | None =>
             parse_response res st = Raises (KeyError c) st' /\
             current_ids st' = current_ids st /\
             newest_responses st' = newest_responses st
         | Some cur =>
             parse_response res st = Returns tt st' /\
             if decide (cur = res_id res) then
               current_ids st' = <[c := 0]> (current_ids st) /\
               newest_responses st' = <[c := Some res]> (newest_responses st)
             else
               current_ids st' = current_ids st /\
               newest_responses st' = newest_responses st
         end
     end).
Proof.
  split.
  { intros Hnot. apply list_remove_first_None in Hnot.
    unfold parse_response. by rewrite Hnot. }
  intros Hin. destruct (list_remove_first_is_Some _ _ Hin) as [ids Hids].
  destruct (list_remove_first_Some _ _ _ Hids) as (l1 & l2 & Hl & Hl' & Hn).
  assert (NoDup (all_ids st) -> res_id res ∉ ids) as Hgone.
  { intros Hnd. by destruct (list_remove_first_NoDup _ _ _ Hnd Hids). }
  exists l1, l2. unfold parse_response. rewrite Hids. simpl.
  destruct (res_command res) as [c|]; [|by eexists; split_and!].
  destruct (current_ids st !! c) as [cur|] eqn:Ecur; simpl;
    [|by eexists; split_and!].
  destruct (decide (cur = res_id res)) as [->|Hne].
  - rewrite bool_decide_eq_true_2 by done. simpl. by eexists; split_and!.
  - rewrite bool_decide_eq_false_2 by congruence. simpl. by eexists; split_and!.
Qed.

(** ** A request that waits for its answer *)

Lemma live_parse_other M id c res st st' :
  live M id c st -> res_id res <> id ->
  final_state (parse_response res st) = Some st' ->
  live M id c st'.
Proof.
  intros (Hwf & Hin & Hcur & Hslot) Hne Hparse.
  pose proof (wf_parse_response _ _ _ _ Hwf Hparse) as Hwf'.
  apply parse_response_final in Hparse
    as [[_ ->]|(ids & Hids & Hst')]; [done|].
  assert (id ∈ ids) as Hin' by (by eapply list_remove_first_other).
  destruct Hst' as [->|(c0 & _ & Hlive & ->)]; [done|].
  assert (c0 <> c) as Hc0 by (intros ->; congruence).
  split_and!; try done; simpl; by rewrite lookup_insert_ne.
Qed.

Lemma live_parse_answer M id c res st :
  live M id c st -> res_id res = id -> res_command res = Some c ->
  exists st',
    parse_response res st = Returns tt st' /\
    wf M st' /\ current_ids st' !! c = Some 0 /\
    newest_responses st' !! c = Some (Some res) /\
    response_queue st' = response_queue st.
Proof.
  intros (Hwf & Hin & Hcur & Hslot) Hid Htag.
  destruct (list_remove_first_is_Some _ _ Hin) as [ids Hids].
  eexists. split.
  - unfold parse_response. rewrite Hid, Hids, Htag. simpl. rewrite Hcur. simpl.
    by rewrite bool_decide_eq_true_2.
  - split_and!; simpl; try (by rewrite lookup_insert_eq); [|done].
    eapply (wf_parse_response M res st); [done|].
    unfold parse_response. rewrite Hid, Hids, Htag. simpl. rewrite Hcur. simpl.
    by rewrite bool_decide_eq_true_2.
Qed.

Lemma live_set_response_queue M id c q st :
  live M id c st -> live M id c (set_response_queue q st).
Proof. intros (Hwf & ? & ? & ?). split_and!; try done. by apply wf_set_response_queue. Qed.

Lemma awaited_check_responses M id c st st' :
  awaited M id c st -> final_state (check_responses st) = Some st' ->
  awaited M id c st'.
Proof.
  intros Ha. apply check_responses_preserves; [|done].
  intros res q s s' [Hlive Hq] Hqueue Hparse.
  assert (res_id res <> id) as Hne by (apply Hq; rewrite Hqueue; left).
  split.
  - eapply live_parse_other; [|exact Hne|exact Hparse].
    by apply live_set_response_queue.
  - apply parse_response_frame in Hparse as (_ & _ & -> & _). simpl.
    intros r Hr. apply Hq. rewrite Hqueue. by right.
Qed.

Lemma awaited_closed M id c :
  (forall n, 1 <= randint n <= M) ->
  closed randint (quiet c id) (awaited M id c).
Proof.
  intros Hrand. pose proof (wf_closed M Hrand) as HW.
  split; unfold awaited, live.
  - intros st n m fs ((Hwf & Hin & Hcur & Hslot) & Hq) Hn Hid.
    split_and!; try done.
    + by apply (cl_send _ _ _ HW).
    + simpl. rewrite elem_of_app. by left.
  - intros st n c' f kws w lang rg (Hreq & _ & _) Hc'
      ((Hwf & Hin & Hcur & Hslot) & Hq) Hn.
    split_and!; try done.
    + by apply (cl_request _ _ _ HW).
    + simpl. rewrite elem_of_app. by left.
    + simpl. rewrite lookup_insert_ne; [done|]. intros ->. by eapply Hreq.
  - intros st fs ((Hwf & Hin & Hcur & Hslot) & Hq). split_and!; try done.
    by apply (cl_files _ _ _ HW).
  - intros st ((Hwf & Hin & Hcur & Hslot) & Hq). split_and!; try done.
    by apply (cl_kill _ _ _ HW).
  - intros st _ ((Hwf & Hin & Hcur & Hslot) & Hq). split_and!; try done.
    by apply (cl_spawn _ _ _ HW).
  - intros st c' (_ & Hcancel & _) Hc' ((Hwf & Hin & Hcur & Hslot) & Hq).
    split_and!; try done.
    + by apply (cl_cancel _ _ _ HW).
    + simpl. rewrite lookup_insert_ne; [done|]. intros ->. by apply Hcancel.
  - intros st c' st' _ Ha H. pose proof H as H'.
    apply get_response_final in H as [[_ ->]|(Hc' & st1 & H1 & Hst')].
    + destruct Ha as ((Hwf & Hin & Hcur & Hslot) & Hq). split_and!; try done.
      by apply (cl_kill _ _ _ HW).
    + pose proof (awaited_check_responses _ _ _ _ _ Ha H1)
        as ((Hwf1 & Hin1 & Hcur1 & Hslot1) & Hq1).
      destruct Hst' as [->| ->]; [done|].
      split_and!; try done.
      * destruct Ha as ((Hwf & _) & _).
        by apply (wf_get_response M c' st _ Hwf H').
      * simpl. destruct (decide (c' = c)) as [->|Hne].
        -- by rewrite lookup_insert_eq.
        -- by rewrite lookup_insert_ne.
  - intros st res (_ & _ & Hans) ((Hwf & Hin & Hcur & Hslot) & Hq).
    split_and!; try done.
    + by apply (cl_answer _ _ _ HW).
    + simpl. intros r. rewrite elem_of_app, list_elem_of_singleton.
      intros [Hr| ->]; [by apply Hq | by apply Hans].
  - intros st ((Hwf & Hin & Hcur & Hslot) & Hq). split_and!; try done.
    by apply (cl_dies _ _ _ HW).
Qed.

(** While the answer is awaited, [get_response] has nothing to hand out. *)
Lemma awaited_get_response M id c st v st' :
  awaited M id c st -> get_response c st = Returns v st' -> v = None.
Proof.
  intros Ha H. unfold get_response in H.
  case_bool_decide as Hc; simpl in H; [|done]. unfold bind in H.
  destruct (check_responses st) as [[] s|e s|] eqn:E; try done.
  assert (awaited M id c s) as ((_ & _ & _ & Hslot) & _).
  { eapply awaited_check_responses; [exact Ha | by rewrite E]. }
  rewrite Hslot in H. by injection H as <- _.
Qed.

Lemma check_responses_loop_Returns_queue q st st' :
  response_queue st = q ->
  check_responses_loop q st = Returns tt st' -> response_queue st' = [].
Proof.
  revert st. induction q as [|res q IH]; intros st Hq; simpl.
  - unfold modify. intros [= <-]. done.
  - unfold bind, modify at 1.
    destruct (parse_response res (set_response_queue q st)) as [[] s|e s|] eqn:E;
      try done.
    apply IH.
    assert (final_state (parse_response res (set_response_queue q st)) = Some s)
      as Hf by (by rewrite E).
    by apply parse_response_frame in Hf as (_ & _ & -> & _).
Qed.

(** When the answer arrives, the [get_response] that drains it hands it
    out, and leaves the command idle. *)
Lemma awaited_get_response_answer M id c res st v st' :
  awaited M id c st -> res_id res = id -> res_command res = Some c ->
  get_response c (worker_answers res st) = Returns v st' ->
  v = Some res /\ idle M c (Some None) st'.
Proof.
  intros [Hlive Hq] Hid Htag H. unfold get_response in H.
  case_bool_decide as Hc; simpl in H; [|done]. unfold bind in H.
  destruct (check_responses (worker_answers res st)) as [[] s|e s|] eqn:E;
    try done.
  assert (response_queue s = []) as Hempty.
  { by eapply (check_responses_loop_Returns_queue _ (worker_answers res st)). }
  assert ((live M id c s /\
           exists q, response_queue s = q ++ [res] /\
                     forall r, r ∈ q -> res_id r <> id) \/
          (wf M s /\ current_ids s !! c = Some 0 /\
           newest_responses s !! c = Some (Some res) /\
           response_queue s = [])) as Hphase.
  { assert (final_state (check_responses (worker_answers res st)) = Some s)
      as Hfin by (by rewrite E).
    revert Hfin.
    apply (check_responses_preserves
             (fun s => (live M id c s /\
                        exists q, response_queue s = q ++ [res] /\
                                  forall r, r ∈ q -> res_id r <> id) \/
                       (wf M s /\ current_ids s !! c = Some 0 /\
                        newest_responses s !! c = Some (Some res) /\
                        response_queue s = []))).
    - intros r q' s0 s1 [[Hl (q & Hqueue & Hfree)]|(_ & _ & _ & Hnil)] Hpop Hparse;
        [|congruence].
      rewrite Hqueue in Hpop. destruct q as [|r0 q0]; simpl in Hpop.
      + injection Hpop as <- <-.
        destruct (live_parse_answer M id c res (set_response_queue [] s0)
                    (live_set_response_queue _ _ _ _ _ Hl) Hid Htag)
          as (s2 & Hs2 & Hwf2 & Hcur2 & Hslot2 & Hq2).
        rewrite Hs2 in Hparse. injection Hparse as <-. right. done.
      + injection Hpop as <- <-. left. split.
        * eapply live_parse_other; [|  |exact Hparse].
          -- by apply live_set_response_queue.
          -- apply Hfree. left.
        * exists q0. split.
          -- by apply parse_response_frame in Hparse as (_ & _ & -> & _).
          -- intros r Hr. apply Hfree. by right.
    - left. split; [by apply live_set_response_queue|].
      exists (response_queue st). split; [done|]. exact Hq. }
  destruct Hphase as [[_ (q & Hqueue & _)]|(Hwf & Hcur & Hslot & _)].
  { rewrite Hempty in Hqueue. by destruct q. }
  rewrite Hslot in H. injection H as <- <-.
  split; [done|]. split_and!.
  - destruct Hwf. split; simpl; try done.
    intros c'. apply is_Some_insert_dom; [done|]. by apply wf_newest0.
  - done.
  - left. simpl. by rewrite lookup_insert_eq.
Qed.

(** ** Supersession *)

(** C2.  [get_response] for a valid command hands out what the slot of
    the command holds once [check_responses] has drained the queue, and
    empties the slot.
    After two requests for the same command on an instance whose queue and
    slot are empty, the two identifiers differ; a response bearing the
    first gets [None] from [get_response]; a response bearing the second
    is handed out by the next [get_response] (whether or not the stale one
    came before), and from then on, along every run without a new request
    for the command, [get_response] never hands out a response again.
    The same holds whatever else happens in between: as long as the command
    is neither requested again nor cancelled and the worker has not answered
    with the second identifier, every [get_response] for the command that
    returns hands out [None]; and the [get_response] that drains the
    response bearing the second identifier hands out that response. *)
Theorem supersession M c f1 kws1 w1 lang1 rg1 f2 kws2 w2 lang2 rg2
    fuel1 fuel2 st0 st1 st2 :
  (forall n, 1 <= randint n <= M) ->
  wf M st0 ->
  response_queue st0 = [] ->
  newest_responses st0 !! c = Some None ->
  request randint fuel1 c f1 kws1 w1 lang1 rg1 st0 = Returns tt st1 ->
  request randint fuel2 c f2 kws2 w2 lang2 rg2 st1 = Returns tt st2 ->
  (forall st s v,
     check_responses st = Returns tt s -> newest_responses s !! c = Some v ->
     exists st', get_response c st = Returns v st' /\
                 st' = set_newest_responses (<[c := None]> (newest_responses s)) s /\
                 newest_responses st' !! c = Some None) /\
  exists id1 id2,
    current_ids st1 !! c = Some id1 /\ current_ids st2 !! c = Some id2 /\
    id1 <> id2 /\
    (forall r1 r2,
       res_id r1 = id1 -> res_command r1 = Some c ->
       res_id r2 = id2 -> res_command r2 = Some c ->
       exists st3 st4,
         get_response c (worker_answers r1 st2) = Returns None st3 /\
         get_response c (worker_answers r2 st3) = Returns (Some r2) st4 /\
         (exists st4', get_response c (worker_answers r2 st2)
                      = Returns (Some r2) st4') /\
         forall st5 v st6,
           run randint (no_request c) st4 st5 ->
           get_response c st5 = Returns v st6 -> v = None) /\
    (forall st3,
       run randint (quiet c id2) st2 st3 ->
       (forall v st4, get_response c st3 = Returns v st4 -> v = None) /\
       (forall r2 v st4,
          res_id r2 = id2 -> res_command r2 = Some c ->
          get_response c (worker_answers r2 st3) = Returns v st4 ->
          v = Some r2 /\
          forall st5 v' st6,
            run randint (no_request c) st4 st5 ->
            get_response c st5 = Returns v' st6 -> v' = None)).
Proof.
  intros Hrand Hwf0 Hq0 Hslot0 Hreq1 Hreq2.
  apply request_Returns in Hreq1 as (Hc & _ & n1 & Hn1 & ->).
  apply request_Returns in Hreq2 as (_ & _ & n2 & Hn2 & ->).
  simpl in Hn2. split.
  { intros st s v Hdrain Hv. eexists. split_and!; [|done|].
    - unfold get_response. rewrite bool_decide_eq_true_2 by done. simpl.
      unfold bind. by rewrite Hdrain, Hv.
    - simpl. by rewrite lookup_insert_eq. }
  exists (randint n1), (randint n2). simpl.
  rewrite !lookup_insert_eq.
  assert (randint n1 <> randint n2) as Hne.
  { intros Heq. apply Hn2. rewrite elem_of_app, list_elem_of_singleton. by right. }
  split_and!; try done; last first.
  { intros st3 Hrun.
    pose proof (wf_closed M Hrand) as HW.
    pose proof (cl_request _ _ _ HW st0 n1 c f1 kws1 w1 lang1 rg1 I Hc Hwf0 Hn1)
      as Hwf1.
    pose proof (cl_request _ _ _ HW _ n2 c f2 kws2 w2 lang2 rg2 I Hc Hwf1 Hn2)
      as Hwf2.
    assert (awaited M (randint n2) c st3) as Hawait.
    { eapply run_closed; [by apply awaited_closed | exact Hrun |].
      split; [split_and!|].
      - exact Hwf2.
      - simpl. rewrite elem_of_app, list_elem_of_singleton. by right.
      - simpl. by rewrite lookup_insert_eq.
      - exact Hslot0.
      - simpl. rewrite Hq0. intros res Hres. by apply elem_of_nil in Hres. }
    split.
    - intros v st4. by apply (awaited_get_response M (randint n2)).
    - intros r2 v st4 Hid2 Htag2 Hget.
      destruct (awaited_get_response_answer _ _ _ _ _ _ _ Hawait Hid2 Htag2 Hget)
        as [-> Hidle].
      split; [done|]. intros st5 v' st6 Hrun5 Hget5.
      pose proof (run_closed _ _ _ _ (idle_closed M c (Some None) Hrand) Hrun5 Hidle)
        as Hidle5.
      destruct (idle_get_response_value _ _ _ _ _ _ Hidle5 Hget5) as [?|[= <-]];
        done. }
  intros r1 r2 Hid1 Hc1 Hid2 Hc2.
  set (st2 := stamped (stamped st0 _ _ _ _) _ _ _ _).
  assert (randint n2 ∉ all_ids st0) as Hn2'.
  { intros H. apply Hn2. rewrite elem_of_app. by left. }
  (* the stale response *)
  assert (parse_response r1 (set_response_queue [] (worker_answers r1 st2)) =
          Returns tt (set_all_ids (all_ids st0 ++ [randint n2])
                        (set_response_queue [] (worker_answers r1 st2)))) as Hp1.
  { unfold parse_response. simpl. rewrite Hid1, Hc1. rewrite <- app_assoc. simpl.
    rewrite list_remove_first_app by done. simpl.
    rewrite lookup_insert_eq. simpl.
    rewrite bool_decide_eq_false_2 by done. done. }
  eexists. eexists.
  split.
  { eapply get_response_single; [done | | exact Hp1 |].
    - simpl. by rewrite Hq0.
    - simpl. exact Hslot0. }
  set (st3 := set_newest_responses _ _).
  (* the live response *)
  assert (parse_response r2 (set_response_queue [] (worker_answers r2 st3)) =
          Returns tt
            (set_newest_responses
               (<[c := Some r2]> (newest_responses st3))
               (set_current_ids (<[c := 0]> (current_ids st3))
                  (set_all_ids (all_ids st0)
                     (set_response_queue [] (worker_answers r2 st3)))))) as Hp2.
  { unfold parse_response. simpl. rewrite Hid2, Hc2.
    rewrite list_remove_first_app by done. rewrite app_nil_r. simpl.
    rewrite lookup_insert_eq. simpl.
    rewrite bool_decide_eq_true_2 by done. done. }
  split.
  { eapply get_response_single; [done | | exact Hp2 |].
    - done.
    - simpl. by rewrite lookup_insert_eq. }
  set (st4 := set_newest_responses _ _).
  split.
  { eexists. eapply get_response_single; [done | | |].
    - simpl. by rewrite Hq0.
    - unfold parse_response. simpl. rewrite Hid2, Hc2.
      rewrite (list_remove_first_app (randint n2) (all_ids st0 ++ [randint n1]) [])
        by done.
      simpl.
      rewrite lookup_insert_eq. simpl.
      rewrite bool_decide_eq_true_2 by done. done.
    - simpl. by rewrite lookup_insert_eq. }
  intros st5 v st6 Hrun Hget.
  assert (idle M c (Some None) st4) as Hidle4.
  { pose proof (wf_closed M Hrand) as HW.
    assert (wf M st2) as Hwf2.
    { pose proof (cl_request _ _ _ HW st0 n1 c f1 kws1 w1 lang1 rg1 I Hc Hwf0 Hn1)
        as Hwf1.
      exact (cl_request _ _ _ HW _ n2 c f2 kws2 w2 lang2 rg2 I Hc Hwf1 Hn2). }
    assert (wf M st3) as Hwf3.
    { eapply (wf_get_response M c (worker_answers r1 st2)).
      - by apply (cl_answer _ _ _ HW).
      - erewrite get_response_single; [done | done | | exact Hp1 |].
        + simpl. by rewrite Hq0.
        + exact Hslot0. }
    assert (wf M st4) as Hwf4.
    { eapply (wf_get_response M c (worker_answers r2 st3)).
      - by apply (cl_answer _ _ _ HW).
      - erewrite get_response_single; [done | done | | exact Hp2 |].
        + done.
        + simpl. by rewrite lookup_insert_eq. }
    split_and!; [done | |].
    - simpl. by rewrite lookup_insert_eq.
    - left. simpl. by rewrite lookup_insert_eq. }
  pose proof (run_closed _ _ _ _ (idle_closed M c (Some None) Hrand) Hrun Hidle4)
    as Hidle5.
  destruct (idle_get_response_value _ _ _ _ _ _ Hidle5 Hget) as [?|[= <-]]; done.
Qed.

(** ** Identifiers that are not answered *)

Lemma pending_parse_response id res q st st' :
  pending id st -> response_queue st = res :: q ->
  final_state (parse_response res (set_response_queue q st)) = Some st' ->
  pending id st'.
Proof.
  intros [Hin Hq] Hqueue Hparse.
  assert (res_id res <> id) as Hne by (apply Hq; rewrite Hqueue; left).
  assert (forall r, r ∈ q -> res_id r <> id) as Hq'.
  { intros r Hr. apply Hq. rewrite Hqueue. by right. }
  apply parse_response_final in Hparse
    as [[_ ->]|(ids & Hids & Hst')]; [done|].
  simpl in Hids.
  assert (id ∈ ids) as Hin' by (by eapply list_remove_first_other).
  by destruct Hst' as [->|(c0 & _ & _ & ->)].
Qed.

Lemma pending_closed id : closed randint (unanswered id) (pending id).
Proof.
  split.
  - intros st n m fs [Hin Hq] _ _. split; [|done].
    simpl. rewrite elem_of_app. by left.
  - intros st n c f kws w lang rg _ _ [Hin Hq] _. split; [|done].
    simpl. rewrite elem_of_app. by left.
  - by intros st fs [].
  - by intros st [].
  - by intros st _ [].
  - by intros st c _ _ [].
  - intros st c st' _ Hp H. apply get_response_final in H
      as [[_ ->]|(Hc & st1 & H1 & Hst')]; [by destruct Hp|].
    assert (pending id st1) as Hp1.
    { revert H1. apply check_responses_preserves; [|done].
      intros res q s s'. apply pending_parse_response. }
    by destruct Hst' as [->| ->].
  - intros st res Hallowed [Hin Hq]. split; [done|].
    simpl. intros r. rewrite elem_of_app, list_elem_of_singleton.
    intros [Hr| ->]; [by apply Hq | by apply Hallowed].
  - by intros st [].
Qed.


(** ** Cancellation *)


(** ** Errors of [request] *)

(** C6.  [request] raises the invalid-command error exactly when the
    command is not in [COMMANDS], and the unknown-file error exactly when
    the command is valid and the file is not in [files].  When it raises
    one of the two, [kill()] was called on the worker before the raise and
    nothing else was done: [EvKill] is the only effect added, so no message
    was sent, no identifier was drawn, and what [is_alive()] answers is as
    before the call (the process dies of the signal later).  With
    [id_max] at least 1 it raises nothing else; and when it returns it has
    sent exactly one message, the [Request] for the command and file, which
    happens within [fuel] turns of the identifier loop whenever one of the
    first [fuel + 1] draws is not outstanding. *)
Theorem request_errors fuel c f kws w lang rg st :
  ((exists e st', request randint fuel c f kws w lang rg st = Raises e st' /\
                  is_InvalidCommand e = true) <-> c ∉ COMMANDS) /\
  ((exists e st', request randint fuel c f kws w lang rg st = Raises e st' /\
                  is_UnknownFile e = true) <->
   c ∈ COMMANDS /\ f ∉ (files st).*1) /\
  (forall e st', request randint fuel c f kws w lang rg st = Raises e st' ->
     is_InvalidCommand e = true \/ is_UnknownFile e = true ->
     st' = add_effect EvKill st /\ only_killed st st') /\
  (forall e st', request randint fuel c f kws w lang rg st = Raises e st' ->
     1 <= id_max st ->
     is_InvalidCommand e = true \/ is_UnknownFile e = true) /\
  (forall st', request randint fuel c f kws w lang rg st = Returns tt st' ->
     c ∈ COMMANDS /\ f ∈ (files st).*1 /\
     exists id, effects st' = effects st ++ [EvSend (Request id c f kws w lang rg)] /\
                server_alive st' = server_alive st) /\
  (c ∈ COMMANDS -> f ∈ (files st).*1 -> 1 <= id_max st ->
   forall k, (k <= fuel)%nat -> randint (draws st + k) ∉ all_ids st ->
   exists st', request randint fuel c f kws w lang rg st = Returns tt st').
Proof.
  rewrite request_eq. unfold dict_mem.
  case_bool_decide as Hc; [case_bool_decide as Hf|].
  - (* valid command, known file *)
    split_and!.
    + split; [|done]. intros (e & st' & H & He).
      by apply sends_Raises in H as (-> & _ & _).
    + split; [|by intros [_ ?]]. intros (e & st' & H & He).
      by apply sends_Raises in H as (-> & _ & _).
    + intros e st' H He. apply sends_Raises in H as (-> & _ & _).
      by destruct He.
    + intros e st' H Hmax. apply sends_Raises in H as (_ & _ & ?). lia.
    + intros st' H. apply sends_Returns in H as (n & _ & -> & _).
      split_and!; try done. by eexists.
    + intros _ _ Hmax k Hk Hfree. unfold sends.
      rewrite decide_False by lia.
      destruct (draw_fresh _ _ _ _) as [[id pos]|] eqn:E; [by eexists|].
      exfalso. apply Hfree. eapply draw_fresh_None; eauto.
  - (* valid command, unknown file *)
    split_and!.
    + split; [|done]. by intros (e & st' & [= <- <-] & ?).
    + split; [done|]. intros _. by eexists _, _.
    + intros e st' [= <- <-] _. split; [done|]. by repeat split.
    + intros e st' [= <- <-] _. by right.
    + done.
    + done.
  - (* invalid command *)
    split_and!.
    + split; [done|]. intros _. by eexists _, _.
    + split; [|by intros [? _]]. by intros (e & st' & [= <- <-] & ?).
    + intros e st' [= <- <-] _. split; [done|]. by repeat split.
    + intros e st' [= <- <-] _. by left.
    + done.
    + done.
Qed.

(** ** Identifiers *)

Lemma sent_ids_snoc_send es m : sent_ids (es ++ [EvSend m]) = sent_ids es ++ [msg_id m].
Proof. unfold sent_ids. by rewrite omap_app. Qed.

Lemma sent_ids_snoc_kill es : sent_ids (es ++ [EvKill]) = sent_ids es.
Proof. unfold sent_ids. rewrite omap_app. simpl. by rewrite app_nil_r. Qed.

Lemma sent_ids_snoc_spawn es : sent_ids (es ++ [EvSpawn]) = sent_ids es.
Proof. unfold sent_ids. rewrite omap_app. simpl. by rewrite app_nil_r. Qed.

Lemma grown_from_closed st0 : closed randint no_observation (grown_from st0).
Proof.
  split.
  - intros st n m fs (ids & Hids & Hsent) Hn Hid.
    exists (ids ++ [msg_id m]). simpl.
    rewrite Hids, sent_ids_snoc_send, Hsent. by rewrite !app_assoc.
  - intros st n c f kws w lang rg _ _ (ids & Hids & Hsent) Hn.
    exists (ids ++ [randint n]). simpl.
    rewrite Hids, sent_ids_snoc_send, Hsent. by rewrite !app_assoc.
  - intros st fs (ids & Hids & Hsent). by exists ids.
  - intros st (ids & Hids & Hsent). exists ids. simpl.
    by rewrite sent_ids_snoc_kill.
  - intros st _ (ids & Hids & Hsent). exists ids. simpl.
    by rewrite sent_ids_snoc_spawn.
  - intros st c _ _ (ids & Hids & Hsent). by exists ids.
  - intros st c st' Hallowed. exfalso. by eapply Hallowed.
  - intros st res _ (ids & Hids & Hsent). by exists ids.
  - intros st (ids & Hids & Hsent). by exists ids.
Qed.

Lemma run_weaken (allowed : label -> Prop) st st' :
  run randint allowed st st' -> run randint any_label st st'.
Proof.
  induction 1 as [st|st st1 st2 (l & Hl & Hstep) _ IH]; [apply rtc_refl|].
  eapply rtc_l; [|exact IH]. by exists l.
Qed.

Lemma create_message_after_new_id fuel type kw st id st1 :
  new_id randint fuel st = Returns id st1 ->
  exists m cur,
    msg_id m = id /\
    create_message randint fuel type kw st =
    Returns tt (add_effect (EvSend m) (set_current_ids cur st1)).
Proof.
  intros H. unfold create_message, bind. rewrite H.
  repeat case_decide; unfold bind, modify, send_message, modify; simpl;
    eexists _, _; split; try reflexivity; simpl; try reflexivity.
  all: by destruct st1.
Qed.

(** ** Termination of the identifier loop *)

Lemma free_identifier_exists (l : list Z) (M : Z) :
  Z.of_nat (length l) < M -> exists id, 1 <= id <= M /\ (id ∉ l).
Proof.
  intros Hlen.
  destruct (decide (Forall (fun id => id ∈ l) (seqZ 1 M))) as [Hall|Hnot].
  - exfalso.
    assert (seqZ 1 M ⊆+ l) as Hsub.
    { apply NoDup_submseteq; [apply NoDup_seqZ|]. by apply Forall_forall. }
    apply submseteq_length in Hsub. rewrite length_seqZ in Hsub. lia.
  - apply not_Forall_Exists in Hnot; [|apply _].
    apply Exists_exists in Hnot as (id & Hin & Hnin).
    exists id. apply elem_of_seqZ in Hin. split; [lia | done].
Qed.

(** Of the [M] values a draw can take, those that end the loop are the
    [M - length l] that are not outstanding. *)
Lemma free_identifier_count (l : list Z) (M : Z) :
  NoDup l -> (forall id, id ∈ l -> 1 <= id <= M) ->
  (length (filter (fun id => id ∉ l) (seqZ 1 M)) + length l)%nat = Z.to_nat M.
Proof.
  intros Hnd Hrg.
  assert (filter (fun id => id ∈ l) (seqZ 1 M) ≡ₚ l) as Hperm.
  { apply NoDup_Permutation; [apply NoDup_filter, NoDup_seqZ | done |].
    intros id. rewrite list_elem_of_filter, elem_of_seqZ. split; [tauto|].
    intros Hin. split; [done|]. apply Hrg in Hin. lia. }
  pose proof (filter_app_complement (fun id => id ∈ l) (seqZ 1 M)) as Hsplit.
  apply Permutation_length in Hsplit. rewrite length_app, length_seqZ in Hsplit.
  rewrite Hperm in Hsplit. lia.
Qed.

(** ** Consecutive allocations *)

(** As long as [all_ids] is not full, a stream in which every value comes
    up again makes every call of [create_message] return: each one adds
    one identifier and sends one message stamped with it. *)
Lemma create_messages_return M fuel calls st :
  (forall n, 1 <= randint n <= M) -> recurring randint M fuel ->
  id_max st = M -> NoDup (all_ids st) ->
  (forall id, id ∈ all_ids st -> 1 <= id <= M) ->
  Z.of_nat (length (all_ids st) + length calls) <= M ->
  exists ids st',
    create_messages randint fuel calls st = Returns tt st' /\
    length ids = length calls /\
    all_ids st' = all_ids st ++ ids /\
    sent_ids (effects st') = sent_ids (effects st) ++ ids /\
    NoDup (all_ids st') /\
    (forall id, id ∈ all_ids st' -> 1 <= id <= M).
Proof.
  intros Hrand Hrec. revert st.
  induction calls as [|[type kw] calls IH]; intros st Hmax Hnd Hrg Hlen; simpl.
  { exists [], st. by rewrite !app_nil_r. }
  simpl in Hlen.
  destruct (free_identifier_exists (all_ids st) M) as (v & Hv & Hfree); [lia|].
  destruct (Hrec (draws st) v Hv) as (k & Hk & Hdraw).
  destruct (new_id randint fuel st) as [id st1|e st1|] eqn:Hnew.
  - destruct (new_id_Returns _ _ _ _ Hnew) as (n & Hid & Hfresh & Hst1 & _).
    destruct (create_message_after_new_id fuel type kw _ _ _ Hnew)
      as (m & cur & Hm & Hcreate).
    unfold bind at 1. rewrite Hcreate.
    destruct (IH (add_effect (EvSend m) (set_current_ids cur st1)))
      as (ids & st' & Hret & Hlen' & Hids & Hsent & Hnd' & Hrg').
    + by rewrite Hst1.
    + rewrite Hst1. simpl. apply NoDup_app. split_and!; [done | | apply NoDup_singleton].
      intros x Hx ->%list_elem_of_singleton. done.
    + rewrite Hst1. simpl. intros x [Hx| ->%list_elem_of_singleton]%elem_of_app.
      * by apply Hrg.
      * rewrite Hid. apply Hrand.
    + rewrite Hst1. simpl. rewrite length_app. simpl. lia.
    + exists (id :: ids), st'. rewrite Hret. split; [done|].
      rewrite Hst1 in Hids, Hsent. simpl in Hids, Hsent.
      rewrite sent_ids_snoc_send, Hm in Hsent.
      rewrite <- !app_assoc in Hids, Hsent. simpl in Hids, Hsent.
      split_and!; try done. simpl. by rewrite Hlen'.
  - apply new_id_Raises in Hnew as (_ & _ & ?). lia.
  - exfalso. unfold new_id in Hnew. rewrite decide_False in Hnew by lia.
    destruct (draw_fresh randint fuel (draws st) (all_ids st)) as [[??]|] eqn:E;
      [done|].
    apply Hfree. rewrite <- Hdraw. by eapply draw_fresh_None.
Qed.

(** C7.  On every instance a program can hold, [all_ids] has no
    duplicates and holds only identifiers of [1, id_max], so never 0.  The
    allocation returns as soon as a draw is not outstanding, and an
    identifier it returns is in [1, id_max], is not 0, and was
    not in [all_ids] when it was drawn; it is appended to [all_ids] while
    nothing has been sent yet, and [create_message] then sends one message,
    stamped with it.  Hence along every run without observation the
    identifiers of the messages sent are exactly the identifiers added to
    [all_ids]: pairwise distinct, in [1, id_max], and distinct from those
    outstanding at the start; and [N] consecutive calls of
    [create_message], when [N] more identifiers fit in [1, id_max] and every
    value keeps coming up in the draws, all return, having sent [N]
    messages stamped with [N] such identifiers. *)
Theorem identifier_allocation M st :
  (forall n, 1 <= randint n <= M) ->
  reachable randint M st ->
  id_max st = M /\
  NoDup (all_ids st) /\
  (forall id, id ∈ all_ids st -> 1 <= id <= M) /\
  (0 ∉ all_ids st) /\
  (forall fuel k,
     (k <= fuel)%nat -> randint (draws st + k) ∉ all_ids st ->
     exists id st1, new_id randint fuel st = Returns id st1) /\
  (forall fuel id st1,
     new_id randint fuel st = Returns id st1 ->
     1 <= id <= M /\ id <> 0 /\ (id ∉ all_ids st) /\
     all_ids st1 = all_ids st ++ [id] /\
     effects st1 = effects st /\
     forall type kw, exists m st2,
       create_message randint fuel type kw st = Returns tt st2 /\
       msg_id m = id /\
       effects st2 = effects st1 ++ [EvSend m] /\
       all_ids st2 = all_ids st1) /\
  (forall st',
     run randint no_observation st st' ->
     exists ids,
       all_ids st' = all_ids st ++ ids /\
       sent_ids (effects st') = sent_ids (effects st) ++ ids /\
       NoDup ids /\
       forall id, id ∈ ids -> 1 <= id <= M /\ id <> 0 /\ (id ∉ all_ids st)) /\
  (forall fuel calls,
     recurring randint M fuel ->
     Z.of_nat (length (all_ids st) + length calls) <= M ->
     exists ids st',
       create_messages randint fuel calls st = Returns tt st' /\
       length ids = length calls /\
       all_ids st' = all_ids st ++ ids /\
       sent_ids (effects st') = sent_ids (effects st) ++ ids /\
       NoDup ids /\
       forall id, id ∈ ids -> 1 <= id <= M /\ id <> 0 /\ (id ∉ all_ids st)).
Proof.
  intros Hrand Hreach. pose proof (reachable_wf M st Hrand Hreach) as Hwf.
  destruct Hwf as [Hm Hnd Hrg Hcur Hnew].
  split_and!; try done.
  - intros H0. apply Hrg in H0. lia.
  - intros fuel k Hk Hfree. unfold new_id. pose proof (Hrand 0%nat).
    rewrite decide_False by lia.
    destruct (draw_fresh randint fuel (draws st) (all_ids st)) as [[id pos]|] eqn:E;
      [by eexists _, _|].
    exfalso. apply Hfree. by eapply draw_fresh_None.
  - intros fuel id st1 Hnew_id.
    destruct (new_id_Returns _ _ _ _ Hnew_id) as (n & -> & Hfresh & -> & _).
    pose proof (Hrand n). split_and!; try done; try lia.
    intros type kw.
    destruct (create_message_after_new_id fuel type kw _ _ _ Hnew_id)
      as (m & cur & Hm' & ->).
    by eexists m, _.
  - intros st' Hrun.
    assert (grown_from st st') as (ids & Hids & Hsent).
    { eapply run_closed; [apply grown_from_closed | exact Hrun |].
      exists []. by rewrite !app_nil_r. }
    assert (wf M st') as Hwf'.
    { eapply run_closed; [by apply wf_closed | by eapply run_weaken |].
      by split. }
    destruct Hwf' as [_ Hnd' Hrg' _ _]. rewrite Hids in Hnd', Hrg'.
    apply NoDup_app in Hnd' as (_ & Hdisj & Hnd_ids).
    exists ids. split_and!; try done.
    intros id Hid.
    assert (1 <= id <= M) by (apply Hrg'; rewrite elem_of_app; by right).
    split_and!; [lia | lia | lia |].
    intros Hin. by apply (Hdisj id).
  - intros fuel calls Hrec Hlen.
    destruct (create_messages_return M fuel calls st Hrand Hrec Hm Hnd Hrg Hlen)
      as (ids & st' & Hret & Hlen' & Hids & Hsent & Hnd' & Hrg').
    rewrite Hids in Hnd', Hrg'.
    apply NoDup_app in Hnd' as (_ & Hdisj & Hnd_ids).
    exists ids, st'. split_and!; try done.
    intros id Hid.
    assert (1 <= id <= M) by (apply Hrg'; rewrite elem_of_app; by right).
    split_and!; [lia | lia | lia |].
    intros Hin. by apply (Hdisj id).
Qed.

End Correlation.

(** ** How many draws keep the loop going *)

Lemma length_filter_ext_in {A} (P Q : A -> Prop)
    `{!forall x, Decision (P x)} `{!forall x, Decision (Q x)} (l : list A) :
  (forall x, x ∈ l -> (P x <-> Q x)) ->
  length (filter P l) = length (filter Q l).
Proof.
  induction l as [|x l IH]; intros Hext; [done|].
  rewrite !filter_cons.
  assert (P x <-> Q x) as Hx by (apply Hext; left).
  assert (length (filter P l) = length (filter Q l)) as Hl.
  { apply IH. intros y Hy. apply Hext. by right. }
  destruct (decide (P x)), (decide (Q x)); simpl; try tauto; by rewrite ?Hl.
Qed.

Lemma length_filter_Forall_cons (Q : Z -> Prop) `{!forall x, Decision (Q x)}
    (v : Z) (S : list (list Z)) :
  length (filter (Forall Q) ((v ::.) <$> S)) =
  if decide (Q v) then length (filter (Forall Q) S) else 0%nat.
Proof.
  induction S as [|ds S IH]; csimpl; [by destruct (decide (Q v))|].
  rewrite !filter_cons.
  destruct (decide (Forall Q (v :: ds))) as [Hall|Hnot].
  - apply Forall_cons in Hall as [Hv Hds].
    rewrite decide_True by done. rewrite decide_True in IH by done.
    rewrite decide_True by done. simpl. by rewrite IH.
  - destruct (decide (Q v)) as [Hv|Hv].
    + rewrite decide_False; [done|]. intros Hds. apply Hnot. by apply Forall_cons.
    + done.
Qed.

Lemma length_filter_Forall_bind (Q : Z -> Prop) `{!forall x, Decision (Q x)}
    (vs : list Z) (S : list (list Z)) :
  length (filter (Forall Q) (d ← vs; (d ::.) <$> S)) =
  (length (filter Q vs) * length (filter (Forall Q) S))%nat.
Proof.
  induction vs as [|v vs IH]; [done|].
  rewrite bind_cons, filter_app, length_app, IH, length_filter_Forall_cons.
  rewrite filter_cons. destruct (decide (Q v)); simpl; lia.
Qed.

Lemma draw_sequences_length M n ds :
  ds ∈ draw_sequences M n -> length ds = n.
Proof.
  revert ds. induction n as [|n IH]; intros ds; simpl.
  - by intros ->%list_elem_of_singleton.
  - intros (d & Hds & _)%list_elem_of_bind.
    apply list_elem_of_fmap in Hds as (ds' & -> & Hds'). simpl. by rewrite IH.
Qed.

Lemma draw_sequences_count M n :
  length (draw_sequences M n) = (Z.to_nat M ^ n)%nat.
Proof.
  induction n as [|n IH]; [done|]. simpl draw_sequences.
  assert (forall vs : list Z,
            length (d ← vs; (d ::.) <$> draw_sequences M n) =
            (length vs * length (draw_sequences M n))%nat) as Hbind.
  { induction vs as [|v vs IHvs]; [done|].
    rewrite bind_cons, length_app, length_fmap, IHvs. simpl. lia. }
  rewrite Hbind, length_seqZ, IH. simpl. lia.
Qed.

Lemma draw_sequences_Forall_count (Q : Z -> Prop) `{!forall x, Decision (Q x)} M n :
  length (filter (Forall Q) (draw_sequences M n)) =
  (length (filter Q (seqZ 1 M)) ^ n)%nat.
Proof.
  induction n as [|n IH]; simpl draw_sequences.
  - rewrite filter_cons, decide_True by constructor. done.
  - by rewrite length_filter_Forall_bind, IH.
Qed.

(** On the draws [ds], all [fuel + 1] of them, the loop is still running
    after [fuel] turns exactly when every draw is outstanding. *)
Lemma draw_fresh_draws_then fuel ds ids :
  length ds = S fuel ->
  draw_fresh (draws_then ds) fuel 0 ids = None <-> Forall (fun d => d ∈ ids) ds.
Proof.
  intros Hlen. rewrite draw_fresh_None, Forall_lookup. unfold draws_then. split.
  - intros H i d Hi. specialize (H i).
    rewrite Nat.add_0_l, Hi in H. apply H.
    apply lookup_lt_Some in Hi. lia.
  - intros H k Hk. rewrite Nat.add_0_l.
    destruct (ds !! k) as [d|] eqn:E; [by eapply H|].
    apply lookup_ge_None in E. lia.
Qed.

(** Of the [id_max ^ (fuel + 1)] ways the first [fuel + 1] draws can come
    out, those that leave the loop running after [fuel] turns number
    [length ids ^ (fuel + 1)]. *)
Lemma still_drawing_count M ids fuel :
  NoDup ids -> (forall id, id ∈ ids -> 1 <= id <= M) ->
  length (filter (fun ds => draw_fresh (draws_then ds) fuel 0 ids = None)
                 (draw_sequences M (S fuel))) =
  (length ids ^ S fuel)%nat.
Proof.
  intros Hnd Hrg.
  rewrite (length_filter_ext_in _ (Forall (fun d => d ∈ ids))).
  - rewrite draw_sequences_Forall_count. f_equal.
    apply Permutation_length.
    apply NoDup_Permutation; [apply NoDup_filter, NoDup_seqZ | done |].
    intros id. rewrite list_elem_of_filter, elem_of_seqZ. split; [tauto|].
    intros Hin. split; [done|]. apply Hrg in Hin. lia.
  - intros ds Hds. apply draw_fresh_draws_then.
    by apply draw_sequences_length in Hds.
Qed.

Section Supervision.

Variable randint : nat -> Z.

(** C8.  The identifier loop has no bound check: the only exception of
    [new_id] is the [ValueError] of [randint] on an empty range, when
    [id_max] is below 1; otherwise it returns or it is still drawing.  Its
    outcome is fixed by the draws: it is still in the loop after [fuel]
    turns exactly when the first [fuel + 1] draws are all outstanding, and
    it returns at the first draw that is not.  When fewer than [id_max]
    identifiers are outstanding such a value exists in [1, id_max]; on a
    well-formed instance exactly [id_max - length all_ids] of the [id_max]
    values end the loop, and of the [id_max ^ (fuel + 1)] ways the first
    [fuel + 1] draws can come out, [length all_ids ^ (fuel + 1)] leave the
    loop running after [fuel] turns: a share that vanishes as [fuel] grows
    when [all_ids] is not full, and that grows to the whole as [all_ids]
    fills up.  When every
    value of [1, id_max] is outstanding no draw ends the loop: for every
    fuel, [new_id], and with it [create_message] and [ping], is still in
    the loop. *)
Theorem rejection_sampling st :
  (forall fuel e st',
     new_id randint fuel st = Raises e st' ->
     e = ValueError /\ st' = st /\ id_max st < 1) /\
  (1 <= id_max st ->
   forall fuel,
     new_id randint fuel st = OutOfFuel <->
     forall k, (k <= fuel)%nat -> randint (draws st + k) ∈ all_ids st) /\
  (1 <= id_max st ->
   forall fuel k,
     (k <= fuel)%nat ->
     randint (draws st + k) ∉ all_ids st ->
     (forall j, (j < k)%nat -> randint (draws st + j) ∈ all_ids st) ->
     exists st',
       new_id randint fuel st = Returns (randint (draws st + k)) st' /\
       draws st' = S (draws st + k)) /\
  (Z.of_nat (length (all_ids st)) < id_max st ->
   exists id, 1 <= id <= id_max st /\ (id ∉ all_ids st)) /\
  (wf (id_max st) st ->
   (length (filter (fun id => id ∉ all_ids st) (seqZ 1 (id_max st)))
    + length (all_ids st))%nat = Z.to_nat (id_max st)) /\
  (wf (id_max st) st ->
   forall fuel,
     length (draw_sequences (id_max st) (S fuel))
     = (Z.to_nat (id_max st) ^ S fuel)%nat /\
     length (filter (fun ds => draw_fresh (draws_then ds) fuel 0 (all_ids st) = None)
                    (draw_sequences (id_max st) (S fuel)))
     = (length (all_ids st) ^ S fuel)%nat) /\
  ((forall id, 1 <= id <= id_max st -> id ∈ all_ids st) ->
   (forall n, 1 <= randint n <= id_max st) ->
   forall fuel,
     new_id randint fuel st = OutOfFuel /\
     ping randint fuel st = OutOfFuel /\
     forall type kw, create_message randint fuel type kw st = OutOfFuel).
Proof.
  split_and!.
  - intros fuel e st'. apply new_id_Raises.
  - intros Hmax fuel. unfold new_id. rewrite decide_False by lia.
    rewrite <- draw_fresh_None.
    by destruct (draw_fresh _ _ _ _) as [[??]|].
  - intros Hmax fuel k Hk Hfree Hbefore. unfold new_id.
    rewrite decide_False by lia.
    rewrite (draw_fresh_first randint fuel (draws st) (all_ids st) k) by done.
    by eexists.
  - apply free_identifier_exists.
  - intros [_ Hnd Hrg _ _]. by apply free_identifier_count.
  - intros [_ Hnd Hrg _ _] fuel. split.
    + apply draw_sequences_count.
    + by apply still_drawing_count.
  - intros Hfull Hrand fuel.
    assert (new_id randint fuel st = OutOfFuel) as Hloop.
    { unfold new_id. pose proof (Hrand 0%nat).
      rewrite decide_False by lia.
      assert (draw_fresh randint fuel (draws st) (all_ids st) = None) as ->; [|done].
      apply draw_fresh_None. intros k _. apply Hfull, Hrand. }
    split_and!; [done | |].
    + unfold ping, create_message, bind. by rewrite Hloop.
    + intros type kw. unfold create_message, bind. by rewrite Hloop.
Qed.

(** ** Responses the correlator cannot take *)

Lemma parse_response_unexpected M res st :
  wf M st -> unexpected st res ->
  exists e st', parse_response res st = Raises e st' /\ uncaught e.
Proof.
  intros Hwf Hbad. unfold parse_response.
  destruct (list_remove_first (res_id res) (all_ids st)) as [ids|] eqn:E.
  - destruct Hbad as [Hnin|(c & Hc & Hinvalid)].
    { apply list_remove_first_None in Hnin. congruence. }
    rewrite Hc. simpl.
    destruct (current_ids st !! c) as [cur|] eqn:Ecur.
    + exfalso. apply Hinvalid. apply (wf_current _ _ Hwf). eauto.
    + eexists _, _. split; [done|]. right. by eexists.
  - eexists _, _. split; [done|]. by left.
Qed.

Lemma check_responses_loop_doomed M q st :
  wf M st ->
  Exists (unexpected st) q \/ ~ NoDup (res_id <$> q) ->
  exists e st', check_responses_loop q st = Raises e st' /\ uncaught e.
Proof.
  revert st. induction q as [|res q IH]; intros st Hwf Hdoom.
  { exfalso. destruct Hdoom as [H|H].
    - by apply Exists_nil in H.
    - apply H. apply NoDup_nil_2. }
  simpl. unfold bind, modify at 1.
  assert (wf M (set_response_queue q st)) as Hwfq by (by apply wf_set_response_queue).
  destruct (parse_response res (set_response_queue q st)) as [[] st1|e st1|] eqn:E.
  - assert (final_state (parse_response res (set_response_queue q st)) = Some st1)
      as Hfin by (by rewrite E).
    pose proof (wf_parse_response _ _ _ _ Hwfq Hfin) as Hwf1.
    apply IH; [done|].
    (* the head was taken, so it was expected, and its identifier is gone *)
    assert (~ unexpected st res) as Hgood.
    { intros Hbad.
      destruct (parse_response_unexpected M res (set_response_queue q st) Hwfq Hbad)
        as (e & s & He & _). congruence. }
    assert ((res_id res ∉ all_ids st1) /\
            forall id, id ∈ all_ids st1 -> id ∈ all_ids st) as [Hgone Hsub].
    { apply parse_response_final in Hfin
        as [[Hnin _]|(ids & Hids & Hst1)].
      - exfalso. apply Hgood. by left.
      - simpl in Hids.
        destruct (list_remove_first_NoDup _ _ _ (wf_nodup _ _ Hwf) Hids) as [_ Hg].
        assert (all_ids st1 = ids) as ->
            by (by destruct Hst1 as [->|(c0 & _ & _ & ->)]).
        split; [done|]. intros id. by apply (list_remove_first_sub _ _ _ _ Hids). }
    assert (forall r, unexpected st r -> unexpected st1 r) as Hmono.
    { intros r [Hnin|Htag]; [left | by right]. intros Hin. by apply Hnin, Hsub. }
    destruct Hdoom as [Hex|Hdup].
    + left. apply Exists_cons in Hex as [Hhd|Htl]; [done|].
      eapply Exists_impl; eauto.
    + rewrite fmap_cons, NoDup_cons in Hdup.
      destruct (decide (res_id res ∈ res_id <$> q)) as [Hin|Hnin].
      * left. apply list_elem_of_fmap in Hin as (r & Hr & Hrq).
        apply Exists_exists. exists r. split; [done|]. left. by rewrite <- Hr.
      * right. intros Hnd. apply Hdup. done.
  - eexists _, _. split; [done|].
    destruct (decide (res_id res ∈ all_ids st)) as [Hin|Hnin].
    + unfold parse_response in E. simpl in E.
      destruct (list_remove_first_is_Some _ _ Hin) as [ids Hids].
      rewrite Hids in E. simpl in E.
      destruct (res_command res) as [c|]; [|done].
      destruct (current_ids st !! c) as [cur|]; simpl in E.
      * by case_bool_decide.
      * injection E as <- <-. right. by eexists.
    + unfold parse_response in E. simpl in E.
      apply list_remove_first_None in Hnin. rewrite Hnin in E.
      injection E as <- <-. by left.
  - exfalso. pose proof (parse_response_total res (set_response_queue q st)) as [s Hs].
    by rewrite E in Hs.
Qed.

(** C9.  On an instance a program can hold, [parse_response] raises
    [ValueError] on a response whose identifier is not outstanding, leaving
    the instance as it is, and raises [KeyError], the identifier removed,
    on a response whose identifier is outstanding and whose command tag is
    not in [COMMANDS].  [get_response] for a valid command raises one of
    these two as soon as the queue holds such a response, or two responses
    with the same identifier. *)
Theorem observe_partial M st :
  wf M st ->
  (forall res,
     res_id res ∉ all_ids st ->
     parse_response res st = Raises ValueError st) /\
  (forall res c,
     res_id res ∈ all_ids st -> res_command res = Some c -> c ∉ COMMANDS ->
     exists ids,
       list_remove_first (res_id res) (all_ids st) = Some ids /\
       parse_response res st = Raises (KeyError c) (set_all_ids ids st)) /\
  (forall c,
     c ∈ COMMANDS ->
     Exists (unexpected st) (response_queue st) \/
     ~ NoDup (res_id <$> response_queue st) ->
     exists e st', get_response c st = Raises e st' /\ uncaught e).
Proof.
  intros Hwf. split_and!.
  - intros res Hnin. unfold parse_response.
    apply list_remove_first_None in Hnin. by rewrite Hnin.
  - intros res c Hin Hc Hinvalid.
    destruct (list_remove_first_is_Some _ _ Hin) as [ids Hids].
    exists ids. split; [done|].
    unfold parse_response. rewrite Hids, Hc. simpl.
    destruct (current_ids st !! c) as [cur|] eqn:Ecur; [|done].
    exfalso. apply Hinvalid. apply (wf_current _ _ Hwf). eauto.
  - intros c Hc Hdoom. unfold get_response.
    rewrite bool_decide_eq_true_2 by done. simpl.
    unfold bind, check_responses.
    destruct (check_responses_loop_doomed M _ st Hwf Hdoom) as (e & st' & -> & He).
    by eexists _, _.
Qed.

(** C10.  [ping], [update_file], [remove_file] and [request], when they
    return, have appended to [all_ids] one identifier that was not in it,
    and sent the one message stamped with it: a [Ping], a [Notification]
    or a [Request]; and they do return, given fuel up to a draw that is not
    outstanding.  A step that is not a call of [get_response] only
    extends [all_ids].  An identifier that is outstanding, with no response
    bearing it on the queue, stays in [all_ids] along every run in which
    the worker never answers with it; and along every run without
    observation [all_ids] only grows. *)
Theorem identifiers_accumulate st :
  (forall fuel st',
     ping randint fuel st = Returns tt st' ->
     exists id, (id ∉ all_ids st) /\ all_ids st' = all_ids st ++ [id] /\
                effects st' = effects st ++ [EvSend (Ping id)]) /\
  (forall fuel f d st',
     update_file randint fuel f d st = Returns tt st' ->
     exists id, (id ∉ all_ids st) /\ all_ids st' = all_ids st ++ [id] /\
                effects st' = effects st ++ [EvSend (Notification id false f d)]) /\
  (forall fuel f st',
     remove_file randint fuel f st = Returns tt st' ->
     exists id, (id ∉ all_ids st) /\ all_ids st' = all_ids st ++ [id] /\
                effects st' = effects st ++ [EvSend (Notification id true f "")]) /\
  (forall fuel c f kws w lang rg st',
     request randint fuel c f kws w lang rg st = Returns tt st' ->
     exists id, (id ∉ all_ids st) /\ all_ids st' = all_ids st ++ [id] /\
                effects st' = effects st ++ [EvSend (Request id c f kws w lang rg)]) /\
  (1 <= id_max st ->
   forall fuel k,
     (k <= fuel)%nat -> randint (draws st + k) ∉ all_ids st ->
     (exists st', ping randint fuel st = Returns tt st') /\
     (forall f d, exists st', update_file randint fuel f d st = Returns tt st') /\
     (forall f, f ∈ (files st).*1 ->
                exists st', remove_file randint fuel f st = Returns tt st')) /\
  (forall l st',
     no_observation l -> step randint l st st' ->
     exists ids, all_ids st' = all_ids st ++ ids) /\
  (forall id st',
     id ∈ all_ids st ->
     (forall res, res ∈ response_queue st -> res_id res <> id) ->
     run randint (unanswered id) st st' ->
     id ∈ all_ids st') /\
  (forall st',
     run randint no_observation st st' ->
     (length (all_ids st) <= length (all_ids st'))%nat /\
     forall id, id ∈ all_ids st -> id ∈ all_ids st').
Proof.
  split_and!.
  - intros fuel st'. rewrite ping_eq. intros H.
    apply sends_Returns in H as (n & Hn & -> & _). by eexists.
  - intros fuel f d st'. rewrite update_file_eq. intros H.
    apply sends_Returns in H as (n & Hn & -> & _). by eexists.
  - intros fuel f st'. rewrite remove_file_eq.
    destruct (dict_mem _ _); [|done]. intros H.
    apply sends_Returns in H as (n & Hn & -> & _). by eexists.
  - intros fuel c f kws w lang rg st' H.
    apply request_Returns in H as (_ & _ & n & Hn & ->). by eexists.
  - intros Hmax fuel k Hk Hfree. split_and!.
    + rewrite ping_eq. by eapply sends_enough_fuel.
    + intros f d. rewrite update_file_eq. by eapply sends_enough_fuel.
    + intros f Hf. rewrite remove_file_eq. unfold dict_mem.
      rewrite bool_decide_eq_true_2 by done. by eapply sends_enough_fuel.
  - intros l st' Hl Hstep.
    assert (grown_from st st') as (ids & Hids & _).
    { eapply step_closed; [apply grown_from_closed | exact Hl | exact Hstep |].
      exists []. by rewrite !app_nil_r. }
    by exists ids.
  - intros id st' Hin Hq Hrun.
    assert (pending id st') as [? _]; [|done].
    eapply run_closed; [apply pending_closed | exact Hrun | by split].
  - intros st' Hrun.
    assert (grown_from st st') as (ids & Hids & _).
    { eapply run_closed; [apply grown_from_closed | exact Hrun |].
      exists []. by rewrite !app_nil_r. }
    rewrite Hids, length_app. split; [lia|].
    intros id Hin. rewrite elem_of_app. by left.
Qed.

(** ** The mirror and the respawn *)

Lemma spawns_snoc es e :
  spawns (es ++ [e]) =
  (spawns es + match e with EvSpawn => 1 | _ => 0 end)%nat.
Proof.
  unfold spawns. rewrite omap_app, length_app. by destruct e.
Qed.

Lemma upserts_snoc es e :
  upserts (es ++ [e]) =
  upserts es ++ match e with
                | EvSend (Notification _ false f d) => [(f, d)]
                | _ => []
                end.
Proof.
  unfold upserts. rewrite omap_app. f_equal.
  destruct e as [| |[| |id [] f d]]; done.
Qed.

Lemma replay_Returns fuel items st st' :
  replay randint fuel items st = Returns tt st' ->
  upserts (effects st') = upserts (effects st) ++ items /\
  spawns (effects st') = spawns (effects st) /\
  server_alive st' = server_alive st /\
  files st' = foldl (fun d kv => dict_set kv.1 kv.2 d) (files st) items.
Proof.
  revert st. induction items as [|[f d] items IH]; intros st; simpl.
  - unfold modify. intros [= <-]. by rewrite app_nil_r.
  - unfold bind. rewrite update_file_eq.
    destruct (sends _ _ _ _ _ _) as [[] st1|e st1|] eqn:E; try done.
    intros H. apply IH in H as (Hup & Hsp & Halive & Hfiles).
    apply sends_Returns in E as (n & _ & -> & _). simpl in *.
    rewrite upserts_snoc in Hup. rewrite spawns_snoc in Hsp. simpl in *.
    rewrite <- app_assoc in Hup. split_and!; try done. lia.
Qed.

Lemma foldl_dict_set_fresh (d items : list (string * string)) :
  NoDup (d.*1 ++ items.*1) ->
  foldl (fun d kv => dict_set kv.1 kv.2 d) d items = d ++ items.
Proof.
  revert d. induction items as [|[k v] items IH]; intros d Hnd; simpl.
  - by rewrite app_nil_r.
  - csimpl in Hnd. rewrite dict_set_fresh.
    + rewrite IH; [by rewrite <- app_assoc|].
      rewrite fmap_app. csimpl. by rewrite <- app_assoc.
    + apply NoDup_app in Hnd as (_ & Hdisj & _).
      intros Hin. apply (Hdisj k Hin). left.
Qed.

(** [create_server] starts a worker and sends it every file of the mirror,
    which it leaves as it found it. *)
Lemma create_server_Returns fuel st st' :
  create_server randint fuel st = Returns tt st' ->
  server_alive st' = true /\
  spawns (effects st') = S (spawns (effects st)) /\
  upserts (effects st') = upserts (effects st) ++ files st /\
  (NoDup (files st).*1 -> files st' = files st).
Proof.
  unfold create_server, bind, modify. intros H.
  apply replay_Returns in H as (Hup & Hsp & Halive & Hfiles). simpl in *.
  rewrite upserts_snoc in Hup. rewrite spawns_snoc in Hsp. simpl in *.
  rewrite app_nil_r in Hup. split_and!; try done; [lia|].
  intros Hnd. rewrite Hfiles. by rewrite foldl_dict_set_fresh.
Qed.

Lemma dead_closed n : closed randint no_check_server (dead n).
Proof.
  split.
  - intros st k m fs [Halive Hsp] _ _. split; [done|].
    simpl. rewrite spawns_snoc. destruct m; simpl; lia.
  - intros st k c f kws w lang rg _ _ [Halive Hsp] _. split; [done|].
    simpl. rewrite spawns_snoc. simpl. lia.
  - by intros st fs [].
  - intros st [Halive Hsp]. split; [done|].
    simpl. rewrite spawns_snoc. simpl. lia.
  - intros st Hallowed. by exfalso.
  - by intros st c _ _ [].
  - intros st c st' _ Hdead H. apply get_response_final in H
      as [[_ ->]|(Hc & st1 & H1 & Hst')].
    + destruct Hdead as [Halive Hsp]. split; [done|].
      simpl. rewrite spawns_snoc. simpl. lia.
    + assert (dead n st1) as Hdead1.
      { revert H1. apply check_responses_preserves; [|done].
        intros res q s s' [Halive Hsp] _ Hparse.
        apply parse_response_frame in Hparse as (_ & _ & _ & Ha & He & _).
        split; simpl in *; congruence. }
      by destruct Hst' as [->| ->].
  - by intros st res _ [].
  - by intros st [].
Qed.

(** C3.  What [remove_file] does when it returns: the removal
    [Notification] is sent, and [files] is left as it was, the file still
    in it; a later [create_server] therefore sends the worker every file
    the mirror held before the removal, the removed one included. *)
Theorem remove_file_keeps_mirror fuel f st st' :
  remove_file randint fuel f st = Returns tt st' ->
  files st' = files st /\
  f ∈ (files st').*1 /\
  (exists id, effects st' = effects st ++ [EvSend (Notification id true f "")]) /\
  forall fuel' st'',
    check_server randint fuel' (set_server_alive false st') = Returns tt st'' ->
    upserts (effects st'') = upserts (effects st) ++ files st /\
    exists d, (f, d) ∈ files st.
Proof.
  rewrite remove_file_eq. unfold dict_mem. case_bool_decide as Hf; [|done].
  intros H. apply sends_Returns in H as (n & _ & -> & _). simpl.
  split_and!; try done; [by eexists|].
  intros fuel' st'' Hcheck. unfold check_server in Hcheck. simpl in Hcheck.
  apply create_server_Returns in Hcheck as (_ & _ & Hup & _). simpl in Hup.
  rewrite upserts_snoc in Hup. simpl in Hup. rewrite app_nil_r in Hup.
  split; [done|].
  apply list_elem_of_fmap in Hf as ([f' d] & -> & Hin). by exists d.
Qed.

(** C4.  What the entry points do when the worker is dead: along every
    run of calls of the public methods, no worker is started and the
    worker stays dead; [request] on a valid command and a known file sends
    its message all the same, and [cancel_request] and [get_response]
    return with no effect on the outside. *)
Theorem dead_worker_stays_dead st :
  server_alive st = false ->
  (forall st',
     run randint no_check_server st st' ->
     server_alive st' = false /\ spawns (effects st') = spawns (effects st)) /\
  (forall fuel c f kws w lang rg st',
     request randint fuel c f kws w lang rg st = Returns tt st' ->
     server_alive st' = false /\
     exists id, effects st' = effects st ++ [EvSend (Request id c f kws w lang rg)]) /\
  (forall fuel f st',
     remove_file randint fuel f st = Returns tt st' ->
     server_alive st' = false /\
     exists id, effects st' = effects st ++ [EvSend (Notification id true f "")]) /\
  (forall c st',
     cancel_request c st = Returns tt st' ->
     server_alive st' = false /\ effects st' = effects st) /\
  (forall c v st',
     get_response c st = Returns v st' ->
     server_alive st' = false /\ effects st' = effects st).
Proof.
  intros Hdead. split_and!.
  - intros st' Hrun.
    eapply (run_closed _ _ (dead (spawns (effects st)))); [apply dead_closed | exact Hrun |].
    by split.
  - intros fuel c f kws w lang rg st' H.
    apply request_Returns in H as (_ & _ & n & _ & ->). simpl.
    split; [done | by eexists].
  - intros fuel f st'. rewrite remove_file_eq.
    destruct (dict_mem _ _); [|done]. intros H.
    apply sends_Returns in H as (n & _ & -> & _). simpl.
    split; [done | by eexists].
  - intros c st'. unfold cancel_request.
    case_bool_decide; simpl; [|done]. by intros [= <-].
  - intros c v st' H.
    assert (final_state (get_response c st) = Some st') as Hfin by (by rewrite H).
    unfold get_response in H. case_bool_decide as Hc; simpl in H; [|done].
    apply get_response_final in Hfin as [[Hc' _]|(_ & st1 & H1 & Hst')]; [done|].
    assert (server_alive st1 = false /\ effects st1 = effects st) as [Ha He].
    { revert H1.
      apply (check_responses_preserves
               (fun s => server_alive s = false /\ effects s = effects st)); [|done].
      intros res q s s' [Ha He] _ Hparse.
      apply parse_response_frame in Hparse as (_ & _ & _ & Ha' & He' & _).
      simpl in *. split; congruence. }
    by destruct Hst' as [->| ->].
Qed.

End Supervision.

(** ** The facade beyond the claims *)

Section Facade.

Variable randint : nat -> Z.

(** *** What is handed out answers what was asked *)

Lemma sent_request_app id c es es' :
  sent_request id c es -> sent_request id c (es ++ es').
Proof.
  intros (f & kws & w & lang & rg & Hin). exists f, kws, w, lang, rg.
  rewrite elem_of_app. by left.
Qed.

Lemma sent_request_sent_ids id c es :
  sent_request id c es -> id ∈ sent_ids es.
Proof.
  intros (f & kws & w & lang & rg & Hin). unfold sent_ids.
  apply list_elem_of_omap. by eexists.
Qed.

Lemma correlated_grow M st st' e :
  correlated M st -> wf M st' ->
  all_ids st' = all_ids st -> current_ids st' = current_ids st ->
  newest_responses st' = newest_responses st ->
  effects st' = effects st ++ [e] -> sent_ids [e] = [] ->
  correlated M st'.
Proof.
  intros (_ & Hrg & Hids & Hcur & Hnew) Hwf' Ha Hc Hn He Hnone.
  assert (sent_ids (effects st') = sent_ids (effects st)) as Hsame.
  { rewrite He. unfold sent_ids in *. by rewrite omap_app, Hnone, app_nil_r. }
  split_and!; [done | | | |].
  - intros id. rewrite Hsame. apply Hrg.
  - intros id. rewrite Ha, Hsame. apply Hids.
  - intros c id. rewrite Hc, He. intros [->|H]%Hcur; [by left|].
    right. by apply sent_request_app.
  - intros c r. rewrite Hn, He. intros [Htag H]%Hnew.
    split; [done|]. by apply sent_request_app.
Qed.

Lemma correlated_parse_response M res st st' :
  correlated M st -> final_state (parse_response res st) = Some st' ->
  correlated M st'.
Proof.
  intros (Hwf & Hrg & Hids & Hcur & Hnew) Hparse.
  pose proof (wf_parse_response _ _ _ _ Hwf Hparse) as Hwf'.
  apply parse_response_final in Hparse
    as [[_ ->]|(ids & Hrm & [->|(c0 & Htag & Hlive & ->)])]; [done| |].
  - split_and!; try done. intros id Hid. apply Hids.
    by eapply list_remove_first_sub.
  - split_and!; [done | done | | |]; simpl.
    + intros id Hid. apply Hids. by eapply list_remove_first_sub.
    + intros c id. destruct (decide (c0 = c)) as [->|Hne].
      * rewrite lookup_insert_eq. intros [= <-]. by left.
      * rewrite lookup_insert_ne by done. apply Hcur.
    + intros c r. destruct (decide (c0 = c)) as [->|Hne].
      * rewrite lookup_insert_eq. intros [= <-]. split; [done|].
        destruct (Hcur _ _ Hlive) as [Hzero|Hsent]; [|done].
        exfalso.
        assert (res_id res ∈ all_ids st) as Hin.
        { destruct (list_remove_first_Some _ _ _ Hrm) as (l1 & l2 & -> & _).
          rewrite elem_of_app, elem_of_cons. tauto. }
        apply (wf_range _ _ Hwf) in Hin. lia.
      * rewrite lookup_insert_ne by done. apply Hnew.
Qed.

Lemma correlated_check_responses M st st' :
  correlated M st -> final_state (check_responses st) = Some st' ->
  correlated M st' /\ effects st' = effects st.
Proof.
  intros Hcor.
  apply (check_responses_preserves
           (fun s => correlated M s /\ effects s = effects st)); [|done].
  intros res q s s' [Hs He] _ Hparse. split.
  - eapply correlated_parse_response; [|exact Hparse].
    destruct Hs as (Hwf & ? & ? & ? & ?). split_and!; try done.
    by apply wf_set_response_queue.
  - apply parse_response_frame in Hparse as (_ & _ & _ & _ & -> & _). done.
Qed.

Lemma correlated_closed M :
  (forall n, 1 <= randint n <= M) -> closed randint any_label (correlated M).
Proof.
  intros Hrand. pose proof (wf_closed randint M Hrand) as HW. split.
  - intros st n m fs Hcor Hn Hid.
    pose proof Hcor as (Hwf & Hrg & Hids & Hcur & Hnew).
    assert (wf M (stamped st m (current_ids st) fs (S n))) as Hwf'
        by (by apply (cl_send _ _ _ HW)).
    split_and!; [done | | | |]; simpl.
    + intros id. rewrite sent_ids_snoc_send, elem_of_app, list_elem_of_singleton.
      intros [Hin| ->]; [by apply Hrg | rewrite Hid; apply Hrand].
    + intros id. rewrite sent_ids_snoc_send, !elem_of_app.
      intros [Hin|Hin]; [left; by apply Hids | by right].
    + intros c id [->|H]%Hcur; [by left | right; by apply sent_request_app].
    + intros c r [Htag H]%Hnew. split; [done | by apply sent_request_app].
  - intros st n c f kws w lang rg _ Hc Hcor Hn.
    pose proof Hcor as (Hwf & Hrg & Hids & Hcur & Hnew).
    assert (wf M (stamped st (Request (randint n) c f kws w lang rg)
                    (<[c := randint n]> (current_ids st)) (files st) (S n)))
      as Hwf' by (by apply (cl_request _ _ _ HW)).
    split_and!; [done | | | |]; simpl.
    + intros id. rewrite sent_ids_snoc_send, elem_of_app, list_elem_of_singleton.
      intros [Hin| ->]; [by apply Hrg | apply Hrand].
    + intros id. rewrite sent_ids_snoc_send, !elem_of_app.
      intros [Hin|Hin]; [left; by apply Hids | by right].
    + intros c' id. destruct (decide (c = c')) as [->|Hne].
      * rewrite lookup_insert_eq. intros [= <-]. right.
        exists f, kws, w, lang, rg. rewrite elem_of_app, list_elem_of_singleton.
        by right.
      * rewrite lookup_insert_ne by done.
        intros [->|H]%Hcur; [by left | right; by apply sent_request_app].
    + intros c' r [Htag H]%Hnew. split; [done | by apply sent_request_app].
  - intros st fs (Hwf & Hrg & Hids & Hcur & Hnew). split_and!; try done.
    by apply (cl_files _ _ _ HW).
  - intros st Hcor. eapply correlated_grow; try done.
    destruct Hcor as (Hwf & _). by apply (cl_kill _ _ _ HW).
  - intros st _ Hcor. eapply (correlated_grow M st _ EvSpawn); try done.
    destruct Hcor as (Hwf & _). by apply (cl_spawn _ _ _ HW).
  - intros st c _ Hc (Hwf & Hrg & Hids & Hcur & Hnew). split_and!; try done.
    + by apply (cl_cancel _ _ _ HW).
    + simpl. intros c' id. destruct (decide (c = c')) as [->|Hne].
      * rewrite lookup_insert_eq. intros [= <-]. by left.
      * rewrite lookup_insert_ne by done. apply Hcur.
  - intros st c st' _ Hcor H. pose proof H as H'.
    apply get_response_final in H as [[_ ->]|(Hc & st1 & H1 & Hst')].
    + eapply correlated_grow; try done.
      destruct Hcor as (Hwf & _). by apply (cl_kill _ _ _ HW).
    + destruct (correlated_check_responses _ _ _ Hcor H1)
        as [(Hwf1 & Hrg1 & Hids1 & Hcur1 & Hnew1) _].
      destruct Hst' as [->| ->]; [done|].
      split_and!; try done.
      * destruct Hcor as (Hwf & _). by apply (wf_get_response M c st _ Hwf H').
      * simpl. intros c' r. destruct (decide (c = c')) as [->|Hne].
        -- by rewrite lookup_insert_eq.
        -- rewrite lookup_insert_ne by done. apply Hnew1.
  - intros st res _ (Hwf & Hrg & Hids & Hcur & Hnew). split_and!; try done.
    by apply (cl_answer _ _ _ HW).
  - intros st (Hwf & Hrg & Hids & Hcur & Hnew). split_and!; try done.
    by apply (cl_dies _ _ _ HW).
Qed.

Lemma reachable_correlated M st :
  (forall n, 1 <= randint n <= M) -> reachable randint M st -> correlated M st.
Proof.
  intros Hrand (st0 & Hinit & Hrun).
  eapply run_closed; [by apply correlated_closed | exact Hrun |].
  rewrite init_eq in Hinit. injection Hinit as <-.
  pose proof (wf_fresh M) as Hwf.
  split_and!; simpl.
  - by destruct Hwf.
  - intros id Hid. by apply elem_of_nil in Hid.
  - intros id Hid. by apply elem_of_nil in Hid.
  - intros c id Hc. left. unfold COMMANDS in Hc. simpl in Hc.
    repeat (rewrite lookup_insert in Hc; case_decide; [congruence|]).
    by rewrite lookup_empty in Hc.
  - intros c r Hc. exfalso. unfold COMMANDS in Hc. simpl in Hc.
    repeat (rewrite lookup_insert in Hc; case_decide; [congruence|]).
    by rewrite lookup_empty in Hc.
Qed.

(** X1.  On every instance a program can hold, a response that
    [get_response] hands out for a command is tagged with that command and
    bears the identifier, in [1, id_max], of a [Request] for that command
    that was sent; and every outstanding identifier is the identifier of a
    message that was sent. *)
Theorem get_response_sound M st :
  (forall n, 1 <= randint n <= M) ->
  reachable randint M st ->
  (forall id, id ∈ all_ids st -> id ∈ sent_ids (effects st)) /\
  (forall c id, current_ids st !! c = Some id ->
                id = 0 \/ sent_request id c (effects st)) /\
  (forall c r st',
     get_response c st = Returns (Some r) st' ->
     res_command r = Some c /\ sent_request (res_id r) c (effects st) /\
     1 <= res_id r <= M).
Proof.
  intros Hrand Hreach.
  pose proof (reachable_correlated M st Hrand Hreach) as Hcor.
  pose proof Hcor as (Hwf & Hrg & Hids & Hcur & Hnew).
  split_and!; [done | done |].
  intros c r st' Hget. unfold get_response in Hget.
  case_bool_decide as Hc; simpl in Hget; [|done]. unfold bind in Hget.
  destruct (check_responses st) as [[] s|e s|] eqn:E; try done.
  assert (final_state (check_responses st) = Some s) as Hfin by (by rewrite E).
  destruct (correlated_check_responses _ _ _ Hcor Hfin)
    as [(Hwfs & Hrgs & Hidss & Hcurs & Hnews) Heff].
  destruct (newest_responses s !! c) as [slot|] eqn:Es; [|done].
  injection Hget as -> _.
  destruct (Hnews _ _ Es) as [Htag Hsent]. rewrite Heff in Hsent.
  split_and!; try done; apply Hrg; by eapply sent_request_sent_ids.
Qed.

(** *** A new instance *)

(** X2.  [IPC(id_max)] returns for every [id_max], without a draw: one
    worker is started and alive, nothing is sent, nothing is outstanding,
    the mirror is empty and every command of [COMMANDS], and nothing else,
    has current identifier 0 and an empty slot, so that [get_response]
    returns [None] for each of them.  With [id_max] below 1 the instance is
    built all the same, and its first [ping] raises [ValueError]. *)
Theorem new_instance M :
  exists st0,
    __init__ randint M = Returns tt st0 /\
    wf M st0 /\
    all_ids st0 = [] /\ files st0 = [] /\ response_queue st0 = [] /\
    server_alive st0 = true /\ effects st0 = [EvSpawn] /\
    (forall c, c ∈ COMMANDS ->
       current_ids st0 !! c = Some 0 /\
       exists st', get_response c st0 = Returns None st') /\
    (forall c, c ∉ COMMANDS ->
       current_ids st0 !! c = None /\ newest_responses st0 !! c = None) /\
    (M < 1 -> forall fuel, ping randint fuel st0 = Raises ValueError st0).
Proof.
  eexists. split; [apply init_eq|].
  pose proof (wf_fresh M) as Hwf.
  split_and!; try done.
  - by destruct Hwf.
  - intros c Hc. unfold COMMANDS in Hc.
    rewrite !elem_of_cons, elem_of_nil in Hc.
    destruct Hc as [->|[->|[->|[]]]]; (split; [reflexivity|]);
      eexists; reflexivity.
  - intros c Hc. simpl. split.
    + destruct (current_ids (fresh M) !! c) eqn:E; [|done].
      exfalso. apply Hc. apply (wf_current _ _ Hwf). eauto.
    + destruct (newest_responses (fresh M) !! c) eqn:E; [|done].
      exfalso. apply Hc. apply (wf_newest _ _ Hwf). eauto.
  - intros HM fuel. unfold ping, create_message, bind, new_id. simpl.
    by rewrite decide_True.
Qed.

(** *** Cancelling *)

(** X3.  [cancel_request] for a valid command returns having changed
    nothing but the current identifier of that command: nothing is sent to
    the worker, [all_ids] keeps the identifier of the cancelled request, and
    a second cancellation changes nothing more.  The identifier stays
    outstanding along every later run in which the worker does not answer
    with it. *)
Theorem cancel_request_local c st :
  c ∈ COMMANDS ->
  exists st',
    cancel_request c st = Returns tt st' /\
    all_ids st' = all_ids st /\ effects st' = effects st /\
    newest_responses st' = newest_responses st /\
    files st' = files st /\ response_queue st' = response_queue st /\
    server_alive st' = server_alive st /\
    (forall c', c' <> c -> current_ids st' !! c' = current_ids st !! c') /\
    cancel_request c st' = Returns tt st' /\
    (forall id st1,
       pending id st -> run randint (unanswered id) st' st1 ->
       id ∈ all_ids st1).
Proof.
  intros Hc. eexists. split.
  { unfold cancel_request. by rewrite bool_decide_eq_true_2. }
  split_and!; try done.
  - intros c' Hne. simpl. by rewrite lookup_insert_ne.
  - unfold cancel_request, modify. rewrite bool_decide_eq_true_2 by done. simpl.
    unfold set_current_ids. simpl. by rewrite insert_insert_eq.
  - intros id st1 Hp Hrun.
    assert (pending id st1) as [? _]; [|done].
    eapply run_closed; [apply pending_closed | exact Hrun | done].
Qed.

(** *** Misuse *)

Lemma parse_response_Raises_uncaught res st e st' :
  parse_response res st = Raises e st' -> uncaught e.
Proof.
  unfold parse_response. intros H.
  repeat case_match; simplify_eq; [right; by eexists | by left].
Qed.

Lemma check_responses_loop_Raises_uncaught q st e st' :
  check_responses_loop q st = Raises e st' -> uncaught e.
Proof.
  revert st. induction q as [|res q IH]; intros st; simpl; [done|].
  unfold bind, modify at 1.
  destruct (parse_response res (set_response_queue q st)) as [[] s|e0 s|] eqn:E.
  - apply IH.
  - intros [= <- <-]. by eapply parse_response_Raises_uncaught.
  - done.
Qed.

Lemma check_responses_Raises_uncaught st e st' :
  check_responses st = Raises e st' -> uncaught e.
Proof. apply check_responses_loop_Raises_uncaught. Qed.

(** X4.  [cancel_request] raises exactly when the command is not in
    [COMMANDS], [get_response] raises its invalid-command error exactly
    then (its other exceptions come from draining the queue), and
    [remove_file] raises its unknown-file error exactly when the file is not
    in [files].  On a misuse error [kill()] was called on the worker and
    nothing else of the instance changes: nothing is sent, no identifier is
    drawn, [get_response] has not drained the queue, and [is_alive()]
    answers as before the call. *)
Theorem misuse_errors st :
  (forall c,
     ((exists e st', cancel_request c st = Raises e st') <-> c ∉ COMMANDS) /\
     (c ∉ COMMANDS ->
      exists st', cancel_request c st = Raises (CannotCancel c) st' /\
                  only_killed st st')) /\
  (forall c,
     ((exists e st', get_response c st = Raises e st' /\ is_InvalidCommand e = true)
      <-> c ∉ COMMANDS) /\
     (c ∉ COMMANDS ->
      exists st', get_response c st = Raises (CannotGetResponse c) st' /\
                  only_killed st st')) /\
  (forall fuel f,
     ((exists e st', remove_file randint fuel f st = Raises e st' /\
                     is_UnknownFile e = true)
      <-> f ∉ (files st).*1) /\
     (f ∉ (files st).*1 ->
      exists st', remove_file randint fuel f st = Raises (CannotRemoveFile f) st' /\
                  only_killed st st')).
Proof.
  split_and!.
  - intros c. unfold cancel_request. case_bool_decide as Hc; simpl.
    + split; [|done]. split; [by intros (e & st' & ?) | done].
    + split; [split; [done | intros _; by eexists _, _]|].
      intros _. eexists. split; [done|]. by repeat split.
  - intros c. unfold get_response. case_bool_decide as Hc; simpl.
    + split; [|done]. split; [|done]. intros (e & st' & H & He).
      unfold bind in H.
      destruct (check_responses st) as [[] s|e0 s|] eqn:E; simpl in H.
      * destruct (newest_responses s !! c); [done|]. by injection H as <- _.
      * injection H as <- _.
        by destruct (check_responses_Raises_uncaught _ _ _ E) as [->|[k ->]].
      * done.
    + split; [split; [done | intros _; by eexists _, _]|].
      intros _. eexists. split; [done|]. by repeat split.
  - intros fuel f. rewrite remove_file_eq. unfold dict_mem.
    case_bool_decide as Hf.
    + split; [|done]. split; [|done]. intros (e & st' & H & He).
      by apply sends_Raises in H as (-> & _ & _).
    + split; [split; [done | intros _; by eexists _, _]|].
      intros _. eexists. split; [done|]. by repeat split.
Qed.

(** *** The mirror *)

Lemma dict_get_set_eq k v d : dict_get k (dict_set k v d) = Some v.
Proof.
  induction d as [|[k' v'] d IH]; simpl.
  - by rewrite decide_True.
  - destruct (decide (k = k')) as [->|Hne]; simpl.
    + by rewrite decide_True.
    + by rewrite decide_False.
Qed.

Lemma dict_get_set_ne k k' v d :
  k' <> k -> dict_get k' (dict_set k v d) = dict_get k' d.
Proof.
  intros Hne. induction d as [|[k0 v0] d IH]; simpl.
  - by rewrite decide_False.
  - destruct (decide (k = k0)) as [->|Hne0]; simpl.
    + by rewrite !decide_False.
    + destruct (decide (k' = k0)); [done | apply IH].
Qed.

Lemma dict_get_is_Some k d : is_Some (dict_get k d) <-> k ∈ d.*1.
Proof.
  induction d as [|[k' v'] d IH]; csimpl.
  - split; [by intros [? ?] | by intros ?%elem_of_nil].
  - rewrite elem_of_cons. destruct (decide (k = k')) as [->|Hne].
    + split; [by left | eauto].
    + rewrite IH. split; [by right | by intros [?|?]].
Qed.

Lemma dict_set_set k v1 v2 d : dict_set k v2 (dict_set k v1 d) = dict_set k v2 d.
Proof.
  induction d as [|[k' v'] d IH]; simpl.
  - by rewrite decide_True.
  - destruct (decide (k = k')) as [->|Hne]; simpl.
    + by rewrite decide_True.
    + rewrite decide_False by done. by rewrite IH.
Qed.

Lemma dict_set_NoDup k v d : NoDup d.*1 -> NoDup (dict_set k v d).*1.
Proof.
  intros H. rewrite dict_set_keys. case_bool_decide as E; [done|].
  apply NoDup_app. split_and!; [done | | apply NoDup_singleton].
  intros x Hx Hx'. apply list_elem_of_singleton in Hx' as ->. done.
Qed.

Lemma sends_files fuel st build cur fs st' :
  final_state (sends randint fuel st build cur fs) = Some st' ->
  files st' = fs /\ id_max st' = id_max st.
Proof.
  intros H.
  destruct (sends randint fuel st build cur fs) as [[] s|e s|] eqn:E; simpl in H.
  - injection H as <-. by apply sends_Returns in E as (n & _ & -> & _).
  - injection H as <-. by apply sends_Raises in E as (_ & -> & _).
  - done.
Qed.

(** X5.  [update_file] validates nothing: whenever it finishes, returning
    or raising, the mirror holds the new contents under the file name and
    every other file is as before; a name already in the mirror keeps its
    place and a new one goes last.  It raises only the [ValueError] of
    [randint] when [id_max] is below 1, having written the mirror and sent
    nothing.  Two updates of one file leave the mirror as the second alone
    would. *)
Theorem update_file_mirror fuel f d st :
  (forall st',
     final_state (update_file randint fuel f d st) = Some st' ->
     files st' = dict_set f d (files st) /\
     dict_get f (files st') = Some d /\
     (forall f', f' <> f -> dict_get f' (files st') = dict_get f' (files st)) /\
     (files st').*1 =
       (if bool_decide (f ∈ (files st).*1) then (files st).*1
        else (files st).*1 ++ [f])) /\
  (forall e st',
     update_file randint fuel f d st = Raises e st' ->
     e = ValueError /\ id_max st < 1 /\
     effects st' = effects st /\ all_ids st' = all_ids st) /\
  (forall fuel' d' st' st'',
     final_state (update_file randint fuel f d st) = Some st' ->
     final_state (update_file randint fuel' f d' st') = Some st'' ->
     files st'' = dict_set f d' (files st)).
Proof.
  split_and!.
  - intros st'. rewrite update_file_eq. intros [-> _]%sends_files.
    split_and!; [done | apply dict_get_set_eq | | apply dict_set_keys].
    intros f' Hne. by apply dict_get_set_ne.
  - intros e st'. rewrite update_file_eq.
    by intros (-> & -> & ?)%sends_Raises.
  - intros fuel' d' st' st''. rewrite !update_file_eq.
    intros [H1 _]%sends_files [H2 _]%sends_files.
    by rewrite H2, H1, dict_set_set.
Qed.

(** X6.  Once [update_file] has returned for a file, [request] for a
    valid command on that file and [remove_file] of that file pass their
    checks: they never raise, and they return given fuel up to a draw that
    is not outstanding.  Before, with the file not in the mirror, both
    raise their unknown-file error, having called [kill()] on the worker
    and done nothing else. *)
Theorem update_file_enables fuel f d st st' :
  update_file randint fuel f d st = Returns tt st' ->
  (forall fuel' c kws w lang rg,
     c ∈ COMMANDS ->
     (forall e st'', request randint fuel' c f kws w lang rg st' <> Raises e st'') /\
     (forall k, (k <= fuel')%nat -> randint (draws st' + k) ∉ all_ids st' ->
                exists st'', request randint fuel' c f kws w lang rg st'
                             = Returns tt st'')) /\
  (forall fuel',
     (forall e st'', remove_file randint fuel' f st' <> Raises e st'') /\
     (forall k, (k <= fuel')%nat -> randint (draws st' + k) ∉ all_ids st' ->
                exists st'', remove_file randint fuel' f st' = Returns tt st'')) /\
  (f ∉ (files st).*1 ->
   (forall fuel' c kws w lang rg,
      c ∈ COMMANDS ->
      exists st0,
        request randint fuel' c f kws w lang rg st
        = Raises (FileDoesNotExist f) st0 /\ only_killed st st0) /\
   (forall fuel',
      exists st0,
        remove_file randint fuel' f st = Raises (CannotRemoveFile f) st0 /\
        only_killed st st0)).
Proof.
  intros Hupd.
  assert (final_state (update_file randint fuel f d st) = Some st') as Hfin
      by (by rewrite Hupd).
  rewrite update_file_eq in Hupd, Hfin.
  apply sends_files in Hfin as [Hfiles Hmax].
  assert (1 <= id_max st') as Hpos.
  { rewrite Hmax. unfold sends in Hupd. case_decide; [done | lia]. }
  assert (dict_mem f (files st') = true) as Hmem.
  { unfold dict_mem. apply bool_decide_eq_true_2.
    apply dict_get_is_Some. rewrite Hfiles, dict_get_set_eq. eauto. }
  split_and!.
  - intros fuel' c kws w lang rg Hc. rewrite request_eq.
    rewrite bool_decide_eq_true_2, Hmem by done. split.
    + intros e st'' (_ & _ & ?)%sends_Raises. lia.
    + intros k Hk Hfree. by eapply sends_enough_fuel.
  - intros fuel'. rewrite remove_file_eq, Hmem. split.
    + intros e st'' (_ & _ & ?)%sends_Raises. lia.
    + intros k Hk Hfree. by eapply sends_enough_fuel.
  - intros Hnot. split.
    + intros fuel' c kws w lang rg Hc. rewrite request_eq.
      rewrite bool_decide_eq_true_2 by done. unfold dict_mem.
      rewrite bool_decide_eq_false_2 by done.
      eexists. split; [done|]. by repeat split.
    + intros fuel'. rewrite remove_file_eq. unfold dict_mem.
      rewrite bool_decide_eq_false_2 by done.
      eexists. split; [done|]. by repeat split.
Qed.

(** *** Respawning and the mirror *)

Lemma replay_Raises fuel items st e st' :
  replay randint fuel items st = Raises e st' -> id_max st < 1.
Proof.
  revert st. induction items as [|[f d] items IH]; intros st; simpl; [done|].
  unfold bind. rewrite update_file_eq.
  destruct (sends _ _ _ _ _ _) as [[] st1|e1 st1|] eqn:E; try done.
  - intros H%IH. by apply sends_Returns in E as (n & _ & -> & _).
  - intros _. by apply sends_Raises in E as (_ & _ & ?).
Qed.

Lemma replay_correlator fuel items st st' :
  replay randint fuel items st = Returns tt st' ->
  current_ids st' = current_ids st /\
  newest_responses st' = newest_responses st /\
  response_queue st' = response_queue st /\
  id_max st' = id_max st /\
  exists ids, all_ids st' = all_ids st ++ ids /\ length ids = length items.
Proof.
  revert st. induction items as [|[f d] items IH]; intros st; simpl.
  - unfold modify. intros [= <-]. split_and!; try done.
    exists []. by rewrite app_nil_r.
  - unfold bind. rewrite update_file_eq.
    destruct (sends _ _ _ _ _ _) as [[] st1|e st1|] eqn:E; try done.
    intros H. apply IH in H as (Hc & Hn & Hq & Hm & ids & Hids & Hlen).
    apply sends_Returns in E as (n & _ & -> & _). simpl in *.
    split_and!; try done.
    exists (randint n :: ids). rewrite Hids, <- app_assoc. simpl.
    split; [done | by rewrite Hlen].
Qed.

(** X7.  [check_server] does nothing while the worker is alive.  When the
    worker is dead and [check_server] returns, exactly one worker was
    started and is alive, every file of the mirror was sent to it as an
    upsert, in the order of the mirror, under one new identifier each, and
    the mirror is as before; the current identifiers, the buffered responses
    and the identifiers outstanding from the dead worker are all kept.  A
    second [check_server] then does nothing. *)
Theorem check_server_respawn fuel st :
  NoDup (files st).*1 ->
  (server_alive st = true -> check_server randint fuel st = Returns tt st) /\
  (server_alive st = false ->
   forall st',
     check_server randint fuel st = Returns tt st' ->
     server_alive st' = true /\
     spawns (effects st') = S (spawns (effects st)) /\
     upserts (effects st') = upserts (effects st) ++ files st /\
     files st' = files st /\
     current_ids st' = current_ids st /\
     newest_responses st' = newest_responses st /\
     response_queue st' = response_queue st /\
     (exists ids, all_ids st' = all_ids st ++ ids /\
                  length ids = length (files st)) /\
     forall fuel', check_server randint fuel' st' = Returns tt st').
Proof.
  intros Hnd. split.
  - intros Halive. unfold check_server. by rewrite Halive.
  - intros Hdead st' Hcheck. unfold check_server in Hcheck.
    rewrite Hdead in Hcheck. simpl in Hcheck.
    pose proof (create_server_Returns _ _ _ _ Hcheck) as (Ha & Hs & Hu & Hf).
    unfold create_server, bind, modify in Hcheck.
    apply replay_correlator in Hcheck as (Hc & Hn & Hq & _ & ids & Hids & Hlen).
    simpl in *. split_and!; try done; [by apply Hf | by exists ids |].
    intros fuel'. unfold check_server. by rewrite Ha.
Qed.

Lemma wf_length M st :
  wf M st -> 0 <= M -> Z.of_nat (length (all_ids st)) <= M.
Proof.
  intros [_ Hnd Hrg _ _] HM.
  assert (all_ids st ⊆+ seqZ 1 M) as Hsub.
  { apply NoDup_submseteq; [done|]. intros id Hid%Hrg.
    apply elem_of_seqZ. lia. }
  apply submseteq_length in Hsub. rewrite length_seqZ in Hsub. lia.
Qed.

(** With [id_max] below 1 no identifier can be drawn: respawning starts the
    worker, empties the mirror and raises [ValueError] in the replay of the
    first file, which is then the only one in the mirror; with an empty
    mirror it returns. *)
Lemma check_server_no_ids fuel st :
  id_max st < 1 -> server_alive st = false ->
  check_server randint fuel st =
  match files st with
  | [] => Returns tt (set_files [] (set_server_alive true (add_effect EvSpawn st)))
  | (f, d) :: _ =>
      Raises ValueError
             (set_files [(f, d)] (set_server_alive true (add_effect EvSpawn st)))
  end.
Proof.
  intros Hmax Hdead. unfold check_server. rewrite Hdead. simpl.
  unfold create_server, bind, modify.
  destruct (files st) as [|[f d] fs]; simpl; [done|].
  unfold update_file, create_message, bind, modify, new_id. simpl.
  by rewrite decide_True.
Qed.

(** X8.  With [randint] drawing in [1, id_max], on every instance a
    program can hold at most [id_max] identifiers are outstanding.
    Respawning takes one free identifier per file of the mirror on top of
    those still outstanding: when there are not that many, [check_server]
    on a dead worker never returns, it is still in the identifier loop of
    some [update_file] for every fuel.  With [id_max] below 1 there is no
    loop to stay in: [check_server] on a dead worker starts a worker and
    returns when the mirror is empty, and raises the [ValueError] of
    [randint], the new worker alive and nothing sent to it, when the mirror
    holds a file. *)
Theorem respawn_capacity M st :
  ((forall n, 1 <= randint n <= M) ->
   reachable randint M st ->
   Z.of_nat (length (all_ids st)) <= M /\
   (server_alive st = false ->
    M < Z.of_nat (length (all_ids st) + length (files st)) ->
    forall fuel, check_server randint fuel st = OutOfFuel)) /\
  (id_max st < 1 -> server_alive st = false ->
   forall fuel,
     exists st',
       (if decide (files st = []) then
          check_server randint fuel st = Returns tt st'
        else check_server randint fuel st = Raises ValueError st') /\
       server_alive st' = true /\
       effects st' = effects st ++ [EvSpawn] /\
       all_ids st' = all_ids st).
Proof.
  split; last first.
  { intros Hmax Hdead fuel. rewrite (check_server_no_ids fuel st Hmax Hdead).
    destruct (files st) as [|[f d] fs]; eexists; by case_decide. }
  intros Hrand Hreach. pose proof (Hrand 0%nat) as HM.
  pose proof (reachable_wf randint M st Hrand Hreach) as Hwf.
  split; [apply wf_length; [done | lia]|].
  intros Hdead Hmany fuel.
  destruct (check_server randint fuel st) as [[] st'|e st'|] eqn:E; [| |done].
  - exfalso.
    assert (wf M st') as Hwf'.
    { pose proof (wf_closed randint M Hrand) as HW.
      eapply (check_server_preserves randint (wf M)); [| | |exact Hwf|by rewrite E].
      - apply HW.
      - apply HW.
      - intros s. by apply (cl_spawn _ _ _ HW). }
    apply wf_length in Hwf'; [|lia].
    unfold check_server in E. rewrite Hdead in E. simpl in E.
    unfold create_server, bind, modify in E.
    apply replay_correlator in E as (_ & _ & _ & _ & ids & Hids & Hlen).
    simpl in *. rewrite Hids, length_app, Hlen in Hwf'. lia.
  - exfalso. unfold check_server in E. rewrite Hdead in E. simpl in E.
    unfold create_server, bind, modify in E.
    apply replay_Raises in E. simpl in E.
    rewrite (wf_id_max _ _ Hwf) in E. lia.
Qed.

Lemma after_call_files fuel c st st' :
  1 <= id_max st -> NoDup (files st).*1 ->
  after_call randint fuel c st = Some st' ->
  id_max st' = id_max st /\
  files st' = match c with
              | Call_update_file f d => dict_set f d (files st)
              | _ => files st
              end.
Proof.
  intros Hmax Hnd Hc. destruct c; simpl in Hc.
  - rewrite ping_eq in Hc. by apply sends_files in Hc as [-> ->].
  - rewrite request_eq in Hc.
    repeat case_match; [by apply sends_files in Hc as [-> ->] | |];
      by injection Hc as <-.
  - unfold cancel_request in Hc. case_bool_decide; by injection Hc as <-.
  - apply get_response_final in Hc as [[_ ->]|(_ & st1 & H1 & Hst')]; [done|].
    assert (id_max st1 = id_max st /\ files st1 = files st) as [Hm Hf].
    { revert H1.
      apply (check_responses_preserves
               (fun s => id_max s = id_max st /\ files s = files st)); [|done].
      intros res q s s' [Hm Hf] _ Hp.
      apply parse_response_frame in Hp as (-> & -> & _). done. }
    by destruct Hst' as [->| ->].
  - rewrite update_file_eq in Hc. by apply sends_files in Hc as [-> ->].
  - rewrite remove_file_eq in Hc.
    case_match; [by apply sends_files in Hc as [-> ->] | by injection Hc as <-].
  - by injection Hc as <-.
  - unfold check_server in Hc. destruct (server_alive st) eqn:Ha; simpl in Hc.
    { by injection Hc as <-. }
    destruct (create_server randint fuel st) as [[] s|e s|] eqn:E; simpl in Hc;
      [| |done].
    + injection Hc as <-.
      pose proof (create_server_Returns _ _ _ _ E) as (_ & _ & _ & Hf).
      unfold create_server, bind, modify in E.
      apply replay_correlator in E as (_ & _ & _ & Hm & _).
      split; [done | by apply Hf].
    + unfold create_server, bind, modify in E. apply replay_Raises in E.
      simpl in E. lia.
Qed.

(** X9.  From a well-formed instance, with [randint] drawing in
    [1, id_max], the mirror changes only through [update_file]: along every
    run, whatever the worker does and however often it is respawned, a file
    keeps its contents as long as [update_file] is not called for it, no
    file ever leaves the mirror, and without any [update_file] the mirror
    is as it was.  With [id_max] below 1 this fails: [check_server] on a
    dead worker leaves the first file of the mirror only, every other file
    is gone without any call on it. *)
Theorem mirror_persists M st st1 :
  wf M st -> NoDup (files st).*1 ->
  ((forall n, 1 <= randint n <= M) ->
   (run randint any_label st st1 ->
    NoDup (files st1).*1 /\
    forall f, f ∈ (files st).*1 -> f ∈ (files st1).*1) /\
   (forall f, run randint (no_update f) st st1 ->
              dict_get f (files st1) = dict_get f (files st)) /\
   (run randint (fun l => forall f, no_update f l) st st1 ->
    files st1 = files st)) /\
  (M < 1 -> server_alive st = false ->
   forall fuel, exists st',
     final_state (check_server randint fuel st) = Some st' /\
     step randint (Calls Call_check_server) st st' /\
     files st' = take 1 (files st) /\
     forall f, f ∈ (files st).*1 -> f ∈ (files st').*1 ->
               (files st).*1 !! 0%nat = Some f).
Proof.
  intros Hwf Hnd. split; last first.
  { intros HM Hdead fuel.
    assert (id_max st < 1) as Hmax by (by rewrite (wf_id_max _ _ Hwf)).
    pose proof (check_server_no_ids fuel st Hmax Hdead) as Hcheck.
    destruct (files st) as [|[f d] fs] eqn:Hfiles; eexists;
      (split; [by rewrite Hcheck|]);
      (split; [apply (step_call randint fuel); simpl; by rewrite Hcheck|]);
      (split; [done|]); simpl.
    - by intros f' ?%elem_of_nil.
    - by intros f' _ ->%list_elem_of_singleton. }
  intros Hrand. pose proof (Hrand 0%nat) as HM.
  pose proof (wf_closed randint M Hrand) as HW.
  assert (forall l s s',
            wf M s -> NoDup (files s).*1 -> step randint l s s' ->
            wf M s' /\ NoDup (files s').*1 /\
            (files s' = files s \/
             exists f d, l = Calls (Call_update_file f d) /\
                         files s' = dict_set f d (files s))) as Hstep.
  { intros l s s' Hwfs Hnds Hst.
    assert (wf M s') as Hwfs' by (by eapply (step_closed randint any_label)).
    split; [done|]. destruct Hst as [fuel c s s' Hc|res s|s]; [|by auto|by auto].
    apply after_call_files in Hc as [_ Hf]; [|by rewrite (wf_id_max _ _ Hwfs); lia|done].
    destruct c; rewrite Hf; try by auto.
    split; [by apply dict_set_NoDup | right; by eexists _, _]. }
  split_and!.
  - intros Hrun. revert Hwf Hnd.
    induction Hrun as [s|s s1 s2 (l & _ & Hst) _ IH]; intros Hwf Hnd; [done|].
    destruct (Hstep _ _ _ Hwf Hnd Hst) as (Hwf1 & Hnd1 & Hfiles).
    destruct (IH Hwf1 Hnd1) as [Hnd2 Hkeep]. split; [done|].
    intros f Hf. apply Hkeep.
    destruct Hfiles as [->|(f' & d & _ & ->)]; [done|].
    rewrite dict_set_keys. case_bool_decide; [done|].
    rewrite elem_of_app. by left.
  - intros f Hrun. revert Hwf Hnd.
    induction Hrun as [s|s s1 s2 (l & Hl & Hst) _ IH]; intros Hwf Hnd; [done|].
    destruct (Hstep _ _ _ Hwf Hnd Hst) as (Hwf1 & Hnd1 & Hfiles).
    rewrite (IH Hwf1 Hnd1).
    destruct Hfiles as [->|(f' & d & -> & ->)]; [done|].
    apply dict_get_set_ne. intros ->. by eapply Hl.
  - intros Hrun. revert Hwf Hnd.
    induction Hrun as [s|s s1 s2 (l & Hl & Hst) _ IH]; intros Hwf Hnd; [done|].
    destruct (Hstep _ _ _ Hwf Hnd Hst) as (Hwf1 & Hnd1 & Hfiles).
    rewrite (IH Hwf1 Hnd1).
    destruct Hfiles as [->|(f' & d & -> & ->)]; [done|].
    exfalso. by eapply (Hl f').
Qed.

(** *** Draining the queue *)

Lemma list_remove_first_Permutation x l l' :
  list_remove_first x l = Some l' -> l ≡ₚ x :: l'.
Proof.
  intros (l1 & l2 & -> & -> & _)%list_remove_first_Some.
  by rewrite Permutation_middle.
Qed.

Lemma parse_response_Returns_ids res st st' :
  parse_response res st = Returns tt st' ->
  all_ids st ≡ₚ res_id res :: all_ids st'.
Proof.
  intros H.
  assert (final_state (parse_response res st) = Some st') as Hfin by (by rewrite H).
  apply parse_response_final in Hfin as [[Hnin _]|(ids & Hids & Hst')].
  - unfold parse_response in H. apply list_remove_first_None in Hnin.
    by rewrite Hnin in H.
  - apply list_remove_first_Permutation in Hids.
    by destruct Hst' as [->|(c & _ & _ & ->)].
Qed.

Lemma check_responses_loop_Returns q st st' :
  response_queue st = q ->
  check_responses_loop q st = Returns tt st' ->
  response_queue st' = [] /\
  all_ids st ≡ₚ (res_id <$> q) ++ all_ids st' /\
  effects st' = effects st /\ files st' = files st.
Proof.
  revert st. induction q as [|res q IH]; intros st Hq; simpl.
  - unfold modify. by intros [= <-].
  - unfold bind, modify at 1.
    destruct (parse_response res (set_response_queue q st)) as [[] s|e s|] eqn:E;
      try done.
    intros H. pose proof (parse_response_Returns_ids _ _ _ E) as Hperm.
    assert (final_state (parse_response res (set_response_queue q st)) = Some s)
      as Hf by (by rewrite E).
    apply parse_response_frame in Hf as (_ & Hfs & Hqs & _ & Hes & _).
    simpl in Hfs, Hes.
    apply IH in H as (Hnil & Hids & He & Hfiles); [|done].
    split_and!; [done | | congruence | congruence].
    simpl in Hperm. rewrite Hperm, Hids. done.
Qed.

Lemma check_responses_loop_Raises q st e st' :
  response_queue st = q ->
  check_responses_loop q st = Raises e st' ->
  exists taken bad s,
    q = taken ++ bad :: response_queue st' /\
    parse_response bad s = Raises e st' /\
    all_ids st ≡ₚ (res_id <$> taken) ++ all_ids s.
Proof.
  revert st. induction q as [|res q IH]; intros st Hq; simpl; [done|].
  unfold bind, modify at 1.
  destruct (parse_response res (set_response_queue q st)) as [[] s|e0 s|] eqn:E.
  - intros H. pose proof (parse_response_Returns_ids _ _ _ E) as Hperm.
    assert (final_state (parse_response res (set_response_queue q st)) = Some s)
      as Hf by (by rewrite E).
    apply parse_response_frame in Hf as (_ & _ & Hqs & _).
    apply IH in H as (taken & bad & s0 & Hsplit & Hbad & Hids); [|done].
    exists (res :: taken), bad, s0. split_and!; [by rewrite Hsplit | done |].
    simpl in Hperm. rewrite Hperm, Hids. done.
  - intros [= <- <-]. exists [], res, (set_response_queue q st).
    assert (final_state (parse_response res (set_response_queue q st)) = Some s)
      as Hf by (by rewrite E).
    apply parse_response_frame in Hf as (_ & _ & -> & _).
    split_and!; done.
  - done.
Qed.

(** X10.  [check_responses] never stays in its loop.  When it returns
    the queue is empty, and [all_ids] has lost exactly the identifiers of the
    responses that were on it.  When it raises, the response that made
    [parse_response] raise is off the queue as are those before it, whose
    identifiers were removed; those behind it are still on the queue.
    [get_response] for a valid command that raises therefore leaves a
    strictly shorter queue, unless it raised [KeyError] on the slot, the
    queue drained. *)
Theorem check_responses_consumes st :
  check_responses st <> OutOfFuel /\
  (forall st',
     check_responses st = Returns tt st' ->
     response_queue st' = [] /\
     all_ids st ≡ₚ (res_id <$> response_queue st) ++ all_ids st' /\
     effects st' = effects st /\ files st' = files st) /\
  (forall e st',
     check_responses st = Raises e st' ->
     uncaught e /\
     exists taken bad s,
       response_queue st = taken ++ bad :: response_queue st' /\
       parse_response bad s = Raises e st' /\
       all_ids st ≡ₚ (res_id <$> taken) ++ all_ids s) /\
  (forall c e st',
     c ∈ COMMANDS -> get_response c st = Raises e st' ->
     (length (response_queue st') < length (response_queue st))%nat \/
     (e = KeyError c /\ response_queue st' = [])).
Proof.
  split_and!.
  - intros H. pose proof (check_responses_total st) as [s Hs].
    by rewrite H in Hs.
  - intros st'. by apply check_responses_loop_Returns.
  - intros e st' H. split; [by eapply check_responses_Raises_uncaught|].
    by apply check_responses_loop_Raises.
  - intros c e st' Hc H. unfold get_response in H.
    rewrite bool_decide_eq_true_2 in H by done. simpl in H. unfold bind in H.
    destruct (check_responses st) as [[] s|e0 s|] eqn:E; [| |done].
    + destruct (newest_responses s !! c) eqn:Es; [done|].
      injection H as <- <-. right. split; [done|].
      by apply check_responses_loop_Returns in E as (Hnil & _).
    + injection H as <- <-. left.
      apply check_responses_loop_Raises in E as (taken & bad & s0 & -> & _); [|done].
      rewrite length_app. simpl. lia.
Qed.

Lemma parse_response_expected M res st :
  wf M st -> expected st res ->
  exists st', parse_response res st = Returns tt st'.
Proof.
  intros Hwf [Hin Htag].
  destruct (list_remove_first_is_Some _ _ Hin) as [ids Hids].
  unfold parse_response. rewrite Hids. simpl.
  destruct (res_command res) as [c|]; [|by eexists].
  assert (is_Some (current_ids st !! c)) as [cur Hcur].
  { apply (wf_current _ _ Hwf). by apply Htag. }
  rewrite Hcur. simpl. case_bool_decide; by eexists.
Qed.

Lemma check_responses_loop_expected M q st :
  wf M st ->
  Forall (expected st) q -> NoDup (res_id <$> q) ->
  exists st', check_responses_loop q st = Returns tt st' /\ wf M st'.
Proof.
  revert st. induction q as [|res q IH]; intros st Hwf Hall Hnd; simpl.
  - unfold modify. by eexists.
  - apply Forall_cons in Hall as [Hres Hall].
    rewrite fmap_cons in Hnd. apply NoDup_cons in Hnd as [Hhd Hnd].
    unfold bind, modify at 1.
    assert (wf M (set_response_queue q st)) as Hwfq
        by (by apply wf_set_response_queue).
    destruct (parse_response_expected M res (set_response_queue q st) Hwfq Hres)
      as [s Hs].
    rewrite Hs.
    assert (final_state (parse_response res (set_response_queue q st)) = Some s)
      as Hfin by (by rewrite Hs).
    apply IH; [by eapply wf_parse_response | | done].
    apply Forall_forall. intros r Hr.
    rewrite Forall_forall in Hall. destruct (Hall r Hr) as [Hin Htag].
    split; [|done].
    assert (res_id r <> res_id res) as Hne.
    { intros Heq. apply Hhd. rewrite <- Heq. apply list_elem_of_fmap. by exists r. }
    apply parse_response_final in Hfin
      as [[_ ->]|(ids & Hids & Hst')]; [done|].
    assert (res_id r ∈ ids) as Hin' by (by eapply list_remove_first_other).
    by destruct Hst' as [->|(c0 & _ & _ & ->)].
Qed.

Lemma expected_or_unexpected st res : expected st res \/ unexpected st res.
Proof.
  unfold expected, unexpected.
  destruct (decide (res_id res ∈ all_ids st)) as [Hin|Hnin]; [|right; by left].
  destruct (res_command res) as [c|]; [|left; by split].
  destruct (decide (c ∈ COMMANDS)) as [Hc|Hc].
  - left. split; [done|]. by intros c' [= <-].
  - right. right. by exists c.
Qed.

Lemma expected_not_unexpected st res : expected st res -> ~ unexpected st res.
Proof.
  intros [Hin Htag] [Hnin|(c & Hc & Hinvalid)]; [done|]. by apply Hinvalid, Htag.
Qed.

Lemma expected_all_or_unexpected st q :
  Forall (expected st) q \/ Exists (unexpected st) q.
Proof.
  induction q as [|res q [IH|IH]]; [by left | |].
  - destruct (expected_or_unexpected st res) as [H|H].
    + left. by constructor.
    + right. by left.
  - right. by right.
Qed.

(** X11.  On a well-formed instance [get_response] for a valid command
    returns exactly when every response on the queue bears an outstanding
    identifier and a command tag of [COMMANDS], if any, and no two of them
    bear the same identifier; otherwise it raises. *)
Theorem get_response_returns_iff M c st :
  wf M st -> c ∈ COMMANDS ->
  ((exists v st', get_response c st = Returns v st') <->
   Forall (expected st) (response_queue st) /\
   NoDup (res_id <$> response_queue st)) /\
  ((exists e st', get_response c st = Raises e st') <->
   ~ (Forall (expected st) (response_queue st) /\
      NoDup (res_id <$> response_queue st))).
Proof.
  intros Hwf Hc.
  assert (Forall (expected st) (response_queue st) /\
          NoDup (res_id <$> response_queue st) ->
          exists v st', get_response c st = Returns v st') as Hgood.
  { intros [Hall Hnd].
    destruct (check_responses_loop_expected M _ st Hwf Hall Hnd) as (s & Hs & Hwfs).
    unfold get_response. rewrite bool_decide_eq_true_2 by done. simpl.
    unfold bind, check_responses. rewrite Hs.
    assert (is_Some (newest_responses s !! c)) as [slot Hslot]
        by (by apply (wf_newest _ _ Hwfs)).
    rewrite Hslot. by eexists _, _. }
  assert (~ (Forall (expected st) (response_queue st) /\
             NoDup (res_id <$> response_queue st)) ->
          exists e st', get_response c st = Raises e st') as Hbad.
  { intros Hnot.
    assert (Exists (unexpected st) (response_queue st) \/
            ~ NoDup (res_id <$> response_queue st)) as Hdoom.
    { destruct (decide (NoDup (res_id <$> response_queue st))) as [Hnd|Hnd];
        [|by right].
      destruct (expected_all_or_unexpected st (response_queue st)) as [Hall|Hex];
        [|by left].
      exfalso. by apply Hnot. }
    unfold get_response. rewrite bool_decide_eq_true_2 by done. simpl.
    unfold bind, check_responses.
    destruct (check_responses_loop_doomed M _ st Hwf Hdoom) as (e & st' & -> & _).
    by eexists _, _. }
  split.
  - split; [|done]. intros (v & st' & Hret).
    destruct (decide (NoDup (res_id <$> response_queue st))) as [Hnd|Hnd].
    + destruct (expected_all_or_unexpected st (response_queue st)) as [Hall|Hex];
        [done|].
      exfalso. destruct Hbad as (e & s & He); [|congruence].
      intros [Hall _]. apply Exists_exists in Hex as (r & Hr & Hun).
      rewrite Forall_forall in Hall.
      by apply (expected_not_unexpected st r (Hall r Hr)).
    + exfalso. destruct Hbad as (e & s & He); [|congruence]. by intros [_ ?].
  - split; [|done]. intros (e & st' & Hraise) Hok.
    destruct (Hgood Hok) as (v & s & Hret). congruence.
Qed.

(** *** Two commands at once *)

Lemma parse_response_other_slot res st st' c :
  final_state (parse_response res st) = Some st' ->
  res_command res <> Some c ->
  newest_responses st' !! c = newest_responses st !! c /\
  current_ids st' !! c = current_ids st !! c.
Proof.
  intros H Htag. apply parse_response_final in H
    as [[_ ->]|(ids & _ & [->|(c0 & Hc0 & _ & ->)])]; try done.
  assert (c0 <> c) as Hne by congruence.
  simpl. by rewrite !lookup_insert_ne.
Qed.

Lemma get_response_of_drain c st s v :
  c ∈ COMMANDS -> check_responses st = Returns tt s ->
  newest_responses s !! c = Some v ->
  get_response c st =
  Returns v (set_newest_responses (<[c := None]> (newest_responses s)) s).
Proof.
  intros Hc Hdrain Hv. unfold get_response.
  rewrite bool_decide_eq_true_2 by done. simpl. unfold bind.
  by rewrite Hdrain, Hv.
Qed.

Lemma drain_pair M ida ca ra idb cb rb st :
  live M ida ca st -> live M idb cb st -> ca <> cb -> ida <> idb ->
  res_id ra = ida -> res_command ra = Some ca ->
  res_id rb = idb -> res_command rb = Some cb ->
  response_queue st = [ra; rb] ->
  exists s,
    check_responses st = Returns tt s /\ wf M s /\
    newest_responses s !! ca = Some (Some ra) /\
    newest_responses s !! cb = Some (Some rb) /\
    response_queue s = [].
Proof.
  intros Ha Hb Hc Hid Hida Htaga Hidb Htagb Hq.
  unfold check_responses. rewrite Hq. simpl. unfold bind, modify.
  destruct (live_parse_answer M ida ca ra (set_response_queue [rb] st)
              (live_set_response_queue _ _ _ _ _ Ha) Hida Htaga)
    as (s1 & Hs1 & Hwf1 & Hcur1 & Hslot1 & Hq1).
  rewrite Hs1.
  assert (final_state (parse_response ra (set_response_queue [rb] st)) = Some s1)
    as Hfin1 by (by rewrite Hs1).
  assert (live M idb cb s1) as Hb1.
  { eapply live_parse_other; [|  |exact Hfin1].
    - by apply live_set_response_queue.
    - congruence. }
  destruct (live_parse_answer M idb cb rb (set_response_queue [] s1)
              (live_set_response_queue _ _ _ _ _ Hb1) Hidb Htagb)
    as (s2 & Hs2 & Hwf2 & Hcur2 & Hslot2 & Hq2).
  rewrite Hs2. exists s2. split_and!; try done.
  assert (final_state (parse_response rb (set_response_queue [] s1)) = Some s2)
    as Hfin2 by (by rewrite Hs2).
  destruct (parse_response_other_slot _ _ _ ca Hfin2) as [-> _]; [congruence|].
  done.
Qed.

Lemma take_both ca ra cb rb st s :
  ca <> cb -> ca ∈ COMMANDS -> cb ∈ COMMANDS ->
  check_responses st = Returns tt s ->
  newest_responses s !! ca = Some (Some ra) ->
  newest_responses s !! cb = Some (Some rb) ->
  response_queue s = [] ->
  exists s3 s4,
    get_response ca st = Returns (Some ra) s3 /\
    get_response cb s3 = Returns (Some rb) s4.
Proof.
  intros Hne Hca Hcb Hdrain Ha Hb Hq.
  eexists _, _. split; [by apply get_response_of_drain|].
  apply get_response_of_drain; [done | |].
  - unfold check_responses. simpl. by rewrite Hq.
  - simpl. by rewrite lookup_insert_ne.
Qed.

(** X12.  Requests for two different commands do not disturb each
    other: whichever of the two answers arrives first, and whichever
    command is asked first, [get_response] hands out to each command the
    answer to its own request. *)
Theorem independent_commands M c1 f1 kws1 w1 lang1 rg1 c2 f2 kws2 w2 lang2 rg2
    fuel1 fuel2 st0 st1 st2 :
  (forall n, 1 <= randint n <= M) ->
  wf M st0 ->
  response_queue st0 = [] ->
  newest_responses st0 !! c1 = Some None ->
  newest_responses st0 !! c2 = Some None ->
  c1 <> c2 ->
  request randint fuel1 c1 f1 kws1 w1 lang1 rg1 st0 = Returns tt st1 ->
  request randint fuel2 c2 f2 kws2 w2 lang2 rg2 st1 = Returns tt st2 ->
  exists id1 id2,
    current_ids st2 !! c1 = Some id1 /\ current_ids st2 !! c2 = Some id2 /\
    id1 <> id2 /\
    forall r1 r2 st,
      res_id r1 = id1 -> res_command r1 = Some c1 ->
      res_id r2 = id2 -> res_command r2 = Some c2 ->
      st = worker_answers r2 (worker_answers r1 st2) \/
      st = worker_answers r1 (worker_answers r2 st2) ->
      (exists s3 s4,
         get_response c1 st = Returns (Some r1) s3 /\
         get_response c2 s3 = Returns (Some r2) s4) /\
      (exists s3 s4,
         get_response c2 st = Returns (Some r2) s3 /\
         get_response c1 s3 = Returns (Some r1) s4).
Proof.
  intros Hrand Hwf0 Hq0 Hs1 Hs2 Hne Hreq1 Hreq2.
  apply request_Returns in Hreq1 as (Hc1 & _ & n1 & Hn1 & ->).
  apply request_Returns in Hreq2 as (Hc2 & _ & n2 & Hn2 & ->).
  simpl in Hn2.
  pose proof (wf_closed randint M Hrand) as HW.
  pose proof (cl_request _ _ _ HW st0 n1 c1 f1 kws1 w1 lang1 rg1 I Hc1 Hwf0 Hn1)
    as Hwf1.
  pose proof (cl_request _ _ _ HW _ n2 c2 f2 kws2 w2 lang2 rg2 I Hc2 Hwf1 Hn2)
    as Hwf2.
  set (st2 := stamped (stamped st0 _ _ _ _) _ _ _ _) in *.
  assert (randint n1 <> randint n2) as Hid.
  { intros Heq. apply Hn2. rewrite elem_of_app, list_elem_of_singleton. by right. }
  assert (forall q, live M (randint n1) c1 (set_response_queue q st2)) as Hlive1.
  { intros q. apply live_set_response_queue. split_and!; [done | | |done].
    - simpl. rewrite !elem_of_app, !list_elem_of_singleton. left. by right.
    - simpl. rewrite lookup_insert_ne by done. by rewrite lookup_insert_eq. }
  assert (forall q, live M (randint n2) c2 (set_response_queue q st2)) as Hlive2.
  { intros q. apply live_set_response_queue. split_and!; [done | | |done].
    - simpl. rewrite !elem_of_app, !list_elem_of_singleton. by right.
    - simpl. by rewrite lookup_insert_eq. }
  exists (randint n1), (randint n2).
  split_and!; [| |done|].
  { simpl. rewrite lookup_insert_ne by done. by rewrite lookup_insert_eq. }
  { simpl. by rewrite lookup_insert_eq. }
  intros r1 r2 st Hid1 Htag1 Hid2 Htag2 [-> | ->].
  - destruct (drain_pair M _ c1 r1 _ c2 r2 (set_response_queue [r1; r2] st2)
                (Hlive1 _) (Hlive2 _) Hne Hid Hid1 Htag1 Hid2 Htag2 eq_refl)
      as (s & Hdrain & _ & Ha & Hb & Hq).
    assert (worker_answers r2 (worker_answers r1 st2)
            = set_response_queue [r1; r2] st2) as ->.
    { unfold worker_answers. simpl. by rewrite Hq0. }
    split; [by eapply (take_both c1 r1 c2 r2) |
            by eapply (take_both c2 r2 c1 r1)].
  - destruct (drain_pair M _ c2 r2 _ c1 r1 (set_response_queue [r2; r1] st2)
                (Hlive2 _) (Hlive1 _) (not_eq_sym Hne) (not_eq_sym Hid)
                Hid2 Htag2 Hid1 Htag1 eq_refl)
      as (s & Hdrain & _ & Hb & Ha & Hq).
    assert (worker_answers r1 (worker_answers r2 st2)
            = set_response_queue [r2; r1] st2) as ->.
    { unfold worker_answers. simpl. by rewrite Hq0. }
    split; [by eapply (take_both c1 r1 c2 r2) |
            by eapply (take_both c2 r2 c1 r1)].
Qed.

(** *** The one-response buffer *)

(** X13.  [request] leaves the buffered responses and the queue as they
    are: a response that was buffered for the command before the new
    request, an answer to an earlier request, is what the next
    [get_response] hands out when nothing new has arrived. *)
Theorem request_keeps_buffer fuel c f kws w lang rg st st' :
  request randint fuel c f kws w lang rg st = Returns tt st' ->
  newest_responses st' = newest_responses st /\
  response_queue st' = response_queue st /\
  forall old,
    response_queue st = [] -> newest_responses st !! c = Some old ->
    get_response c st' =
    Returns old (set_newest_responses (<[c := None]> (newest_responses st')) st').
Proof.
  intros (Hc & _ & n & _ & ->)%request_Returns. split_and!; try done.
  intros old Hq Hold. apply get_response_of_drain; [done | |done].
  unfold check_responses. simpl. by rewrite Hq.
Qed.

(** X14.  A response that arrives for the live identifier of a command
    is handed out by the next [get_response] whatever the slot of the
    command held: a response buffered there and not yet taken is dropped and
    never handed out.  Afterwards the command is idle and its slot empty. *)
Theorem unread_response_overwritten M c id res st :
  wf M st ->
  id ∈ all_ids st -> current_ids st !! c = Some id ->
  response_queue st = [] ->
  res_id res = id -> res_command res = Some c ->
  exists st',
    get_response c (worker_answers res st) = Returns (Some res) st' /\
    newest_responses st' !! c = Some None /\
    current_ids st' !! c = Some 0 /\
    (id ∉ all_ids st') /\
    forall st1 v st2,
      (forall n, 1 <= randint n <= M) ->
      run randint (no_request c) st' st1 ->
      get_response c st1 = Returns v st2 -> v = None.
Proof.
  intros Hwf Hin Hcur Hq Hid Htag.
  assert (c ∈ COMMANDS) as Hc by (apply (wf_current _ _ Hwf); eauto).
  destruct (list_remove_first_is_Some _ _ Hin) as [ids Hids].
  destruct (list_remove_first_NoDup _ _ _ (wf_nodup _ _ Hwf) Hids) as [_ Hgone].
  set (s := set_newest_responses
              (<[c := Some res]> (newest_responses st))
              (set_current_ids (<[c := 0]> (current_ids st))
                 (set_all_ids ids (set_response_queue [] st)))).
  assert (parse_response res (set_response_queue [] (worker_answers res st))
          = Returns tt s) as Hparse.
  { unfold parse_response. simpl. rewrite Hid, Hids, Htag. simpl.
    rewrite Hcur. simpl. by rewrite bool_decide_eq_true_2. }
  assert (check_responses (worker_answers res st) = Returns tt s) as Hdrain.
  { unfold check_responses. simpl. rewrite Hq. simpl.
    unfold bind, modify. by rewrite Hparse. }
  eexists. split_and!.
  - apply get_response_of_drain; [done | exact Hdrain |].
    simpl. by rewrite lookup_insert_eq.
  - simpl. by rewrite lookup_insert_eq.
  - simpl. by rewrite lookup_insert_eq.
  - done.
  - intros st1 v st2 Hrand Hrun Hget.
    assert (idle M c (Some None)
              (set_newest_responses (<[c := None]> (newest_responses s)) s))
      as Hidle.
    { assert (wf M s) as Hwfs.
      { eapply (wf_parse_response M res); [|by rewrite Hparse].
        destruct Hwf. by split. }
      split_and!.
      - destruct Hwfs. split; simpl; try done.
        intros c'. apply is_Some_insert_dom; [done|]. by apply wf_newest0.
      - simpl. by rewrite lookup_insert_eq.
      - left. simpl. by rewrite lookup_insert_eq. }
    pose proof (run_closed _ _ _ _ _ (idle_closed randint M c (Some None) Hrand)
                  Hrun Hidle) as Hidle1.
    destruct (idle_get_response_value _ _ _ _ _ _ Hidle1 Hget) as [?|[= <-]];
      done.
Qed.

(** *** Acknowledgements *)

Lemma sends_acknowledged fuel st build cur fs st' payload :
  (forall id, msg_id (build id) = id) ->
  sends randint fuel st build cur fs = Returns tt st' ->
  exists id,
    effects st' = effects st ++ [EvSend (build id)] /\
    current_ids st' = cur id /\
    newest_responses st' = newest_responses st /\
    parse_response (mkResponse id None payload) st'
    = Returns tt (set_all_ids (all_ids st) st').
Proof.
  intros Hbuild (n & Hn & -> & _)%sends_Returns.
  exists (randint n). split_and!; try done.
  unfold parse_response. simpl. rewrite Hbuild.
  rewrite list_remove_first_app by done. by rewrite app_nil_r.
Qed.

(** X15.  A message and its acknowledgement cancel out: after [ping],
    [update_file] or [remove_file] has returned, observing a response that
    bears the identifier of the message sent and no command tag leaves
    [all_ids], the current identifiers and the buffered responses as they
    were before the call.  For [request] the same response frees the
    identifier but leaves it current for the command, though no longer
    outstanding. *)
Theorem acknowledged_round_trip fuel st payload :
  (forall st',
     ping randint fuel st = Returns tt st' ->
     exists id st'',
       effects st' = effects st ++ [EvSend (Ping id)] /\
       parse_response (mkResponse id None payload) st' = Returns tt st'' /\
       all_ids st'' = all_ids st /\ current_ids st'' = current_ids st /\
       newest_responses st'' = newest_responses st) /\
  (forall f d st',
     update_file randint fuel f d st = Returns tt st' ->
     exists id st'',
       effects st' = effects st ++ [EvSend (Notification id false f d)] /\
       parse_response (mkResponse id None payload) st' = Returns tt st'' /\
       all_ids st'' = all_ids st /\ current_ids st'' = current_ids st /\
       newest_responses st'' = newest_responses st) /\
  (forall f st',
     remove_file randint fuel f st = Returns tt st' ->
     exists id st'',
       effects st' = effects st ++ [EvSend (Notification id true f "")] /\
       parse_response (mkResponse id None payload) st' = Returns tt st'' /\
       all_ids st'' = all_ids st /\ current_ids st'' = current_ids st /\
       newest_responses st'' = newest_responses st) /\
  (forall c f kws w lang rg st',
     request randint fuel c f kws w lang rg st = Returns tt st' ->
     exists id st'',
       effects st' = effects st ++ [EvSend (Request id c f kws w lang rg)] /\
       parse_response (mkResponse id None payload) st' = Returns tt st'' /\
       all_ids st'' = all_ids st /\
       newest_responses st'' = newest_responses st /\
       current_ids st'' !! c = Some id /\ (id ∉ all_ids st'')).
Proof.
  split_and!.
  - intros st'. rewrite ping_eq. intros H.
    eapply (sends_acknowledged _ _ _ _ _ _ payload) in H
      as (id & He & Hc & Hnew & Hp); [|done].
    exists id. eexists. split_and!; [done | exact Hp | done | done | done].
  - intros f d st'. rewrite update_file_eq. intros H.
    eapply (sends_acknowledged _ _ _ _ _ _ payload) in H
      as (id & He & Hc & Hnew & Hp); [|done].
    exists id. eexists. split_and!; [done | exact Hp | done | done | done].
  - intros f st'. rewrite remove_file_eq. destruct (dict_mem _ _); [|done].
    intros H.
    eapply (sends_acknowledged _ _ _ _ _ _ payload) in H
      as (id & He & Hc & Hnew & Hp); [|done].
    exists id. eexists. split_and!; [done | exact Hp | done | done | done].
  - intros c f kws w lang rg st' H.
    apply request_Returns in H as (_ & _ & n & Hn & ->).
    exists (randint n). eexists. split_and!; [done | | | | |].
    + unfold parse_response. simpl.
      rewrite list_remove_first_app by done. by rewrite app_nil_r.
    + done.
    + done.
    + simpl. by rewrite lookup_insert_eq.
    + done.
Qed.

End Facade.

(** ** The theorems at concrete instances *)

Example demo_requested_state :
  all_ids demo_requested = [1; 4] /\
  current_ids demo_requested !! "autocomplete" = Some 4 /\
  newest_responses demo_requested !! "autocomplete" = Some None /\
  files demo_requested = [("a.txt", "1")] /\
  effects demo_requested =
  [EvSpawn; EvSend (Notification 1 false "a.txt" "1");
   EvSend (Request 4 "autocomplete" "a.txt" [] "" "Text" (1, -1))].
Proof. split_and!; reflexivity. Qed.

Example demo_removed_state :
  files demo_removed = [("a.txt", "1"); ("b.txt", "2")] /\
  effects demo_removed =
  [EvSpawn; EvSend (Notification 1 false "a.txt" "1");
   EvSend (Notification 4 false "b.txt" "2");
   EvSend (Notification 2 true "a.txt" "")].
Proof. split_and!; reflexivity. Qed.

Example demo_full_state :
  all_ids demo_full = [1; 2] /\ id_max demo_full = 2 /\
  ping coin_randint 1000 demo_full = OutOfFuel.
Proof. split_and!; vm_compute; reflexivity. Qed.

Lemma demo_randint_range n : 1 <= demo_randint n <= 5.
Proof.
  unfold demo_randint.
  pose proof (Z.mod_pos_bound (Z.of_nat n * 3) 5). lia.
Qed.

Lemma parse_response_observe_witness :
  exists st',
    parse_response demo_answer demo_requested = Returns tt st' /\
    all_ids demo_requested = [1; 4] /\ all_ids st' = [1] /\
    current_ids st' = <["autocomplete" := 0]> (current_ids demo_requested) /\
    newest_responses st'
    = <["autocomplete" := Some demo_answer]> (newest_responses demo_requested).
Proof.
  assert (res_id demo_answer ∈ all_ids demo_requested) as Hin.
  { apply (bool_decide_unpack _). vm_compute. exact I. }
  destruct (parse_response_observe demo_answer demo_requested) as [_ Hobserve].
  destruct (Hobserve Hin)
    as (before & after & st' & Hids & Hfirst & _ & Hids' & _ & _ & _ & _ & _ & _ & _
        & Hret & Hcur & Hnew).
  assert (before = [1] /\ after = []) as [-> ->].
  { change (all_ids demo_requested) with [1; 4] in Hids.
    change (res_id demo_answer) with 4 in Hids, Hfirst.
    destruct before as [|x [|y before]]; simpl in Hids.
    - discriminate Hids.
    - by simplify_eq.
    - exfalso. injection Hids as _ _ Hnil. by destruct before. }
  exists st'. split; [exact Hret|]. split; [reflexivity|].
  split; [exact Hids'|]. split; [exact Hcur | exact Hnew].
Defined.

Lemma demo_no_ids_wf : wf 0 demo_no_ids.
Proof.
  destruct (wf_fresh 0) as [Hmax Hnd Hrg Hcur Hnew]. by split.
Qed.

Lemma demo_randint_recurring : recurring demo_randint 5 4.
Proof.
  intros pos v Hv. unfold demo_randint.
  assert (exists k, (k <= 4)%nat /\
                    (Z.of_nat (pos + k) * 3) mod 5 = v - 1) as (k & Hk & E).
  { pose proof (Z.mod_pos_bound (Z.of_nat pos) 5 ltac:(lia)) as Hr.
    pose proof (Z.div_mod (Z.of_nat pos) 5 ltac:(lia)) as Hdm.
    set (q := Z.of_nat pos / 5) in *. set (r := Z.of_nat pos mod 5) in *.
    exists (Z.to_nat ((2 * (v - 1) - r) mod 5)).
    pose proof (Z.mod_pos_bound (2 * (v - 1) - r) 5 ltac:(lia)) as Hk.
    split; [lia|].
    rewrite Nat2Z.inj_add, Z2Nat.id by lia.
    pose proof (Z.div_mod (2 * (v - 1) - r) 5 ltac:(lia)) as Hdm2.
    set (k := (2 * (v - 1) - r) mod 5) in *.
    set (q2 := (2 * (v - 1) - r) / 5) in *.
    symmetry. apply (Z.mod_unique _ _ (3 * q + v - 1 - 3 * q2)); lia. }
  exists k. split; [done|]. rewrite E. lia.
Qed.

Lemma demo_one_file_reachable : reachable demo_randint 5 demo_one_file.
Proof.
  exists demo_ipc. split; [reflexivity|].
  eapply rtc_l; [|apply rtc_refl].
  exists (Calls (Call_update_file "a.txt" "1")). split; [done|].
  by apply (step_call demo_randint 5%nat).
Qed.

Lemma demo_requested_reachable : reachable demo_randint 5 demo_requested.
Proof.
  destruct demo_one_file_reachable as (st0 & Hinit & Hrun).
  exists st0. split; [done|].
  eapply rtc_r; [exact Hrun|].
  exists (Calls (Call_request "autocomplete" "a.txt" [] "" "Text" (1, -1))).
  split; [done|]. by apply (step_call demo_randint 5%nat).
Qed.

Lemma demo_one_file_wf : wf 5 demo_one_file.
Proof.
  apply (reachable_wf demo_randint);
    [apply demo_randint_range | apply demo_one_file_reachable].
Qed.

Lemma demo_requested_wf : wf 5 demo_requested.
Proof.
  apply (reachable_wf demo_randint);
    [apply demo_randint_range | apply demo_requested_reachable].
Qed.

(** C1, as the specification words it, fails: the response bears identifier
    4, the current identifier of its command on an instance a program can
    hold, yet it is not stored and the current identifier is not reset,
    [ValueError] is raised; and a response whose tag is not a command is
    not discarded, [KeyError] is raised. *)
Lemma parse_response_observe_counterexample :
  reachable demo_randint 5 demo_acknowledged /\
  res_command demo_answer = Some "autocomplete" /\
  current_ids demo_acknowledged !! "autocomplete" = Some (res_id demo_answer) /\
  parse_response demo_answer demo_acknowledged
  = Raises ValueError demo_acknowledged /\
  newest_responses demo_acknowledged !! "autocomplete" = Some None /\
  (res_id demo_answer ∉ all_ids demo_acknowledged) /\
  exists st',
    parse_response (mkResponse 4 (Some "rename") "") demo_requested
    = Raises (KeyError "rename") st'.
Proof.
  split_and!; try reflexivity.
  - destruct demo_requested_reachable as (st0 & Hinit & Hrun).
    exists st0. split; [done|].
    eapply rtc_r; [eapply rtc_r; [exact Hrun|]|].
    + exists (Worker_answers (mkResponse 4 None "ack")).
      split; [done | constructor].
    + exists (Calls (Call_get_response "highlight")). split; [done|].
      apply (step_call demo_randint 0%nat _ _ demo_acknowledged).
      vm_compute. reflexivity.
  - apply (bool_decide_unpack _). vm_compute. exact I.
  - eexists. reflexivity.
Qed.

Lemma supersession_witness :
  exists st3,
    get_response "autocomplete"
      (worker_answers (mkResponse 4 (Some "autocomplete") "late") demo_requested_twice)
    = Returns None st3 /\
    exists st4,
      get_response "autocomplete"
        (worker_answers (mkResponse 2 (Some "autocomplete") "new") st3)
      = Returns (Some (mkResponse 2 (Some "autocomplete") "new")) st4.
Proof.
  assert (forall n, 1 <= demo_randint n <= 5) as Hrand.
  { intros n. unfold demo_randint.
    pose proof (Z.mod_pos_bound (Z.of_nat n * 3) 5). lia. }
  assert (response_queue demo_one_file = []) as Hq by reflexivity.
  assert (newest_responses demo_one_file !! "autocomplete" = Some None) as Hslot
    by reflexivity.
  assert (request demo_randint 5 "autocomplete" "a.txt" [] "" "Text" (1, -1)
                  demo_one_file = Returns tt demo_requested) as Hreq1
    by reflexivity.
  assert (request demo_randint 5 "autocomplete" "a.txt" [] "" "Text" (1, -1)
                  demo_requested = Returns tt demo_requested_twice) as Hreq2
    by reflexivity.
  destruct (supersession demo_randint 5 "autocomplete"
              "a.txt" [] "" "Text" (1, -1) "a.txt" [] "" "Text" (1, -1)
              5%nat 5%nat demo_one_file demo_requested demo_requested_twice
              Hrand demo_one_file_wf Hq Hslot Hreq1 Hreq2)
    as (_ & id1 & id2 & Hid1 & Hid2 & _ & Hscenario & _).
  assert (id1 = 4) as -> by (vm_compute in Hid1; congruence).
  assert (id2 = 2) as -> by (vm_compute in Hid2; congruence).
  destruct (Hscenario (mkResponse 4 (Some "autocomplete") "late")
                      (mkResponse 2 (Some "autocomplete") "new")
                      eq_refl eq_refl eq_refl eq_refl)
    as (st3 & st4 & H3 & H4 & _).
  exists st3. split; [exact H3|]. exists st4. exact H4.
Defined.


Lemma identifier_allocation_witness :
  reachable demo_randint 5 demo_requested /\
  NoDup (all_ids demo_requested) /\
  (0 ∉ all_ids demo_requested) /\
  (exists st1,
     new_id demo_randint 5 demo_requested = Returns 2 st1 /\
     1 <= 2 <= 5 /\ (2 ∉ all_ids demo_requested) /\
     all_ids st1 = all_ids demo_requested ++ [2]) /\
  exists ids st',
    create_messages demo_randint 4
      [("ping", no_kwargs); ("notification", no_kwargs); ("request", no_kwargs)]
      demo_requested = Returns tt st' /\
    length ids = 3%nat /\ NoDup ids /\
    all_ids st' = all_ids demo_requested ++ ids /\
    sent_ids (effects st') = sent_ids (effects demo_requested) ++ ids.
Proof.
  destruct (identifier_allocation demo_randint 5 demo_requested demo_randint_range
              demo_requested_reachable)
    as (_ & Hnd & _ & Hzero & _ & Halloc & _ & Hmany).
  split; [exact demo_requested_reachable|].
  split; [exact Hnd|]. split; [exact Hzero|]. split.
  - eexists. split; [reflexivity|].
    edestruct (Halloc 5%nat 2) as (Hrg & _ & Hfresh & Happ & _); [reflexivity|].
    split; [exact Hrg|]. split; [exact Hfresh | exact Happ].
  - destruct (Hmany 4%nat
                [("ping", no_kwargs); ("notification", no_kwargs);
                 ("request", no_kwargs)] demo_randint_recurring)
      as (ids & st' & Hret & Hlen & Hids & Hsent & Hnd' & _).
    { vm_compute. discriminate. }
    exists ids, st'. split; [exact Hret|]. split; [exact Hlen|].
    split; [exact Hnd'|]. split; [exact Hids | exact Hsent].
Defined.

Lemma observe_partial_witness :
  wf 5 demo_requested /\
  parse_response (mkResponse 3 (Some "autocomplete") "stray") demo_requested
  = Raises ValueError demo_requested /\
  (exists ids,
     list_remove_first 4 (all_ids demo_requested) = Some ids /\
     parse_response (mkResponse 4 (Some "rename") "odd") demo_requested
     = Raises (KeyError "rename") (set_all_ids ids demo_requested)) /\
  exists e st',
    get_response "autocomplete"
      (worker_answers (mkResponse 4 None "")
         (worker_answers (mkResponse 4 (Some "autocomplete") "once") demo_requested))
    = Raises e st' /\ uncaught e.
Proof.
  pose proof (observe_partial 5 demo_requested demo_requested_wf)
    as (Hvalue & Hkey & _).
  split; [exact demo_requested_wf|]. split.
  { apply Hvalue. apply (bool_decide_unpack _). vm_compute. exact I. }
  split.
  { apply (Hkey (mkResponse 4 (Some "rename") "odd") "rename").
    - apply (bool_decide_unpack _). vm_compute. exact I.
    - reflexivity.
    - apply (bool_decide_unpack _). vm_compute. exact I. }
  assert (wf 5 (worker_answers (mkResponse 4 None "")
                  (worker_answers (mkResponse 4 (Some "autocomplete") "once")
                     demo_requested))) as Hwf.
  { destruct demo_requested_wf. by split. }
  destruct (observe_partial 5 _ Hwf) as (_ & _ & Hget).
  apply Hget.
  - apply (bool_decide_unpack _). vm_compute. exact I.
  - right. apply (bool_decide_unpack _). vm_compute. exact I.
Defined.

Lemma remove_file_keeps_mirror_witness :
  remove_file demo_randint 5 "a.txt" demo_two_files = Returns tt demo_removed /\
  files demo_removed = [("a.txt", "1"); ("b.txt", "2")] /\
  forall st'',
    check_server demo_randint 5 (set_server_alive false demo_removed)
    = Returns tt st'' ->
    upserts (effects st'') =
    upserts (effects demo_two_files) ++ [("a.txt", "1"); ("b.txt", "2")].
Proof.
  assert (remove_file demo_randint 5 "a.txt" demo_two_files = Returns tt demo_removed)
    as Hremove by reflexivity.
  destruct (remove_file_keeps_mirror demo_randint 5 "a.txt" demo_two_files
              demo_removed Hremove) as (Hfiles & _ & _ & Hreplay).
  split; [exact Hremove|]. split; [rewrite Hfiles; reflexivity|].
  intros st'' Hcheck. destruct (Hreplay _ _ Hcheck) as [Hup _]. exact Hup.
Defined.

Lemma dead_worker_stays_dead_witness :
  server_alive demo_dead = false /\
  forall st',
    request demo_randint 5 "autocomplete" "a.txt" [] "" "Text" (1, -1) demo_dead
    = Returns tt st' ->
    server_alive st' = false /\
    exists id,
      effects st' =
      effects demo_dead
      ++ [EvSend (Request id "autocomplete" "a.txt" [] "" "Text" (1, -1))].
Proof.
  assert (server_alive demo_dead = false) as Hdead by reflexivity.
  destruct (dead_worker_stays_dead demo_randint demo_dead Hdead)
    as (_ & Hrequest & _).
  split; [exact Hdead|]. intros st' Hreq. exact (Hrequest _ _ _ _ _ _ _ _ Hreq).
Defined.

Lemma request_errors_witness :
  (exists e st',
     request demo_randint 5 "rename" "a.txt" [] "" "Text" (1, -1) demo_one_file
     = Raises e st' /\ is_InvalidCommand e = true) /\
  (exists e st',
     request demo_randint 5 "highlight" "b.txt" [] "" "Text" (1, -1) demo_one_file
     = Raises e st' /\ is_UnknownFile e = true) /\
  (exists st',
     request demo_randint 5 "highlight" "a.txt" [] "" "Text" (1, -1) demo_one_file
     = Returns tt st') /\
  exists st',
    request demo_randint 5 "rename" "a.txt" [] "" "Text" (1, -1) demo_one_file
    = Raises (CommandNotBuiltin "rename") st' /\
    only_killed demo_one_file st'.
Proof.
  split; [|split; [|split]].
  - apply (request_errors demo_randint 5 "rename" "a.txt" [] "" "Text" (1, -1)
             demo_one_file).
    apply (bool_decide_unpack _). vm_compute. exact I.
  - apply (request_errors demo_randint 5 "highlight" "b.txt" [] "" "Text" (1, -1)
             demo_one_file).
    split; apply (bool_decide_unpack _); vm_compute; exact I.
  - destruct (request_errors demo_randint 5 "highlight" "a.txt" [] "" "Text" (1, -1)
                demo_one_file) as (_ & _ & _ & _ & _ & Hreturns).
    apply (Hreturns) with (k := 0%nat).
    + apply (bool_decide_unpack _). vm_compute. exact I.
    + apply (bool_decide_unpack _). vm_compute. exact I.
    + vm_compute. discriminate.
    + lia.
    + apply (bool_decide_unpack _). vm_compute. exact I.
  - destruct (request_errors demo_randint 5 "rename" "a.txt" [] "" "Text" (1, -1)
                demo_one_file) as (_ & _ & Hkill & _).
    eexists. split; [reflexivity|].
    eapply Hkill; [reflexivity | by left].
Defined.

Lemma rejection_sampling_witness :
  (forall fuel, ping coin_randint fuel demo_full = OutOfFuel) /\
  exists st',
    new_id demo_randint 5 demo_requested = Returns 2 st' /\ draws st' = 3%nat.
Proof.
  split.
  - intros fuel.
    destruct (rejection_sampling coin_randint demo_full)
      as (_ & _ & _ & _ & _ & _ & Hfull).
    apply Hfull.
    + intros id Hid. change (id_max demo_full) with 2 in Hid.
      assert (id = 1 \/ id = 2) as [-> | ->] by lia;
        apply (bool_decide_unpack _); vm_compute; exact I.
    + intros n. change (id_max demo_full) with 2. unfold coin_randint.
      pose proof (Z.mod_pos_bound (Z.of_nat n) 2). lia.
  - destruct (rejection_sampling demo_randint demo_requested)
      as (_ & _ & Hfirst & _).
    apply (Hfirst ltac:(vm_compute; discriminate) 5%nat 0%nat).
    + lia.
    + apply (bool_decide_unpack _). vm_compute. exact I.
    + intros j Hj. lia.
Defined.

Lemma identifiers_accumulate_witness :
  (exists id, (id ∉ all_ids demo_one_file) /\
              all_ids demo_pinged = all_ids demo_one_file ++ [id] /\
              effects demo_pinged = effects demo_one_file ++ [EvSend (Ping id)]) /\
  1 ∈ all_ids demo_pinged.
Proof.
  destruct (identifiers_accumulate demo_randint demo_one_file)
    as (Hping & _ & _ & _ & _ & _ & Hstays & _).
  split.
  - apply (Hping 5%nat). reflexivity.
  - apply Hstays.
    + apply (bool_decide_unpack _). vm_compute. exact I.
    + intros res Hres. vm_compute in Hres. by apply elem_of_nil in Hres.
    + eapply rtc_l; [|apply rtc_refl].
      exists (Calls Call_ping). split; [by intros res|].
      by apply (step_call demo_randint 5%nat).
Defined.

(** ** The facade beyond the claims, at concrete instances *)

Example demo_buffered_state :
  all_ids demo_buffered = [1] /\
  current_ids demo_buffered !! "autocomplete" = Some 0 /\
  newest_responses demo_buffered !! "autocomplete" = Some (Some demo_answer) /\
  all_ids demo_buffered_requested = [1; 2] /\
  current_ids demo_buffered_requested !! "autocomplete" = Some 2 /\
  newest_responses demo_buffered_requested !! "autocomplete"
  = Some (Some demo_answer).
Proof. split_and!; reflexivity. Qed.

Lemma demo_answered_reachable :
  reachable demo_randint 5 (worker_answers demo_answer demo_requested).
Proof.
  destruct demo_requested_reachable as (st0 & Hinit & Hrun).
  exists st0. split; [done|].
  eapply rtc_r; [exact Hrun|].
  exists (Worker_answers demo_answer). split; [done | constructor].
Qed.

Lemma demo_buffered_requested_reachable :
  reachable demo_randint 5 demo_buffered_requested.
Proof.
  destruct demo_answered_reachable as (st0 & Hinit & Hrun).
  exists st0. split; [done|].
  eapply rtc_r; [eapply rtc_r; [exact Hrun|]|].
  - exists (Calls (Call_get_response "highlight")). split; [done|].
    apply (step_call demo_randint 0%nat _ _ demo_buffered).
    vm_compute. reflexivity.
  - exists (Calls (Call_request "autocomplete" "a.txt" [] "" "Text" (1, -1))).
    split; [done|].
    apply (step_call demo_randint 5%nat _ _ demo_buffered_requested).
    vm_compute. reflexivity.
Qed.

Lemma coin_randint_range n : 1 <= coin_randint n <= 2.
Proof.
  unfold coin_randint. pose proof (Z.mod_pos_bound (Z.of_nat n) 2). lia.
Qed.

Lemma demo_crowded_reachable : reachable coin_randint 2 demo_crowded.
Proof.
  exists (state_of (__init__ coin_randint 2) (fresh 2)).
  split; [reflexivity|].
  eapply rtc_r; [eapply rtc_l; [|eapply rtc_l; [|apply rtc_refl]]|].
  - exists (Calls (Call_update_file "a.txt" "1")). split; [done|].
    apply (step_call coin_randint 5%nat _ _
             (state_of (update_file coin_randint 5 "a.txt" "1"
                          (state_of (__init__ coin_randint 2) (fresh 2)))
                       (fresh 2))).
    vm_compute. reflexivity.
  - exists (Calls (Call_update_file "b.txt" "2")). split; [done|].
    apply (step_call coin_randint 5%nat _ _ demo_two_notes).
    vm_compute. reflexivity.
  - exists Worker_dies. split; [done|]. apply step_dies.
Qed.

Lemma get_response_sound_witness :
  exists st',
    get_response "autocomplete" (worker_answers demo_answer demo_requested)
    = Returns (Some demo_answer) st' /\
    sent_request 4 "autocomplete" (effects demo_requested) /\
    (forall id, id ∈ all_ids demo_requested ->
                id ∈ sent_ids (effects demo_requested)).
Proof.
  assert (forall n, 1 <= demo_randint n <= 5) as Hrand.
  { intros n. unfold demo_randint.
    pose proof (Z.mod_pos_bound (Z.of_nat n * 3) 5). lia. }
  destruct (get_response_sound demo_randint 5 _ Hrand demo_answered_reachable)
    as (Hout & _ & Hsound).
  exists (state_of (get_response "autocomplete"
                      (worker_answers demo_answer demo_requested))
                   demo_requested).
  assert (get_response "autocomplete" (worker_answers demo_answer demo_requested)
          = Returns (Some demo_answer)
              (state_of (get_response "autocomplete"
                           (worker_answers demo_answer demo_requested))
                        demo_requested)) as Hget
    by (vm_compute; reflexivity).
  split; [exact Hget|]. split.
  - exact (proj1 (proj2 (Hsound "autocomplete" demo_answer _ Hget))).
  - exact Hout.
Defined.

Lemma cancel_request_local_witness :
  exists st',
    cancel_request "autocomplete" demo_requested = Returns tt st' /\
    all_ids st' = [1; 4] /\ effects st' = effects demo_requested /\
    cancel_request "autocomplete" st' = Returns tt st'.
Proof.
  assert ("autocomplete" ∈ COMMANDS) as Hc.
  { apply (bool_decide_unpack _). vm_compute. exact I. }
  destruct (cancel_request_local demo_randint "autocomplete" demo_requested Hc)
    as (st' & Hcancel & Hids & Heff & _ & _ & _ & _ & _ & Hagain & _).
  exists st'. split; [exact Hcancel|]. split; [rewrite Hids; reflexivity|].
  split; [exact Heff | exact Hagain].
Defined.

Lemma update_file_enables_witness :
  update_file demo_randint 5 "a.txt" "1" demo_ipc = Returns tt demo_one_file /\
  (exists st'',
     request demo_randint 5 "highlight" "a.txt" [] "" "Text" (1, -1) demo_one_file
     = Returns tt st'') /\
  (exists st'', remove_file demo_randint 5 "a.txt" demo_one_file = Returns tt st'') /\
  exists st0,
    request demo_randint 5 "highlight" "a.txt" [] "" "Text" (1, -1) demo_ipc
    = Raises (FileDoesNotExist "a.txt") st0 /\
    effects st0 = [EvSpawn; EvKill] /\ server_alive st0 = true.
Proof.
  assert (update_file demo_randint 5 "a.txt" "1" demo_ipc = Returns tt demo_one_file)
    as Hupd by reflexivity.
  assert ("highlight" ∈ COMMANDS) as Hc.
  { apply (bool_decide_unpack _). vm_compute. exact I. }
  assert (randint_free : demo_randint (draws demo_one_file + 0) ∉ all_ids demo_one_file).
  { apply (bool_decide_unpack _). vm_compute. exact I. }
  assert ("a.txt" ∉ (files demo_ipc).*1) as Hnot.
  { apply (bool_decide_unpack _). vm_compute. exact I. }
  destruct (update_file_enables demo_randint 5 "a.txt" "1" demo_ipc demo_one_file Hupd)
    as (Hreq & Hrem & Hbefore).
  split; [exact Hupd|]. split; [|split].
  - apply (proj2 (Hreq 5%nat "highlight" [] "" "Text" (1, -1) Hc) 0%nat);
      [lia | exact randint_free].
  - apply (proj2 (Hrem 5%nat) 0%nat); [lia | exact randint_free].
  - destruct (proj1 (Hbefore Hnot) 5%nat "highlight" [] "" "Text" (1, -1) Hc)
      as (st0 & Hraise & Heff & _ & _ & _ & _ & _ & _ & Halive & _).
    exists st0. split; [exact Hraise|]. split; [exact Heff | exact Halive].
Defined.

Lemma check_server_respawn_witness :
  NoDup (files demo_dead).*1 /\
  exists st',
    check_server demo_randint 5 demo_dead = Returns tt st' /\
    server_alive st' = true /\
    upserts (effects st') = upserts (effects demo_dead) ++ [("a.txt", "1")] /\
    files st' = [("a.txt", "1")] /\
    current_ids st' = current_ids demo_dead /\
    check_server demo_randint 5 st' = Returns tt st'.
Proof.
  assert (NoDup (files demo_dead).*1) as Hnd.
  { apply (bool_decide_unpack _). vm_compute. exact I. }
  destruct (check_server_respawn demo_randint 5 demo_dead Hnd) as [_ Hdead].
  split; [exact Hnd|]. eexists. split; [reflexivity|].
  edestruct (Hdead eq_refl) as (Ha & _ & Hu & Hf & Hc & _ & _ & _ & Hagain);
    [reflexivity|].
  split; [exact Ha|]. split; [exact Hu|]. split; [exact Hf|].
  split; [exact Hc | exact (Hagain 5%nat)].
Defined.

Lemma respawn_capacity_witness :
  reachable coin_randint 2 demo_crowded /\
  Z.of_nat (length (all_ids demo_crowded)) <= 2 /\
  (forall fuel, check_server coin_randint fuel demo_crowded = OutOfFuel) /\
  exists st',
    check_server demo_randint 5 demo_no_ids = Raises ValueError st' /\
    server_alive st' = true.
Proof.
  assert (forall n, 1 <= coin_randint n <= 2) as Hrand.
  { intros n. unfold coin_randint.
    pose proof (Z.mod_pos_bound (Z.of_nat n) 2). lia. }
  destruct (respawn_capacity coin_randint 2 demo_crowded) as [Hcap _].
  destruct (Hcap Hrand demo_crowded_reachable) as [Hbound Hloop].
  split; [exact demo_crowded_reachable|]. split; [exact Hbound|]. split.
  - apply Hloop; [reflexivity | vm_compute; reflexivity].
  - destruct (respawn_capacity demo_randint 0 demo_no_ids) as [_ Hlow].
    destruct (Hlow ltac:(vm_compute; reflexivity) eq_refl 5%nat)
      as (st' & Hcheck & Halive & _).
    exists st'. split; [exact Hcheck | exact Halive].
Defined.

Lemma mirror_persists_witness :
  dict_get "a.txt" (files demo_pinged) = Some "1" /\
  files demo_pinged = files demo_one_file /\
  files demo_no_ids = [("a.txt", "1"); ("b.txt", "2")] /\
  exists st',
    final_state (check_server demo_randint 5 demo_no_ids) = Some st' /\
    files st' = [("a.txt", "1")].
Proof.
  assert (forall n, 1 <= demo_randint n <= 5) as Hrand.
  { intros n. unfold demo_randint.
    pose proof (Z.mod_pos_bound (Z.of_nat n * 3) 5). lia. }
  assert (NoDup (files demo_one_file).*1) as Hnd.
  { apply (bool_decide_unpack _). vm_compute. exact I. }
  destruct (mirror_persists demo_randint 5 demo_one_file demo_pinged
              demo_one_file_wf Hnd) as [Hkeep _].
  destruct (Hkeep Hrand) as (_ & Hget & Hsame).
  assert (forall allowed : label -> Prop,
            allowed (Calls Call_ping) ->
            run demo_randint allowed demo_one_file demo_pinged) as Hrun.
  { intros allowed Hallowed. eapply rtc_l; [|apply rtc_refl].
    exists (Calls Call_ping). split; [exact Hallowed|].
    by apply (step_call demo_randint 5%nat). }
  split; [|split; [|split]].
  - rewrite (Hget "a.txt"); [reflexivity|]. apply Hrun. by intros d.
  - apply Hsame. apply Hrun. by intros f d.
  - reflexivity.
  - assert (NoDup (files demo_no_ids).*1) as Hnd0.
    { apply (bool_decide_unpack _). vm_compute. exact I. }
    destruct (mirror_persists demo_randint 0 demo_no_ids demo_no_ids
                demo_no_ids_wf Hnd0) as [_ Hlow].
    destruct (Hlow ltac:(lia) eq_refl 5%nat) as (st' & Hfinal & _ & Hfiles & _).
    exists st'. split; [exact Hfinal | exact Hfiles].
Defined.

Lemma get_response_returns_iff_witness :
  (exists v st', get_response "autocomplete" demo_requested = Returns v st') /\
  exists e st',
    get_response "autocomplete"
      (worker_answers (mkResponse 3 None "") demo_requested) = Raises e st'.
Proof.
  assert ("autocomplete" ∈ COMMANDS) as Hc.
  { apply (bool_decide_unpack _). vm_compute. exact I. }
  split.
  - apply (get_response_returns_iff 5 "autocomplete" demo_requested
             demo_requested_wf Hc).
    split; [constructor | apply NoDup_nil_2].
  - assert (wf 5 (worker_answers (mkResponse 3 None "") demo_requested)) as Hwf.
    { destruct demo_requested_wf. by split. }
    apply (get_response_returns_iff 5 "autocomplete" _ Hwf Hc).
    intros [Hall _]. apply Forall_cons in Hall as [[Hin _] _].
    revert Hin. apply (bool_decide_unpack _). vm_compute. exact I.
Defined.

Lemma independent_commands_witness :
  exists s3 s4,
    get_response "autocomplete"
      (worker_answers demo_answer
         (worker_answers (mkResponse 2 (Some "highlight") "colours")
            demo_two_commands))
    = Returns (Some demo_answer) s3 /\
    get_response "highlight" s3
    = Returns (Some (mkResponse 2 (Some "highlight") "colours")) s4.
Proof.
  assert (forall n, 1 <= demo_randint n <= 5) as Hrand.
  { intros n. unfold demo_randint.
    pose proof (Z.mod_pos_bound (Z.of_nat n * 3) 5). lia. }
  assert ("autocomplete" <> "highlight") as Hne by discriminate.
  destruct (independent_commands demo_randint 5
              "autocomplete" "a.txt" [] "" "Text" (1, -1)
              "highlight" "a.txt" [] "" "Text" (1, -1)
              5%nat 5%nat demo_one_file demo_requested demo_two_commands
              Hrand demo_one_file_wf eq_refl eq_refl eq_refl Hne eq_refl eq_refl)
    as (id1 & id2 & Hid1 & Hid2 & _ & Hboth).
  assert (id1 = 4) as -> by (vm_compute in Hid1; congruence).
  assert (id2 = 2) as -> by (vm_compute in Hid2; congruence).
  destruct (Hboth demo_answer (mkResponse 2 (Some "highlight") "colours") _
                  eq_refl eq_refl eq_refl eq_refl (or_intror eq_refl))
    as [Hfirst _].
  exact Hfirst.
Defined.

Lemma request_keeps_buffer_witness :
  request demo_randint 5 "autocomplete" "a.txt" [] "" "Text" (1, -1) demo_buffered
  = Returns tt demo_buffered_requested /\
  exists st'',
    get_response "autocomplete" demo_buffered_requested
    = Returns (Some demo_answer) st''.
Proof.
  assert (request demo_randint 5 "autocomplete" "a.txt" [] "" "Text" (1, -1)
                  demo_buffered = Returns tt demo_buffered_requested) as Hreq
    by reflexivity.
  destruct (request_keeps_buffer demo_randint 5 "autocomplete" "a.txt" [] ""
              "Text" (1, -1) demo_buffered demo_buffered_requested Hreq)
    as (_ & _ & Hold).
  split; [exact Hreq|]. eexists.
  apply (Hold (Some demo_answer)); reflexivity.
Defined.

Lemma unread_response_overwritten_witness :
  exists st',
    get_response "autocomplete"
      (worker_answers (mkResponse 2 (Some "autocomplete") "second")
         demo_buffered_requested)
    = Returns (Some (mkResponse 2 (Some "autocomplete") "second")) st' /\
    newest_responses st' !! "autocomplete" = Some None.
Proof.
  assert (wf 5 demo_buffered_requested) as Hwf.
  { apply (reachable_wf demo_randint).
    - intros n. unfold demo_randint.
      pose proof (Z.mod_pos_bound (Z.of_nat n * 3) 5). lia.
    - exact demo_buffered_requested_reachable. }
  assert (2 ∈ all_ids demo_buffered_requested) as Hin.
  { apply (bool_decide_unpack _). vm_compute. exact I. }
  destruct (unread_response_overwritten demo_randint 5 "autocomplete" 2
              (mkResponse 2 (Some "autocomplete") "second")
              demo_buffered_requested Hwf Hin eq_refl eq_refl eq_refl eq_refl)
    as (st' & Hget & Hslot & _).
  exists st'. split; [exact Hget | exact Hslot].
Defined.

Lemma new_instance_witness :
  exists st0,
    __init__ demo_randint 0 = Returns tt st0 /\
    server_alive st0 = true /\
    (exists st', get_response "highlight" st0 = Returns None st') /\
    ping demo_randint 5 st0 = Raises ValueError st0.
Proof.
  assert ("highlight" ∈ COMMANDS) as Hc.
  { apply (bool_decide_unpack _). vm_compute. exact I. }
  destruct (new_instance demo_randint 0)
    as (st0 & Hinit & _ & _ & _ & _ & Halive & _ & Hvalid & _ & Hlow).
  exists st0. split; [exact Hinit|]. split; [exact Halive|].
  split; [exact (proj2 (Hvalid _ Hc))|]. apply Hlow. lia.
Defined.

Lemma misuse_errors_witness :
  (exists st',
     cancel_request "rename" demo_requested = Raises (CannotCancel "rename") st' /\
     only_killed demo_requested st') /\
  (exists st',
     get_response "rename" (worker_answers demo_answer demo_requested)
     = Raises (CannotGetResponse "rename") st' /\
     response_queue st' = [demo_answer] /\ server_alive st' = true) /\
  (exists st',
     remove_file demo_randint 5 "b.txt" demo_requested
     = Raises (CannotRemoveFile "b.txt") st' /\
     only_killed demo_requested st').
Proof.
  assert ("rename" ∉ COMMANDS) as Hc.
  { apply (bool_decide_unpack _). vm_compute. exact I. }
  assert ("b.txt" ∉ (files demo_requested).*1) as Hf.
  { apply (bool_decide_unpack _). vm_compute. exact I. }
  split; [|split].
  - destruct (misuse_errors demo_randint demo_requested) as (Hcancel & _).
    exact (proj2 (Hcancel "rename") Hc).
  - destruct (misuse_errors demo_randint
                (worker_answers demo_answer demo_requested)) as (_ & Hget & _).
    destruct (proj2 (Hget "rename") Hc)
      as (st' & Hraise & _ & _ & _ & _ & _ & _ & Hqueue & Halive & _).
    exists st'. split; [exact Hraise|]. split; [exact Hqueue | exact Halive].
  - destruct (misuse_errors demo_randint demo_requested) as (_ & _ & Hrem).
    exact (proj2 (Hrem 5%nat "b.txt") Hf).
Defined.

Lemma update_file_mirror_witness :
  exists st',
    update_file demo_randint 5 "a.txt" "2" demo_requested = Returns tt st' /\
    files st' = [("a.txt", "2")] /\ dict_get "a.txt" (files st') = Some "2".
Proof.
  destruct (update_file_mirror demo_randint 5 "a.txt" "2" demo_requested)
    as (Hmirror & _).
  eexists. split; [reflexivity|].
  edestruct Hmirror as (Hfiles & Hget & _); [reflexivity|].
  split; [exact Hfiles | exact Hget].
Defined.

Lemma check_responses_consumes_witness :
  (exists st',
     check_responses (worker_answers demo_answer demo_requested) = Returns tt st' /\
     response_queue st' = []) /\
  exists st',
    get_response "autocomplete"
      (worker_answers demo_answer
         (worker_answers (mkResponse 3 None "") demo_requested))
    = Raises ValueError st' /\
    (length (response_queue st') < 2)%nat.
Proof.
  split.
  - destruct (check_responses_consumes
                (worker_answers demo_answer demo_requested)) as (_ & Hret & _).
    eexists. split; [reflexivity|]. eapply Hret. reflexivity.
  - assert ("autocomplete" ∈ COMMANDS) as Hc.
    { apply (bool_decide_unpack _). vm_compute. exact I. }
    destruct (check_responses_consumes
                (worker_answers demo_answer
                   (worker_answers (mkResponse 3 None "") demo_requested)))
      as (_ & _ & _ & Hshort).
    eexists. split; [reflexivity|].
    edestruct (Hshort "autocomplete" ValueError) as [Hlt | [Hne _]];
      [exact Hc | reflexivity | exact Hlt | discriminate Hne].
Defined.

Lemma acknowledged_round_trip_witness :
  ping demo_randint 5 demo_one_file = Returns tt demo_pinged /\
  exists id st'',
    parse_response (mkResponse id None "pong") demo_pinged = Returns tt st'' /\
    all_ids st'' = [1].
Proof.
  assert (ping demo_randint 5 demo_one_file = Returns tt demo_pinged) as Hping
    by reflexivity.
  destruct (acknowledged_round_trip demo_randint 5 demo_one_file "pong")
    as (Hack & _).
  destruct (Hack _ Hping) as (id & st'' & _ & Hparse & Hids & _).
  split; [exact Hping|].
  exists id, st''. split; [exact Hparse | exact Hids].
Defined.
